(** * playwright-auditor: scoring engine, helpers and audit runner

    A shallow embedding of
      - dist/src/utils/scoring.js   (computeCategoryScore, computeOverallScore)
      - src/utils/helpers.ts        (DEDUCT, applyScore, ok, readFile, exists,
                                     firstExisting, findConfig, fileExistsAny,
                                     readIfExists, walk, walkFiles, findFirstFile,
                                     findAntiPatternFiles, collectCiConfigs,
                                     firstFileMatching, inDeps, depMap, getVersion,
                                     hasDep, hasAny, anyScriptIncludes,
                                     looksFloating, createCategory, addFinding,
                                     makeId, msg)
      - dist/src/index.js           (ANALYZERS, toSev, normalizeCategory,
                                     analyzerCandidates, importAnalyzerModule,
                                     runAnalyzer, runAudit, mainFromCli, and the
                                     project structure analyzer listed with it,
                                     analyzeProjectStructure)
      - dist/bin/cli.js             (the action of the pwaudit command)
      - dist/src/reporters/json.js  (writeJson)
    followed by the properties of these functions.

    Conventions of the embedding.
      - A JavaScript value handed over by an analyzer is a [JsVal]: the JSON
        shaped values plus [Error] instances.  Numbers that count points are
        integers and are kept in [Z]: a JavaScript array holds fewer than 2^32
        elements and a weight is at most 12, so the sums of
        [computeCategoryScore] stay far below 2^53 where binary64 is exact on
        integers.  [WEIGHT[sev]] finds the members the literal inherits from
        [Object.prototype] as well; added to a number they make a string, so
        [maxPoints] and [earnedPoints] are [Points], a number or a text.
      - [computeOverallScore] is handed any scores and weights, so its two
        sums, its products and its divisions are done in binary64 with the
        kernel's primitive floats, as are the division and the product of
        [computeCategoryScore]: this is where JavaScript rounds.
      - The file system, the module loader, the clock and the report writers
        are fields of a [World]; the asynchronous code is sequential, so an
        [await] is a bind of the [Run] monad, which records the effects in the
        order the code performs them.
      - For the helpers, what the disk holds is a [Disk], what [readdir] shows
        a tree of [Dirent], and the two module-level caches are explicit state
        handed from call to call ([Cached]); a [RegExp] is an object with its
        [lastIndex], matched by an [Engine]; the category a module creates when
        it is loaded is handed to each call of its analyzer and handed back. *)

From Stdlib Require Import ZArith List String Ascii Bool Lia Permutation.
From Stdlib Require Import Floats DecimalString.
Import ListNotations.

Local Open Scope string_scope.
Local Open Scope Z_scope.

(* ================================================================= *)
(** ** JavaScript values and the operators the code applies to them *)

Module Js.

#[warnings="-register-all"]
Inductive JsVal : Type :=
| JUndefined
| JNull
| JBool (b : bool)
| JNum (n : Z)
| JStr (s : string)
| JArr (xs : list JsVal)
| JObj (props : list (string * JsVal))
| JErr (name message : string).

(** [!!v] *)
Definition truthy (v : JsVal) : bool :=
  match v with
  | JUndefined | JNull => false
  | JBool b => b
  | JNum n => negb (n =? 0)
  | JStr s => negb (s =? EmptyString)%string
  | JArr _ | JObj _ | JErr _ _ => true
  end.

Definition nullish (v : JsVal) : bool :=
  match v with
  | JUndefined | JNull => true
  | _ => false
  end.

(** [a ?? b] *)
Definition coalesce (a b : JsVal) : JsVal := if nullish a then b else a.

(** [a || b] *)
Definition orElse (a b : JsVal) : JsVal := if truthy a then a else b.

Fixpoint assoc (k : string) (props : list (string * JsVal)) : JsVal :=
  match props with
  | [] => JUndefined
  | (k', v) :: rest => if (k =? k')%string then v else assoc k rest
  end.

(** [v.k] on a value that is neither [null] nor [undefined].  The keys this
    program reads ([id], [title], [message], [severity], [status], ...) are
    no index and not [length], so a primitive or an array has none of them. *)
Definition prop (v : JsVal) (k : string) : JsVal :=
  match v with
  | JObj props => assoc k props
  | JErr name message =>
      if (k =? "message")%string then JStr message
      else if (k =? "name")%string then JStr name
      else JUndefined
  | _ => JUndefined
  end.

(** [v?.k] *)
Definition optProp (v : JsVal) (k : string) : JsVal :=
  if nullish v then JUndefined else prop v k.

(** [v === 'lit'] *)
Definition isStr (v : JsVal) (lit : string) : bool :=
  match v with
  | JStr s => (s =? lit)%string
  | _ => false
  end.

(** [Array.isArray(v)] *)
Definition isArray (v : JsVal) : bool :=
  match v with
  | JArr _ => true
  | _ => false
  end.

Definition decimal (n : Z) : string := NilZero.string_of_int (Z.to_int n).

Fixpoint join (sep : string) (parts : list string) : string :=
  match parts with
  | [] => EmptyString
  | [p] => p
  | p :: rest => p ++ sep ++ join sep rest
  end.

(** [String(v)].  An array prints its elements separated by commas, a hole
    ([null] or [undefined]) as nothing; an [Error] prints as
    [Error.prototype.toString] does. *)
Fixpoint toStr (v : JsVal) : string :=
  match v with
  | JUndefined => "undefined"
  | JNull => "null"
  | JBool true => "true"
  | JBool false => "false"
  | JNum n => decimal n
  | JStr s => s
  | JArr xs =>
      join "," (map (fun x => if nullish x then EmptyString else toStr x) xs)
  | JObj _ => "[object Object]"
  | JErr name message =>
      if (name =? EmptyString)%string then message
      else if (message =? EmptyString)%string then name
      else name ++ ": " ++ message
  end.

Definition lowerAscii (c : ascii) : ascii :=
  let n := nat_of_ascii c in
  if andb (Nat.leb 65 n) (Nat.leb n 90) then ascii_of_nat (n + 32) else c.

(** [s.toLowerCase()] on the ASCII letters.  No other character lowers to
    an ASCII letter of the five severity names, so [toSev] sees the same. *)
Fixpoint toLowerCase (s : string) : string :=
  match s with
  | EmptyString => EmptyString
  | String c rest => String (lowerAscii c) (toLowerCase rest)
  end.

(** [e?.message || String(e)]: the text of a caught exception. *)
Definition errorText (e : JsVal) : string :=
  toStr (orElse (optProp e "message") (JStr (toStr e))).

(** [String(f)] for a built-in function [f] in V8:
    [function toString() { [native code] }]. *)
Definition nativeFunction (name : string) : string :=
  "function " ++ name ++ "() { [native code] }".

(** The members every object literal inherits from [Object.prototype], each
    with the text [String] and [+] make of it: eleven functions, and
    [__proto__], which is the prototype object itself. *)
Definition objectPrototype : list (string * string) :=
  [ ("constructor", nativeFunction "Object");
    ("hasOwnProperty", nativeFunction "hasOwnProperty");
    ("isPrototypeOf", nativeFunction "isPrototypeOf");
    ("propertyIsEnumerable", nativeFunction "propertyIsEnumerable");
    ("toLocaleString", nativeFunction "toLocaleString");
    ("toString", nativeFunction "toString");
    ("valueOf", nativeFunction "valueOf");
    ("__defineGetter__", nativeFunction "__defineGetter__");
    ("__defineSetter__", nativeFunction "__defineSetter__");
    ("__lookupGetter__", nativeFunction "__lookupGetter__");
    ("__lookupSetter__", nativeFunction "__lookupSetter__");
    ("__proto__", "[object Object]") ].

Fixpoint inheritedText (k : string) (members : list (string * string)) : option string :=
  match members with
  | [] => None
  | (k', text) :: rest => if (k =? k')%string then Some text else inheritedText k rest
  end.

Definition quote : string := String (ascii_of_nat 39) EmptyString.
Definition dquote : string := String (ascii_of_nat 34) EmptyString.

(** The [TypeError] V8 raises for [v.k] when [v] is [null] or [undefined]. *)
Definition propTypeError (v : JsVal) (k : string) : JsVal :=
  JErr "TypeError"
       ("Cannot read properties of " ++ toStr v ++ " (reading " ++ quote ++ k ++ quote ++ ")").

End Js.

(* ================================================================= *)
(** ** Numbers: where the code leaves the integers *)

Module Num.

(** The binary64 number nearest to an integer. *)
Definition ofZ (n : Z) : float := SF2Prim (binary_normalize prec emax n 0 false).

(** [Math.round(x)] for a finite [x]: the nearest integer, a tie going up,
    that is the floor of [x + 1/2] taken exactly on the value [m * 2^e] of
    the float.  ([Math.round] leaves [NaN] and the infinities as they are;
    the scoring code rounds finite quotients only, and 0 stands for the
    others here.) *)
Definition Math_round (x : float) : Z :=
  match Prim2SF x with
  | S754_finite s m e =>
      let v := if s then Z.neg m else Z.pos m in
      if 0 <=? e then v * 2 ^ e
      else (2 * v + 2 ^ (- e)) / 2 ^ (1 - e)
  | _ => 0
  end.

(** [Math.round((a / b) * 100)] *)
Definition roundPercent (a b : Z) : Z :=
  Math_round (PrimFloat.mul (PrimFloat.div (ofZ a) (ofZ b)) (ofZ 100)).



(** A binary64 number above zero: [+Infinity] or a positive finite number. *)
Definition positiveFloat (x : spec_float) : Prop :=
  x = S754_infinity false
  \/ exists (m : positive) (e : Z),
       x = S754_finite false m e /\ bounded prec emax m e = true.

End Num.

(* ================================================================= *)
(** ** dist/src/utils/scoring.js *)

Module Scoring.
Import Js.

(** What [w], [maxPoints] and [earnedPoints] hold: a number, or a text once
    a member of [Object.prototype] came into the sum. *)
Inductive Points : Type :=
| PNum (n : Z)
| PText (s : string).

(** [WEIGHT[key]]: the number under one of the five keys of the literal;
    under a name the literal inherits from [Object.prototype], the member
    found there, kept as the text [+] makes of it; [None] is the [undefined]
    of every other key. *)
Definition WEIGHT (key : string) : option Points :=
  if (key =? "info")%string then Some (PNum 1)
  else if (key =? "low")%string then Some (PNum 2)
  else if (key =? "medium")%string then Some (PNum 4)
  else if (key =? "high")%string then Some (PNum 8)
  else if (key =? "critical")%string then Some (PNum 12)
  else match inheritedText key objectPrototype with
       | Some text => Some (PText text)
       | None => None
       end.

Definition WEIGHT_low : Points := PNum 2.

Definition textOf (p : Points) : string :=
  match p with
  | PNum n => decimal n
  | PText s => s
  end.

(** [a + b]: the sum of two numbers, and the concatenation as soon as one
    side is no number. *)
Definition plus (a b : Points) : Points :=
  match a, b with
  | PNum x, PNum y => PNum (x + y)
  | _, _ => PText (textOf a ++ textOf b)
  end.

Record CategoryScoreBreakdown : Type := {
  score : Z;
  maxPoints : Points;
  earnedPoints : Points
}.

(** [WEIGHT[f?.severity ?? 'low'] ?? WEIGHT.low] *)
Definition findingWeight (f : JsVal) : Points :=
  let sev := coalesce (optProp f "severity") (JStr "low") in
  match WEIGHT (toStr sev) with
  | Some w => w
  | None => WEIGHT_low
  end.

(** [f?.status === 'pass'] *)
Definition findingPassed (f : JsVal) : bool := isStr (optProp f "status") "pass".

(** One turn of the [for (const f of findings)] loop on the pair
    [(maxPoints, earnedPoints)]. *)
Definition scoreStep (acc : Points * Points) (f : JsVal) : Points * Points :=
  let '(maxP, earnedP) := acc in
  let w := findingWeight f in
  let maxP := plus maxP w in
  let earnedP := if findingPassed f then plus earnedP w else earnedP in
  (maxP, earnedP).

(** [maxPoints > 0 ? Math.round((earnedPoints / maxPoints) * 100) : 100].
    A text in [maxPoints] holds the text of a member of [Object.prototype],
    so it is no numeral: it compares as [NaN] and the score is 100.
    [earnedPoints] is a sum of some of the terms of [maxPoints], so it is a
    number when [maxPoints] is one; the branch for a text there is never
    taken (lemma [earned_is_number]). *)
Definition ratioScore (earnedP maxP : Points) : Z :=
  match maxP with
  | PNum m =>
      if 0 <? m
      then match earnedP with
           | PNum e => Num.roundPercent e m
           | PText _ => 0
           end
      else 100
  | PText _ => 100
  end.

Definition computeCategoryScore (findings : JsVal) : CategoryScoreBreakdown :=
  match findings with
  | JArr ((_ :: _) as fs) =>
      let '(maxP, earnedP) := fold_left scoreStep fs (PNum 0, PNum 0) in
      {| score := ratioScore earnedP maxP; maxPoints := maxP; earnedPoints := earnedP |}
  | _ => {| score := 100; maxPoints := PNum 0; earnedPoints := PNum 0 |}
  end.

(** The number in a [Points]. *)
Definition number (p : Points) : Z :=
  match p with
  | PNum n => n
  | PText _ => 0
  end.

(** An element of the array [computeOverallScore] receives:
    [{ score: number; _maxPoints?: number }], the numbers being integers. *)
Record CategoryWeight : Type := {
  cscore : Z;
  _maxPoints : option Z
}.

(** [Math.max(0, c._maxPoints ?? 0)] *)
Definition categoryWeight (c : CategoryWeight) : Z :=
  Z.max 0 (match _maxPoints c with Some m => m | None => 0 end).

(** One turn of the loop on the pair [(weighted, totalWeight)], two binary64
    numbers: [weighted += c.score * w; totalWeight += w] when [w > 0]. *)
Definition overallStep (acc : float * float) (c : CategoryWeight) : float * float :=
  let '(weighted, totalWeight) := acc in
  let w := categoryWeight c in
  if 0 <? w
  then (PrimFloat.add weighted (PrimFloat.mul (Num.ofZ (cscore c)) (Num.ofZ w)),
        PrimFloat.add totalWeight (Num.ofZ w))
  else (weighted, totalWeight).

(** [categories.reduce((s, c) => s + (c.score ?? 0), 0)] *)
Definition scoreTotal (categories : list CategoryWeight) : float :=
  fold_left (fun s c => PrimFloat.add s (Num.ofZ (cscore c))) categories PrimFloat.zero.

Definition computeOverallScore (categories : list CategoryWeight) : Z :=
  match categories with
  | [] => 100
  | _ :: _ =>
      let '(weighted, totalWeight) :=
        fold_left overallStep categories (PrimFloat.zero, PrimFloat.zero) in
      if PrimFloat.ltb PrimFloat.zero totalWeight
      then Num.Math_round (PrimFloat.div weighted totalWeight)
      else
        (* mean = reduce(...) / categories.length; Math.round(mean || 0) *)
        Num.Math_round
          (PrimFloat.div (scoreTotal categories)
                         (Num.ofZ (Z.of_nat (List.length categories))))
  end.

End Scoring.

(* ================================================================= *)
(** ** src/utils/helpers.ts *)

Module Helpers.

(** [export type Sev = 'info' | 'low' | 'medium' | 'high' | 'critical'] *)
Inductive Sev : Type := info | low | medium | high | critical.

(** [DEDUCT: Record<Sev, number>] *)
Definition DEDUCT (s : Sev) : Z :=
  match s with
  | info => 0
  | low => 2
  | medium => 6
  | high => 12
  | critical => 20
  end.

(** The argument type of [applyScore]: [{ status: string; severity?: Sev }]. *)
Record ScoreItem : Type := {
  status : string;
  severity : option Sev
}.

(** [n || 0] on a number. *)
Definition orZero (n : Z) : Z := if n =? 0 then 0 else n.

(** [DEDUCT[f.severity || 'info'] || 0] *)
Definition deduction (f : ScoreItem) : Z :=
  orZero (DEDUCT (match severity f with Some s => s | None => info end)).

Definition applyStep (s : Z) (f : ScoreItem) : Z :=
  if (status f =? "fail")%string then s - deduction f else s.

Definition applyScore (findings : list ScoreItem) : Z :=
  let s := fold_left applyStep findings 100 in
  Z.max 0 (Z.min 100 s).

(** *** Regular expressions, as far as [ok] uses them *)

(** A [RegExp] object: its pattern, its flags and the one field [test] and
    [exec] write to. *)
Record RegExp : Type := {
  source : string;
  flags : string;
  lastIndex : nat
}.

Definition setLastIndex (i : nat) (re : RegExp) : RegExp :=
  {| source := source re; flags := flags re; lastIndex := i |}.

(** The matcher behind [RegExp]: whether [new RegExp(source, flags)] is
    accepted, and where the match found by a search of [text] from index
    [start] ends (a sticky pattern matches at [start] only). *)
Record Engine : Type := {
  compiles : string -> string -> bool;
  search : string -> string -> string -> nat -> option nat
}.

Fixpoint hasFlag (c : ascii) (fl : string) : bool :=
  match fl with
  | EmptyString => false
  | String d rest => if Ascii.eqb c d then true else hasFlag c rest
  end.

(** [fl.replace('g', '')]: the first [g] goes. *)
Fixpoint dropFirst (c : ascii) (fl : string) : string :=
  match fl with
  | EmptyString => EmptyString
  | String d rest => if Ascii.eqb c d then rest else String d (dropFirst c rest)
  end.

Section WithEngine.
Variable E : Engine.

(** [new RegExp(source, flags)]: a fresh object, or a [SyntaxError]. *)
Definition newRegExp (src fl : string) : option RegExp :=
  if compiles E src fl
  then Some {| source := src; flags := fl; lastIndex := 0 |}
  else None.

(** [re.test(text)] (RegExpBuiltinExec): a global or sticky pattern starts
    at [lastIndex] and stores where it stopped; any other starts at 0 and
    leaves [lastIndex] alone.  The result and the object afterwards. *)
Definition test (re : RegExp) (text : string) : bool * RegExp :=
  let stateful := orb (hasFlag "g" (flags re)) (hasFlag "y" (flags re)) in
  let start := if stateful then lastIndex re else 0%nat in
  if Nat.ltb (String.length text) start then
    (false, if stateful then setLastIndex 0 re else re)
  else
    match search E (source re) (flags re) text start with
    | Some e => (true, if stateful then setLastIndex e re else re)
    | None => (false, if stateful then setLastIndex 0 re else re)
    end.

(** [ok(re, text)]; [text] is [None] for [null] and [undefined].  The
    second component is the caller's [re] after the call. *)
Definition ok (re : RegExp) (text : option string) : bool * RegExp :=
  match text with
  | None => (false, re)
  | Some t =>
      if (t =? EmptyString)%string then (false, re)
      else
        (* (re.flags || '').replace('g', '') *)
        let fl := dropFirst "g" (flags re) in
        match newRegExp (source re) fl with
        | Some safeRe => (fst (test safeRe t), re)
        | None => (false, re)   (* catch { return false } *)
        end
  end.

End WithEngine.

(** A matcher for patterns without metacharacters: the pattern is searched
    as a plain substring.  It serves to run [test] and [ok]. *)
Definition literalSearch (src fl text : string) (start : nat) : option nat :=
  if hasFlag "y" fl then
    if (substring start (String.length src) text =? src)%string
    then Some (start + String.length src)%nat else None
  else
    match index start src text with
    | Some i => Some (i + String.length src)%nat
    | None => None
    end.

Definition literalEngine : Engine :=
  {| compiles := fun _ _ => true; search := literalSearch |}.

End Helpers.

(* ================================================================= *)
(** ** Effects: exceptions and the order of the calls to the outside *)

Module Eff.
Import Js.

(** How an expression ends: with a value, or with a thrown value (a
    rejected promise under [await] is the same to [try]/[catch]). *)
Inductive Res (A : Type) : Type :=
| Ok (a : A)
| Thrown (e : JsVal).
Arguments Ok {A} a.
Arguments Thrown {A} e.

Inductive FileKind : Type := KFile | KDir | KOther.

(** The calls that leave the program, in the order they are made. *)
Inductive Event : Type :=
| EvStat (path : string)
| EvImport (specifier : string)
| EvInvoke (entryId targetDir : string)
| EvMkdir (path : string)
| EvWriteHtml (outDir : string)
| EvWriteFile (path : string).

(** A computation: the events it performed and how it ended. *)
Definition Run (A : Type) : Type := list Event * Res A.

Definition ret {A} (a : A) : Run A := ([], Ok a).

Definition throw {A} (e : JsVal) : Run A := ([], Thrown e).

Definition emit (ev : Event) : Run unit := ([ev], Ok tt).

Definition bind {A B} (m : Run A) (k : A -> Run B) : Run B :=
  match m with
  | (t1, Ok a) => let '(t2, r) := k a in ((t1 ++ t2)%list, r)
  | (t1, Thrown e) => (t1, Thrown e)
  end.

(** [try { m } catch (e) { h e }] *)
Definition tryCatch {A} (m : Run A) (h : JsVal -> Run A) : Run A :=
  match m with
  | (t1, Ok a) => (t1, Ok a)
  | (t1, Thrown e) => let '(t2, r) := h e in ((t1 ++ t2)%list, r)
  end.

Definition lift {A} (r : Res A) : Run A := ([], r).

(** [xs.push(x)] *)
Definition push {A} (xs : list A) (x : A) : list A := List.app xs [x].

(** [xs.map(f)] for an [f] that may throw: the first exception ends it. *)
Fixpoint mapRes {A B} (f : A -> Res B) (xs : list A) : Res (list B) :=
  match xs with
  | [] => Ok []
  | x :: rest =>
      match f x with
      | Thrown e => Thrown e
      | Ok y =>
          match mapRes f rest with
          | Thrown e => Thrown e
          | Ok ys => Ok (y :: ys)
          end
      end
  end.

End Eff.

Declare Scope run_scope.
Delimit Scope run_scope with run.
Notation "x <- m ;; k" := (Eff.bind m (fun x => k))
  (at level 61, m at next level, right associativity) : run_scope.
Notation "m ;;; k" := (Eff.bind m (fun _ => k))
  (at level 61, right associativity) : run_scope.

(* ================================================================= *)
(** ** dist/src/index.js: the model of findings, categories and results *)

Module Entry.
(** An element of [ANALYZERS]. *)
Record t : Type := {
  id : string;
  title : string;
  stem : string;
  fnName : string
}.
End Entry.

Module Finding.
(** A finding as [normalizeCategory] and [runAnalyzer] build it; a field
    that is [undefined] or left out is [None]. *)
Record t : Type := {
  id : string;
  title : string;
  message : string;
  suggestion : option string;
  severity : Helpers.Sev;
  status : string;
  file : option string;
  artifacts : option (list string)
}.
End Finding.

Module Category.
(** [score] and [_maxPoints] are absent until [runAudit] assigns them. *)
Record t : Type := {
  id : Js.JsVal;
  title : Js.JsVal;
  findings : list Finding.t;
  score : option Z;
  _maxPoints : option Z
}.
End Category.

Module Runner.
Import Js Eff.
Import Helpers(Sev, info, low, medium, high, critical).
Local Open Scope run_scope.

Definition mkEntry (i t s f : string) : Entry.t :=
  {| Entry.id := i; Entry.title := t; Entry.stem := s; Entry.fnName := f |}.

Definition ANALYZERS : list Entry.t :=
  [ mkEntry "structure" "Project Structure" "projectStructure" "analyzeProjectStructure";
    mkEntry "deps" "Dependencies" "dependencies" "analyzeDependencies";
    mkEntry "config" "Config" "config" "analyzeConfig";
    mkEntry "tests" "Test Quality" "testsQuality" "analyzeTestsQuality";
    mkEntry "locators" "Locator Strategy" "locators" "analyzeLocators";
    mkEntry "flakiness" "Flakiness Risks" "flakiness" "analyzeFlakiness";
    mkEntry "reporting" "Reporting & Observability" "reportingObs" "analyzeReportingObs";
    mkEntry "ci" "CI/CD Hygiene" "cicdIntegration" "analyzeCICDIntegration";
    mkEntry "network" "Network/Route Mocks" "networkMocking" "analyzeNetwork";
    mkEntry "core" "Core Functionalities" "core" "analyzeCore";
    mkEntry "advanced" "Advanced Capabilities" "advanced" "analyzeAdvanced";
    mkEntry "data" "Data Management" "dataMgmt" "analyzeDataMgmt";
    mkEntry "best" "Best Practices Enforcement" "bestPractices" "analyzeBestPractices";
    mkEntry "notify" "Notification" "notifications" "analyzeNotification" ].

Record AuditResult : Type := {
  targetDir : string;
  timestamp : string;
  categories : list Category.t;
  overallScore : Z
}.

(** [toSev(x)] *)
Definition toSev (x : JsVal) : Sev :=
  let s := toLowerCase (toStr (orElse x (JStr EmptyString))) in
  if (s =? "info")%string then info
  else if (s =? "low")%string then low
  else if (s =? "medium")%string then medium
  else if (s =? "high")%string then high
  else if (s =? "critical")%string then critical
  else low.

(** [v ? String(v) : undefined] *)
Definition optString (v : JsVal) : option string :=
  if truthy v then Some (toStr v) else None.

(** The arrow function [normalizeCategory] maps over the findings.  Reading
    [f.id] throws when [f] is [null] or [undefined]. *)
Definition normalizeFinding (f : JsVal) : Res Finding.t :=
  if nullish f then Thrown (propTypeError f "id")
  else
    let st := prop f "status" in
    Ok {| Finding.id :=
            toStr (coalesce (coalesce (prop f "id") (prop f "title")) (JStr "check"));
          Finding.title := toStr (coalesce (prop f "title") (JStr "Check"));
          Finding.message :=
            if truthy (prop f "message") then toStr (prop f "message") else EmptyString;
          Finding.suggestion := optString (prop f "suggestion");
          Finding.severity := toSev (prop f "severity");
          Finding.status :=
            if orb (isStr st "pass") (isStr st "fail") then toStr st else "fail";
          Finding.file := optString (prop f "file");
          Finding.artifacts :=
            match prop f "artifacts" with
            | JArr xs => Some (map toStr xs)
            | _ => None
            end |}.

(** [normalizeCategory(entry, out)]; [None] is its [null]. *)
Definition normalizeCategory (entry : Entry.t) (out : JsVal) : Res (option Category.t) :=
  if negb (truthy out) then Ok None
  else
    let findings := match prop out "findings" with JArr xs => xs | _ => [] end in
    match mapRes normalizeFinding findings with
    | Thrown e => Thrown e
    | Ok fs =>
        Ok (Some {| Category.id := orElse (prop out "id") (JStr (Entry.id entry));
                    Category.title := orElse (prop out "title") (JStr (Entry.title entry));
                    Category.findings := fs;
                    Category.score := None;
                    Category._maxPoints := None |})
    end.

(** *** The world outside *)

(** What calling an analyzer leads to. *)
Inductive Outcome : Type :=
| Returns (v : JsVal)        (* a value, or a promise that resolves to it *)
| ThrowsSync (e : JsVal)     (* an exception before any promise exists *)
| Rejects (e : JsVal).       (* a promise that rejects *)

Inductive Export : Type :=
| ExFunction (run : string -> Outcome)
| ExValue (v : JsVal).

(** A module namespace: its exports in the order [Object.values] lists them. *)
Definition Module_ : Type := list (string * Export).

Record World : Type := {
  (** [fs.stat(p)]: [None] when it rejects *)
  stat : string -> option FileKind;
  (** evaluating the module stored in a file *)
  load : string -> Res Module_;
  (** [fileURLToPath(import.meta.url)] and [process.cwd()] *)
  here : string;
  cwd : string;
  (** [new Date().toISOString()] *)
  now : string;
  (** [path.join], [path.resolve], [path.dirname] *)
  pathJoin : list string -> string;
  pathResolve : list string -> string;
  pathDirname : string -> string;
  (** the output step: [None] when the call succeeds, the rejection otherwise *)
  mkdir : string -> option JsVal;
  writeHtml : AuditResult -> string -> option JsVal;
  writeFile : string -> AuditResult -> option JsVal
}.

Definition newline : string := String (ascii_of_nat 10) EmptyString.
Definition bullet : string :=
  String (ascii_of_nat 226) (String (ascii_of_nat 128) (String (ascii_of_nat 162) EmptyString)).

Definition isSep (c : ascii) : bool := orb (Ascii.eqb c "/") (Ascii.eqb c "\").

(** [/[\\/]dist([\\/]|$)/.test(dir)] *)
Fixpoint isDist (dir : string) : bool :=
  match dir with
  | EmptyString => false
  | String c rest =>
      let here :=
        match rest with
        | String "d" (String "i" (String "s" (String "t" tl))) =>
            match tl with
            | EmptyString => true
            | String c' _ => isSep c'
            end
        | _ => false
        end in
      if andb (isSep c) here then true else isDist rest
  end.

Definition exts : list string := [".js"; ".mjs"; ".cjs"; ".ts"].

(** [analyzerCandidates(stem)] *)
Definition analyzerCandidates (w : World) (stem : string) : list string :=
  let dir := pathDirname w (here w) in
  let root := if isDist dir then pathResolve w [dir; ".."] else pathResolve w [dir] in
  let distAnalyzers := pathJoin w [root; "analyzers"] in
  let srcRoot := pathResolve w [root; ".."] in
  let srcAnalyzers := pathJoin w [srcRoot; "src"; "analyzers"] in
  List.app (map (fun ext => pathJoin w [distAnalyzers; stem ++ ext]) exts)
    (List.app (map (fun ext => pathJoin w [srcAnalyzers; stem ++ ext]) exts)
       (map (fun ext => pathJoin w [dir; "analyzers"; stem ++ ext]) exts)).

(** [await fs.stat(p)] *)
Definition fsStat (w : World) (p : string) : Run FileKind :=
  emit (EvStat p) ;;;
  match stat w p with
  | Some k => ret k
  | None =>
      throw (JErr "Error" ("ENOENT: no such file or directory, stat " ++ quote ++ p ++ quote))
  end.

(** [await fs.stat(p).catch(() => null)] *)
Definition statOrNull (w : World) (p : string) : Run (option FileKind) :=
  tryCatch (k <- fsStat w p ;; ret (Some k)) (fun _ => ret None).

(** [await import(spec)] of the module in file [p]: the loader finds a
    regular file or fails, then evaluates it. *)
Definition dynamicImport (w : World) (spec p : string) : Run Module_ :=
  emit (EvImport spec) ;;;
  match stat w p with
  | Some KFile => lift (load w p)
  | _ => throw (JErr "Error" ("Cannot find module " ++ quote ++ p ++ quote))
  end.

Record Imported : Type := {
  mod_ : option Module_;
  tried : list string;
  errors : list string
}.

(** One turn of the first loop: the body of its [try]. *)
Definition tryFile (w : World) (abs : string) : Run (option Module_) :=
  st <- statOrNull w abs ;;
  match st with
  | Some KFile => m <- dynamicImport w abs abs ;; ret (Some m)
  | _ => ret None
  end.

(** The first loop of [importAnalyzerModule]. *)
Fixpoint tryFiles (w : World) (cands tried errors : list string) : Run Imported :=
  match cands with
  | [] => ret {| mod_ := None; tried := tried; errors := errors |}
  | abs :: rest =>
      let tried := push tried abs in
      r <- tryCatch (m <- tryFile w abs ;; ret (inl m)) (fun e => ret (inr e)) ;;
      match r with
      | inl (Some m) => ret {| mod_ := Some m; tried := tried; errors := errors |}
      | inl None => tryFiles w rest tried errors
      | inr e => tryFiles w rest tried (push errors (abs ++ ": " ++ errorText e))
      end
  end.

(** The second loop: the specifier [./analyzers/<stem><ext>], which the
    loader resolves against the directory of the importing module. *)
Fixpoint tryBare (w : World) (stem : string) (es tried errors : list string) : Run Imported :=
  match es with
  | [] => ret {| mod_ := None; tried := tried; errors := errors |}
  | ext :: rest =>
      let rel := "./analyzers/" ++ stem ++ ext in
      let tried := push tried rel in
      let file := pathJoin w [pathDirname w (here w); "analyzers"; stem ++ ext] in
      r <- tryCatch (m <- dynamicImport w rel file ;; ret (inl m)) (fun e => ret (inr e)) ;;
      match r with
      | inl m => ret {| mod_ := Some m; tried := tried; errors := errors |}
      | inr e => tryBare w stem rest tried (push errors (rel ++ ": " ++ errorText e))
      end
  end.

(** [importAnalyzerModule(stem)] *)
Definition importAnalyzerModule (w : World) (stem : string) : Run Imported :=
  r <- tryFiles w (analyzerCandidates w stem) [] [] ;;
  match mod_ r with
  | Some _ => ret r
  | None => tryBare w stem [".js"; ".mjs"] (tried r) (errors r)
  end.

(** *** Running one analyzer *)

Fixpoint lookupExport (name : string) (m : Module_) : option Export :=
  match m with
  | [] => None
  | (n, x) :: rest => if (name =? n)%string then Some x else lookupExport name rest
  end.

(** [Object.values(mod).find((v) => typeof v === 'function')] *)
Fixpoint firstFunction (m : Module_) : option (string -> Outcome) :=
  match m with
  | [] => None
  | (_, ExFunction f) :: _ => Some f
  | (_, ExValue _) :: rest => firstFunction rest
  end.

(** [mod[entry.fnName]] when it is a function, the first exported function
    otherwise; [None] when the module exports no function. *)
Definition pickFunction (m : Module_) (name : string) : option (string -> Outcome) :=
  match lookupExport name m with
  | Some (ExFunction f) => Some f
  | _ => firstFunction m
  end.

(** A finding literal with the five fields [runAnalyzer] writes. *)
Definition issue (i t msg : string) : Finding.t :=
  {| Finding.id := i; Finding.title := t; Finding.message := msg;
     Finding.suggestion := None; Finding.severity := high; Finding.status := "fail";
     Finding.file := None; Finding.artifacts := None |}.

Definition loadIssueFinding (entry : Entry.t) (tried errors : list string) : Finding.t :=
  let msg :=
    "Module not found for analyzer " ++ dquote ++ Entry.title entry ++ dquote
    ++ " (stem=" ++ dquote ++ Entry.stem entry ++ dquote ++ "). Tried:" ++ newline
    ++ join newline (map (fun p => bullet ++ " " ++ p) tried) in
  let hint :=
    match errors with
    | [] => EmptyString
    | _ :: _ => newline ++ "Errors:" ++ newline ++ join newline (map (fun e => "- " ++ e) errors)
    end in
  issue ("load-" ++ Entry.id entry) ("Analyzer not loaded: " ++ Entry.title entry) (msg ++ hint).

Definition noFnFinding (entry : Entry.t) : Finding.t :=
  issue ("no-fn-" ++ Entry.id entry) ("Analyzer export missing: " ++ Entry.title entry)
        ("Module loaded but export " ++ dquote ++ Entry.fnName entry ++ dquote ++ " not found.").

(** The category the [catch] of [runAnalyzer] returns; the message is the
    text of the exception, [e?.message || String(e)]. *)
Definition errorCategory (entry : Entry.t) (e : JsVal) : Category.t :=
  {| Category.id := JStr (Entry.id entry);
     Category.title := JStr (Entry.title entry);
     Category.findings := [issue "analyzer-error" "Analyzer failed" (errorText e)];
     Category.score := None;
     Category._maxPoints := None |}.

(** [await fn(targetDir)] *)
Definition invoke (w : World) (entry : Entry.t) (fn : string -> Outcome) (targetDir : string)
  : Run JsVal :=
  emit (EvInvoke (Entry.id entry) targetDir) ;;;
  match fn targetDir with
  | Returns v => ret v
  | ThrowsSync e => throw e
  | Rejects e => throw e
  end.

(** What [runAnalyzer] returns: [{ cat, loadIssue }]. *)
Record Ran : Type := {
  cat : option Category.t;
  loadIssue : option Finding.t
}.

(** [runAnalyzer(entry, targetDir)] *)
Definition runAnalyzer (w : World) (entry : Entry.t) (targetDir : string) : Run Ran :=
  r <- importAnalyzerModule w (Entry.stem entry) ;;
  match mod_ r with
  | None =>
      ret {| cat := None;
             loadIssue := Some (loadIssueFinding entry (tried r) (errors r)) |}
  | Some m =>
      tryCatch
        (match pickFunction m (Entry.fnName entry) with
         | None => ret {| cat := None; loadIssue := Some (noFnFinding entry) |}
         | Some fn =>
             out <- invoke w entry fn targetDir ;;
             normalized <- lift (normalizeCategory entry out) ;;
             ret {| cat := normalized; loadIssue := None |}
         end)
        (fun e => ret {| cat := Some (errorCategory entry e); loadIssue := None |})
  end.

(** *** The audit *)

Definition sevName (s : Sev) : string :=
  match s with
  | info => "info"
  | low => "low"
  | medium => "medium"
  | high => "high"
  | critical => "critical"
  end.

Definition optJs (o : option string) : JsVal :=
  match o with
  | Some s => JStr s
  | None => JUndefined
  end.

(** A finding of a category as the object the scoring functions read. *)
Definition findingToJs (f : Finding.t) : JsVal :=
  JObj [ ("id", JStr (Finding.id f));
         ("title", JStr (Finding.title f));
         ("message", JStr (Finding.message f));
         ("suggestion", optJs (Finding.suggestion f));
         ("severity", JStr (sevName (Finding.severity f)));
         ("status", JStr (Finding.status f));
         ("file", optJs (Finding.file f));
         ("artifacts",
           match Finding.artifacts f with
           | Some xs => JArr (map JStr xs)
           | None => JUndefined
           end) ].

(** The body of [for (const c of cats)]: [c.score] and [c._maxPoints] are set.
    The findings of a category went through [toSev], their severity is one of
    the five names, and [maxPoints] is a number (lemma
    [maxPoints_of_category]). *)
Definition scoreCategory (c : Category.t) : Category.t :=
  let b := Scoring.computeCategoryScore (JArr (map findingToJs (Category.findings c))) in
  {| Category.id := Category.id c;
     Category.title := Category.title c;
     Category.findings := Category.findings c;
     Category.score := Some (Scoring.score b);
     Category._maxPoints := Some (Scoring.number (Scoring.maxPoints b)) |}.

(** [n || 0] for a field that may be absent. *)
Definition numOrZero (o : option Z) : Z :=
  match o with
  | Some n => Helpers.orZero n
  | None => 0
  end.

(** [{ score: c.score || 0, _maxPoints: c._maxPoints || 0 }] *)
Definition weightOf (c : Category.t) : Scoring.CategoryWeight :=
  {| Scoring.cscore := numOrZero (Category.score c);
     Scoring._maxPoints := Some (numOrZero (Category._maxPoints c)) |}.

Definition loadCategory (loadIssues : list Finding.t) : Category.t :=
  {| Category.id := JStr "analyzer-load";
     Category.title := JStr "Analyzer Load Issues";
     Category.findings := loadIssues;
     Category.score := None;
     Category._maxPoints := None |}.

(** [options] of [runAudit]; an absent field is [None]. *)
Record RunOptions : Type := {
  outDir : option string;
  optWriteHtml : option bool;
  optWriteJson : option bool
}.

(** The loop over the registry. *)
Fixpoint runAll (w : World) (entries : list Entry.t) (targetDir : string)
  (cats : list Category.t) (loadIssues : list Finding.t)
  : Run (list Category.t * list Finding.t) :=
  match entries with
  | [] => ret (cats, loadIssues)
  | entry :: rest =>
      r <- runAnalyzer w entry targetDir ;;
      let cats := match cat r with Some c => push cats c | None => cats end in
      let loadIssues := match loadIssue r with Some i => push loadIssues i | None => loadIssues end in
      runAll w rest targetDir cats loadIssues
  end.

(** An awaited call of the output step. *)
Definition output (ev : Event) (outcome : option JsVal) : Run unit :=
  emit ev ;;;
  match outcome with
  | None => ret tt
  | Some e => throw e
  end.

(** [runAudit(targetDir, options)] over a registry. *)
Definition runAuditWith (registry : list Entry.t) (w : World) (target : string)
  (options : RunOptions) : Run AuditResult :=
  let out :=
    match outDir options with
    | Some d => if (d =? EmptyString)%string then pathResolve w [cwd w; "audit-report"] else d
    | None => pathResolve w [cwd w; "audit-report"]
    end in
  st <- statOrNull w target ;;
  match st with
  | Some KDir =>
      acc <- runAll w registry target [] [] ;;
      let '(cats, loadIssues) := acc in
      let cats :=
        match loadIssues with
        | [] => cats
        | _ :: _ => loadCategory loadIssues :: cats     (* cats.unshift(...) *)
        end in
      let cats := map scoreCategory cats in
      let overall := Scoring.computeOverallScore (map weightOf cats) in
      let result :=
        {| targetDir := pathResolve w [target];
           timestamp := now w;
           categories := cats;
           overallScore := overall |} in
      output (EvMkdir out) (mkdir w out) ;;;
      (match optWriteHtml options with
       | Some false => ret tt
       | _ => output (EvWriteHtml out) (writeHtml w result out)
       end) ;;;
      (match optWriteJson options with
       | Some true =>
           let file := pathJoin w [out; "report.json"] in
           output (EvWriteFile file) (writeFile w file result)
       | _ => ret tt
       end) ;;;
      ret result
  | _ => throw (JErr "Error" ("Target directory not found: " ++ target))
  end.

(** [runAudit]: the registry is the constant [ANALYZERS]. *)
Definition runAudit : World -> string -> RunOptions -> Run AuditResult :=
  runAuditWith ANALYZERS.

End Runner.

(* ================================================================= *)
(** ** Vocabulary of the properties *)

Module Spec.
Import Js Eff Runner.
Import Helpers(Sev, info, low, medium, high, critical).

(** The sum of [f] over a list. *)
Definition sumBy {A} (f : A -> Z) (xs : list A) : Z :=
  fold_right (fun x acc => f x + acc) 0 xs.

(** The weight of each severity in the pass-ratio score. *)
Definition weight (s : Sev) : Z :=
  match s with
  | info => 1
  | low => 2
  | medium => 4
  | high => 8
  | critical => 12
  end.

(** The object [{ severity, status }]. *)
Definition finding (sev st : string) : JsVal :=
  JObj [("severity", JStr sev); ("status", JStr st)].

(** The findings whose [severity] and [status] are the given ones, the
    severity being one of the five. *)
Definition typedFindings (xs : list (Sev * string)) : list JsVal :=
  map (fun x => finding (sevName (fst x)) (snd x)) xs.

(** What such a finding earns: its weight when it passed, nothing otherwise. *)
Definition earnedOf (x : Sev * string) : Z :=
  if (snd x =? "pass")%string then weight (fst x) else 0.

(** A finding whose weight is a number: its severity names no member of
    [Object.prototype]. *)
Definition numeric (f : JsVal) : bool :=
  match Scoring.findingWeight f with
  | Scoring.PNum _ => true
  | Scoring.PText _ => false
  end.

(** The number a finding weighs. *)
Definition weighs (f : JsVal) : Z := Scoring.number (Scoring.findingWeight f).

(** What a finding earns: its weight when it passed, nothing otherwise. *)
Definition earned (f : JsVal) : Z :=
  if Scoring.findingPassed f then weighs f else 0.

(** The integer nearest to [a / b], a tie going up: the floor of
    [a / b + 1/2], for [b > 0]. *)
Definition roundHalfUp (a b : Z) : Z := (2 * a + b) / (2 * b).




(** [c._maxPoints ?? 0] *)
Definition maxPointsOf (c : Scoring.CategoryWeight) : Z :=
  match Scoring._maxPoints c with
  | Some m => m
  | None => 0
  end.

Definition category (sc mp : Z) : Scoring.CategoryWeight :=
  {| Scoring.cscore := sc; Scoring._maxPoints := Some mp |}.

(** What a failed finding costs in [applyScore]. *)
Definition cost (f : Helpers.ScoreItem) : Z :=
  if (Helpers.status f =? "fail")%string
  then Helpers.DEDUCT (match Helpers.severity f with Some s => s | None => info end)
  else 0.

(** What [runAnalyzer] returns for an entry. *)
Definition ranOf (w : World) (target : string) (entry : Entry.t) : Ran :=
  match snd (runAnalyzer w entry target) with
  | Ok r => r
  | Thrown _ => {| cat := None; loadIssue := None |}
  end.

Definition optList {A} (o : option A) : list A :=
  match o with
  | Some a => [a]
  | None => []
  end.

(** The categories and the load issues a registry yields, in its order. *)
Definition catsOf (w : World) (target : string) (registry : list Entry.t) : list Category.t :=
  flat_map (fun e => optList (cat (ranOf w target e))) registry.

Definition issuesOf (w : World) (target : string) (registry : list Entry.t) : list Finding.t :=
  flat_map (fun e => optList (loadIssue (ranOf w target e))) registry.

(** The category list before scoring: the load issues, if any, in front. *)
Definition assembled (w : World) (target : string) (registry : list Entry.t) : list Category.t :=
  match issuesOf w target registry with
  | [] => catsOf w target registry
  | _ :: _ => loadCategory (issuesOf w target registry) :: catsOf w target registry
  end.

(** The result [runAudit] builds before it writes the reports. *)
Definition resultOf (registry : list Entry.t) (w : World) (target : string) : AuditResult :=
  let cats := map scoreCategory (assembled w target registry) in
  {| targetDir := pathResolve w [target];
     timestamp := now w;
     categories := cats;
     overallScore := Scoring.computeOverallScore (map weightOf cats) |}.

(** The output directory [runAudit] uses. *)
Definition outDirOf (w : World) (options : RunOptions) : string :=
  match outDir options with
  | Some d => if (d =? EmptyString)%string then pathResolve w [cwd w; "audit-report"] else d
  | None => pathResolve w [cwd w; "audit-report"]
  end.

(** The first call of the output step that fails, if one does. *)
Definition outputFailure (w : World) (options : RunOptions) (r : AuditResult) : option JsVal :=
  let out := outDirOf w options in
  match mkdir w out with
  | Some e => Some e
  | None =>
      match (match optWriteHtml options with
             | Some false => None
             | _ => writeHtml w r out
             end) with
      | Some e => Some e
      | None =>
          match optWriteJson options with
          | Some true => writeFile w (pathJoin w [out; "report.json"]) r
          | _ => None
          end
      end
  end.


(** The category an analyzer's own outcome leads to ([None]: no category). *)
Definition categoryOf (entry : Entry.t) (oc : Outcome) : option Category.t :=
  match oc with
  | Returns v =>
      match normalizeCategory entry v with
      | Ok c => c
      | Thrown e => Some (errorCategory entry e)
      end
  | ThrowsSync e => Some (errorCategory entry e)
  | Rejects e => Some (errorCategory entry e)
  end.

(** The value of [runAnalyzer], read off the imported module. *)
Definition ranFrom (entry : Entry.t) (target : string) (r : Imported) : Ran :=
  match mod_ r with
  | None =>
      {| cat := None; loadIssue := Some (loadIssueFinding entry (tried r) (errors r)) |}
  | Some m =>
      match pickFunction m (Entry.fnName entry) with
      | None => {| cat := None; loadIssue := Some (noFnFinding entry) |}
      | Some fn => {| cat := categoryOf entry (fn target); loadIssue := None |}
      end
  end.







(** An analyzer that fails when invoked. *)
Definition failing (oc : Outcome) : option JsVal :=
  match oc with
  | Returns _ => None
  | ThrowsSync e => Some e
  | Rejects e => Some e
  end.


End Spec.

(* ================================================================= *)
(** ** A small world to run the model in *)

Module Demo.
Import Js Eff Runner.

Fixpoint beforeLastSlash (s : string) : option string :=
  match s with
  | EmptyString => None
  | String c rest =>
      match beforeLastSlash rest with
      | Some p => Some (String c p)
      | None => if Ascii.eqb c "/" then Some EmptyString else None
      end
  end.

Definition dirname (s : string) : string :=
  match beforeLastSlash s with
  | Some EmptyString => "/"
  | Some p => p
  | None => "."
  end.

Definition joinPath (parts : list string) : string := join "/" parts.

Definition resolveStep (acc part : string) : string :=
  if (part =? "..")%string then dirname acc
  else match part with
       | String "/" _ => part
       | _ => acc ++ "/" ++ part
       end.

Definition resolvePath (base : string) (parts : list string) : string :=
  fold_left resolveStep parts base.

(** A world with the program in [/app/dist/src/index.js], the audited
    project in [/proj], the given module files, and a working output step. *)
Definition world (files : list (string * Res Module_)) : World :=
  {| stat := fun p =>
       if (p =? "/proj")%string then Some KDir
       else if existsb (fun f => (fst f =? p)%string) files then Some KFile
       else None;
     load := fun p =>
       match find (fun f => (fst f =? p)%string) files with
       | Some f => snd f
       | None => Thrown (JErr "Error" "unreadable")
       end;
     here := "/app/dist/src/index.js";
     cwd := "/work";
     now := "2025-01-01T00:00:00.000Z";
     pathJoin := joinPath;
     pathResolve := resolvePath "/work";
     pathDirname := dirname;
     mkdir := fun _ => None;
     writeHtml := fun _ _ => None;
     writeFile := fun _ _ => None |}.


Definition noOptions : RunOptions :=
  {| outDir := None; optWriteHtml := None; optWriteJson := None |}.

(** The compiled analyzer of an entry, a module with one exported function. *)
Definition analyzerFile (entry : Entry.t) (run : string -> Outcome) : string * Res Module_ :=
  ("/app/dist/src/analyzers/" ++ Entry.stem entry ++ ".js",
   Ok [(Entry.fnName entry, ExFunction run)]).

(** Every analyzer of the registry is there and returns [undefined]. *)
Definition silentWorld : World :=
  world (map (fun e => analyzerFile e (fun _ => Returns JUndefined)) ANALYZERS).

Definition configEntry : Entry.t := mkEntry "config" "Config" "config" "analyzeConfig".
Definition depsEntry : Entry.t := mkEntry "deps" "Dependencies" "dependencies" "analyzeDependencies".
Definition coreEntry : Entry.t := mkEntry "core" "Core Functionalities" "core" "analyzeCore".

Definition sampleOutput : JsVal :=
  JObj [("id", JStr "config");
        ("title", JStr "Config");
        ("findings",
          JArr [ JObj [("id", JStr "cfg-retries"); ("title", JStr "Retries");
                       ("severity", JStr "critical"); ("status", JStr "fail")];
                 JObj [("title", JStr "Trace"); ("severity", JStr "info");
                       ("status", JStr "pass")] ])].


Definition mixedWorld : World :=
  world [ analyzerFile configEntry (fun _ => Returns sampleOutput);
          analyzerFile depsEntry (fun _ => ThrowsSync (JErr "TypeError" "cfg is not iterable"));
          analyzerFile coreEntry (fun _ => Rejects (JErr "Error" "ENOENT: package.json")) ].


End Demo.

(* ================================================================= *)
(** ** src/utils/helpers.ts: cached file access and directory walks *)

Module Files.
Import Eff.

(** A [Map<string, V>] as far as [has], [get] and [set] go: [set] hides an
    earlier entry of the same key. *)
Definition Map (V : Type) : Type := list (string * V).

Fixpoint mapGet {V} (m : Map V) (k : string) : option V :=
  match m with
  | [] => None
  | (k', v) :: rest => if (k =? k')%string then Some v else mapGet rest k
  end.

Definition mapSet {V} (m : Map V) (k : string) (v : V) : Map V := (k, v) :: m.

(** The two module-level caches. *)
Record Caches : Type := {
  statCache : Map bool;
  fileCache : Map string
}.

Definition noCaches : Caches := {| statCache := []; fileCache := [] |}.

(** What the helpers ask of the platform: [fs.stat] and [fs.readFile]
    ([None] when the promise rejects), the decoding of what was read, and
    [path.join] and [path.isAbsolute]. *)
Record Disk : Type := {
  diskStat : string -> option FileKind;
  diskRead : string -> option string;
  decode : string -> string -> string;
  join : list string -> string;
  isAbsolute : string -> bool
}.

Inductive Access : Type :=
| DidStat (path : string)
| DidRead (path : string).

(** A helper that may read and write the caches: the file system calls it
    made, its result, and the caches afterwards. *)
Definition Cached (A : Type) : Type := Caches -> list Access * A * Caches.

(** [exists(p)] *)
Definition exists_ (d : Disk) (p : string) : Cached bool :=
  fun c =>
    match mapGet (statCache c) p with
    | Some b => ([], b, c)
    | None =>
        let found :=
          match diskStat d p with
          | Some KFile | Some KDir => true      (* s.isFile() || s.isDirectory() *)
          | Some KOther => false
          | None => false                        (* catch *)
          end in
        ([DidStat p], found,
         {| statCache := mapSet (statCache c) p found; fileCache := fileCache c |})
    end.

(** [readFile(p, encoding)]; [p] is [None] for [undefined]. *)
Definition readFile (d : Disk) (p : option string) (encoding : string) : Cached string :=
  fun c =>
    match p with
    | None => ([], EmptyString, c)
    | Some path =>
        if (path =? EmptyString)%string then ([], EmptyString, c)
        else
          match mapGet (fileCache c) path with
          | Some text => ([], text, c)
          | None =>
              let text :=
                match diskRead d path with
                | Some data => decode d encoding data
                | None => EmptyString            (* catch *)
                end in
              ([DidRead path], text,
               {| statCache := statCache c; fileCache := mapSet (fileCache c) path text |})
          end
    end.

(** [readIfExists(p)] *)
Definition readIfExists (d : Disk) (p : string) : Cached string :=
  fun c =>
    let '(ev1, found, c1) := exists_ d p c in
    if found then
      let '(ev2, text, c2) := readFile d (Some p) "utf8" c1 in
      (List.app ev1 ev2, text, c2)
    else (ev1, EmptyString, c1).

(** [firstExisting(root, candidates)] *)
Fixpoint firstExisting (d : Disk) (root : string) (candidates : list string) : Cached (option string) :=
  fun c =>
    match candidates with
    | [] => ([], None, c)
    | x :: rest =>
        let p := if isAbsolute d x then x else join d [root; x] in
        let '(ev1, found, c1) := exists_ d p c in
        if found then (ev1, Some p, c1)
        else
          let '(ev2, r, c2) := firstExisting d root rest c1 in
          (List.app ev1 ev2, r, c2)
    end.

(** [findConfig(root, candidates)] *)
Definition findConfig (d : Disk) (root : string) (candidates : list string) : Cached (option string) :=
  firstExisting d root candidates.

(** [fileExistsAny(root, rels)] *)
Fixpoint fileExistsAny (d : Disk) (root : string) (rels : list string) : Cached (option string) :=
  fun c =>
    match rels with
    | [] => ([], None, c)
    | r :: rest =>
        let p := join d [root; r] in
        let '(ev1, found, c1) := exists_ d p c in
        if found then (ev1, Some p, c1)
        else
          let '(ev2, res, c2) := fileExistsAny d root rest c1 in
          (List.app ev1 ev2, res, c2)
    end.

(** *** Directory walks *)

(** What [fs.readdir(dir, { withFileTypes: true })] shows below a directory:
    an entry is a directory, with its own listing ([None] when reading it
    rejects), or anything else, which the walks take for a file. *)
#[warnings="-register-all"]
Inductive Dirent : Type :=
| FileEnt (name : string)
| DirEnt (name : string) (listing : option (list Dirent)).

(** [await fs.readdir(...).catch(() => [])] *)
Definition entries (listing : option (list Dirent)) : list Dirent :=
  match listing with
  | Some ents => ents
  | None => []
  end.

Section Loop.
Variable S : Type.
Variable count : S -> nat.               (* [out.length] *)
Variable visit : Dirent -> S -> S.       (* the branches on [e.isDirectory()] *)
Variable limit : nat.

(** [for (const e of ents) { ...; if (out.length >= limit) break; }] *)
Fixpoint walkLoop (ents : list Dirent) (st : S) : S :=
  match ents with
  | [] => st
  | e :: rest =>
      let st := visit e st in
      if Nat.leb limit (count st) then st else walkLoop rest st
  end.
End Loop.

(** The body of the loop of [walk] for one entry of [dir]. *)
Fixpoint walkEntry (pjoin : list string -> string) (limit : nat) (dir : string)
  (e : Dirent) (out : list string) {struct e} : list string :=
  match e with
  | FileEnt name => push out (pjoin [dir; name])
  | DirEnt name listing =>
      if Nat.ltb (List.length out) limit
      then
        match listing with
        | Some ents =>
            walkLoop (list string) (@List.length string)
                     (walkEntry pjoin limit (pjoin [dir; name])) limit ents out
        | None => out                      (* the loop over the [[]] of [catch] *)
        end
      else out
  end.

(** [walk(dir, limit, out)], given what [readdir] shows of [dir]. *)
Definition walk (pjoin : list string -> string) (dir : string)
  (listing : option (list Dirent)) (limit : nat) (out : list string) : list string :=
  walkLoop (list string) (@List.length string) (walkEntry pjoin limit dir) limit
           (entries listing) out.

(** The body of the loop of the inner [walk] of [walkFiles] for one entry:
    the state is the [exts] object and [out]. *)
Fixpoint walkFilesEntry (E : Helpers.Engine) (pjoin : list string -> string) (limit : nat)
  (dir : string) (e : Dirent) (st : Helpers.RegExp * list string) {struct e}
  : Helpers.RegExp * list string :=
  match e with
  | FileEnt name =>
      let p := pjoin [dir; name] in
      let '(hit, exts) := Helpers.test E (fst st) p in
      if hit then (exts, push (snd st) p) else (exts, snd st)
  | DirEnt name listing =>
      if Nat.ltb (List.length (snd st)) limit
      then
        match listing with
        | Some ents =>
            walkLoop (Helpers.RegExp * list string) (fun s => List.length (snd s))
                     (walkFilesEntry E pjoin limit (pjoin [dir; name])) limit ents st
        | None => st                       (* the loop over the [[]] of [catch] *)
        end
      else st
  end.

(** [walkFiles(root, { exts, limit })], given what [readdir] shows of
    [root]; the [exts] object afterwards comes with the result. *)
Definition walkFiles (E : Helpers.Engine) (d : Disk) (root : string)
  (listing : option (list Dirent)) (exts : Helpers.RegExp) (limit : nat)
  : Cached (Helpers.RegExp * list string) :=
  fun c =>
    let '(ev, rootExists, c1) := exists_ d root c in
    if rootExists then
      (ev,
       walkLoop (Helpers.RegExp * list string) (fun s => List.length (snd s))
                (walkFilesEntry E (join d) limit root) limit (entries listing) (exts, []),
       c1)
    else (ev, (exts, []), c1).

(** The files below an entry, in the order a depth-first walk meets them. *)
Fixpoint filesOf (pjoin : list string -> string) (dir : string) (e : Dirent) : list string :=
  match e with
  | FileEnt name => [pjoin [dir; name]]
  | DirEnt name listing =>
      match listing with
      | Some ents => flat_map (filesOf pjoin (pjoin [dir; name])) ents
      | None => []
      end
  end.

Definition filesUnder (pjoin : list string -> string) (dir : string)
  (listing : option (list Dirent)) : list string :=
  flat_map (filesOf pjoin dir) (entries listing).

(** A cache that says of a path what the disk says. *)
Definition onDisk (d : Disk) (p : string) : bool :=
  match diskStat d p with
  | Some KFile | Some KDir => true
  | _ => false
  end.

Definition coherent (d : Disk) (c : Caches) : Prop :=
  forall p b, mapGet (statCache c) p = Some b -> b = onDisk d p.

(** A pattern whose [test] does not depend on [lastIndex]. *)
Definition stateless (re : Helpers.RegExp) : bool :=
  negb (orb (Helpers.hasFlag "g" (Helpers.flags re)) (Helpers.hasFlag "y" (Helpers.flags re))).

(** The pattern matches somewhere in the text. *)
Definition matches (E : Helpers.Engine) (re : Helpers.RegExp) (text : string) : bool :=
  match Helpers.search E (Helpers.source re) (Helpers.flags re) text 0 with
  | Some _ => true
  | None => false
  end.

End Files.

(* ================================================================= *)
(** ** A small disk to run the helpers on *)

Module FilesDemo.
Import Eff Files.

Definition startsWithSlash (p : string) : bool :=
  match p with
  | String "/" _ => true
  | _ => false
  end.

(** A disk with the given files (path and content) and directories. *)
Definition disk (files : list (string * string)) (dirs : list string) : Disk :=
  {| diskStat := fun p =>
       if existsb (fun f => (fst f =? p)%string) files then Some KFile
       else if existsb (fun q => (q =? p)%string) dirs then Some KDir
       else None;
     diskRead := fun p =>
       match find (fun f => (fst f =? p)%string) files with
       | Some f => Some (snd f)
       | None => None
       end;
     decode := fun _ data => data;
     join := Demo.joinPath;
     isAbsolute := startsWithSlash |}.

Definition projectDisk : Disk :=
  disk [("/proj/playwright.config.js", "export default {}");
        ("/proj/package.json", "{}")]
       ["/proj"; "/proj/tests"].

(** [tests/] with two specs, a helper directory and an unreadable one. *)
Definition testsTree : option (list Dirent) :=
  Some [ FileEnt "a.spec.ts";
         DirEnt "helpers" (Some [FileEnt "util.ts"; FileEnt "notes.md"]);
         DirEnt "locked" None;
         FileEnt "b.spec.ts" ].

Definition codeFile : Helpers.RegExp :=
  {| Helpers.source := ".ts"; Helpers.flags := "i"; Helpers.lastIndex := 0 |}.

End FilesDemo.

(* ================================================================= *)
(** ** src/utils/helpers.ts: package.json helpers *)

Module Pkg.

(** A [Record<string, string>]: its own properties in their order. *)
Definition Dict : Type := list (string * string).

(** The own property [k] of [obj], if it has one. *)
Fixpoint get (obj : Dict) (k : string) : option string :=
  match obj with
  | [] => None
  | (k', v) :: rest => if (k =? k')%string then Some v else get rest k
  end.

(** [obj[k] = v]: an existing property keeps its place, a new one goes last. *)
Fixpoint set (obj : Dict) (k v : string) : Dict :=
  match obj with
  | [] => [(k, v)]
  | (k', v') :: rest =>
      if (k =? k')%string then (k', v) :: rest else (k', v') :: set rest k v
  end.

(** [{ ...a, ...b }]: the properties of [b] are copied over those of [a]. *)
Definition spread (a b : Dict) : Dict :=
  fold_left (fun acc kv => set acc (fst kv) (snd kv)) b a.

(** The fields of [PkgJson] these helpers read. *)
Record PkgJson : Type := {
  dependencies : option Dict;
  devDependencies : option Dict;
  scripts : option Dict
}.

(** [obj || {}] *)
Definition orEmpty (o : option Dict) : Dict :=
  match o with
  | Some d => d
  | None => []
  end.

(** The properties every object inherits from [Object.prototype]: eleven
    functions and [__proto__], none of them [null] or [undefined]. *)
Definition inherited : list string :=
  [ "constructor"; "hasOwnProperty"; "isPrototypeOf"; "propertyIsEnumerable";
    "toLocaleString"; "toString"; "valueOf"; "__defineGetter__"; "__defineSetter__";
    "__lookupGetter__"; "__lookupSetter__"; "__proto__" ].

Definition isInherited (k : string) : bool := existsb (String.eqb k) inherited.

(** What [obj[k]] gives on an object literal: an own property, an inherited
    one, or [undefined]. *)
Inductive Looked : Type :=
| Own (v : string)
| Inherited
| Undefined.

(** [obj[k]] *)
Definition lookup (obj : Dict) (k : string) : Looked :=
  match get obj k with
  | Some v => Own v
  | None => if isInherited k then Inherited else Undefined
  end.

(** [v != null] *)
Definition notNull (v : Looked) : bool :=
  match v with
  | Undefined => false
  | _ => true
  end.

(** [inDeps(pkg, names)] *)
Definition inDeps (pkg : option PkgJson) (names : list string) : bool :=
  match pkg with
  | None => false
  | Some p =>
      let deps := spread (spread [] (orEmpty (dependencies p))) (orEmpty (devDependencies p)) in
      existsb (fun n => notNull (lookup deps n)) names
  end.

(** [hasAny(obj)] *)
Definition hasAny (obj : option Dict) : bool :=
  match obj with
  | Some (_ :: _) => true
  | _ => false
  end.

(** [depMap(pkg)] *)
Definition depMap (pkg : PkgJson) : Dict :=
  spread (spread [] (orEmpty (dependencies pkg))) (orEmpty (devDependencies pkg)).

(** [getVersion(allDeps, name)] *)
Definition getVersion (allDeps : Dict) (name : string) : Looked := lookup allDeps name.

(** [hasDep(allDeps, name)]: [!!] of a string is false for the empty one,
    and true of a function or an object. *)
Definition hasDep (allDeps : Dict) (name : string) : bool :=
  match getVersion allDeps name with
  | Own v => negb (v =? EmptyString)%string
  | Inherited => true
  | Undefined => false
  end.

Definition isDigit (c : ascii) : bool :=
  let n := nat_of_ascii c in andb (Nat.leb 48 n) (Nat.leb n 57).

(** [\d+$]: one digit or more, up to the end. *)
Fixpoint digitsToEnd (s : string) : bool :=
  match s with
  | EmptyString => false
  | String c EmptyString => isDigit c
  | String c rest => andb (isDigit c) (digitsToEnd rest)
  end.

(** [^\d+\.\d+$], read from the left; [seen] says a digit was read. *)
Fixpoint majorMinor (seen : bool) (s : string) : bool :=
  match s with
  | EmptyString => false
  | String c rest =>
      if isDigit c then majorMinor true rest
      else if Ascii.eqb c "." then andb seen (digitsToEnd rest)
      else false
  end.

(** [looksFloating(v)]; [None] is the [undefined] the default [''] stands
    in for. *)
Definition looksFloating (v : option string) : bool :=
  let v := match v with Some s => s | None => EmptyString end in
  orb (v =? "latest")%string (orb (v =? "*")%string (majorMinor false v)).

(** A non-empty string of digits. *)
Definition digits (s : string) : Prop :=
  s <> EmptyString /\ forall c, In c (list_ascii_of_string s) -> isDigit c = true.

End Pkg.

(* ================================================================= *)
(** ** src/utils/helpers.ts: ids, categories and findings *)

Module Findings.
Import Js.

(** [\w] *)
Definition isWord (c : ascii) : bool :=
  let n := nat_of_ascii c in
  orb (andb (Nat.leb 48 n) (Nat.leb n 57))
      (orb (andb (Nat.leb 65 n) (Nat.leb n 90))
           (orb (andb (Nat.leb 97 n) (Nat.leb n 122)) (Nat.eqb n 95))).

(** [s.replace(/\W+/g, '-')]: every run of characters that are no letter,
    digit or underscore becomes one dash; [inRun] says the character before
    was part of such a run. *)
Fixpoint dashRuns (inRun : bool) (s : string) : string :=
  match s with
  | EmptyString => EmptyString
  | String c rest =>
      if isWord c then String c (dashRuns false rest)
      else if inRun then dashRuns true rest
      else String "-" (dashRuns true rest)
  end.

(** [title.toLowerCase().replace(/\W+/g, '-')] *)
Definition slug (title : string) : string := dashRuns false (toLowerCase title).

(** [makeId(title)] *)
Definition makeId (title : string) : string := "data-" ++ slug title.

(** [msg(ok)] *)
Definition msg (ok : bool) : string := if ok then "Configured" else "Not configured".

(** [CategoryResult] *)
Record CategoryResult : Type := {
  id : string;
  title : string;
  findings : list Finding.t;
  score : Z
}.

(** [createCategory(id, title)] *)
Definition createCategory (i t : string) : CategoryResult :=
  {| id := i; title := t; findings := []; score := 0 |}.

(** The argument of [addFinding].  The analyzers pass a boolean for
    [status], so it is any value here; an absent field is [None]. *)
Record NewFinding : Type := {
  newId : option string;
  newTitle : string;
  newMessage : option string;
  newSeverity : Helpers.Sev;
  newStatus : JsVal;
  newSuggestion : option string;
  newFile : option string;
  newArtifacts : option (list string)
}.

(** The object [addFinding] pushes. *)
Definition recorded (f : NewFinding) : Finding.t :=
  {| Finding.id :=
       match newId f with
       | Some i => i
       | None => "deps-" ++ slug (newTitle f)
       end;
     Finding.title := newTitle f;
     Finding.message :=
       match newMessage f with
       | Some m => m
       | None => if truthy (newStatus f) then "Configured" else "Not configured"
       end;
     Finding.suggestion := newSuggestion f;
     Finding.severity := newSeverity f;
     Finding.status := if truthy (newStatus f) then "pass" else "fail";
     Finding.file := newFile f;
     Finding.artifacts :=
       (* (f.artifacts || []).filter(Boolean) *)
       Some (filter (fun a => negb (a =? EmptyString)%string)
                    (match newArtifacts f with Some xs => xs | None => [] end)) |}.

(** [addFinding(cat, f)]: the category after the call. *)
Definition addFinding (cat : CategoryResult) (f : NewFinding) : CategoryResult :=
  {| id := id cat; title := title cat;
     findings := Eff.push (findings cat) (recorded f);
     score := score cat |}.

(** A finding as [applyScore] reads it. *)
Definition scoreItem (f : Finding.t) : Helpers.ScoreItem :=
  {| Helpers.status := Finding.status f; Helpers.severity := Some (Finding.severity f) |}.

(** [cat.score = applyScore(cat.findings)], the last line of an analyzer. *)
Definition scored (cat : CategoryResult) : CategoryResult :=
  {| id := id cat; title := title cat; findings := findings cat;
     score := Helpers.applyScore (map scoreItem (findings cat)) |}.

(** The category object an analyzer returns, as [runAnalyzer] receives it. *)
Definition categoryToJs (cat : CategoryResult) : JsVal :=
  JObj [ ("id", JStr (id cat));
         ("title", JStr (title cat));
         ("findings", JArr (map Runner.findingToJs (findings cat)));
         ("score", JNum (score cat)) ].

(** [s ? String(s) : undefined] on a field that is a string or absent. *)
Definition nonEmpty (o : option string) : option string :=
  match o with
  | Some s => if (s =? EmptyString)%string then None else Some s
  | None => None
  end.

(** A finding with the status read as [normalizeCategory] reads it and the
    empty optional fields gone. *)
Definition renormalized (f : Finding.t) : Finding.t :=
  {| Finding.id := Finding.id f;
     Finding.title := Finding.title f;
     Finding.message := Finding.message f;
     Finding.suggestion := nonEmpty (Finding.suggestion f);
     Finding.severity := Finding.severity f;
     Finding.status := if (Finding.status f =? "pass")%string then "pass" else "fail";
     Finding.file := nonEmpty (Finding.file f);
     Finding.artifacts := Finding.artifacts f |}.

(** A lower-case letter, a digit, an underscore or a dash. *)
Definition idChar (c : ascii) : bool :=
  let n := nat_of_ascii c in
  orb (andb (isWord c) (negb (andb (Nat.leb 65 n) (Nat.leb n 90)))) (Ascii.eqb c "-").

Fixpoint idChars (s : string) : bool :=
  match s with
  | EmptyString => true
  | String c rest => andb (idChar c) (idChars rest)
  end.

Definition startsWithDash (s : string) : bool :=
  match s with
  | String c _ => Ascii.eqb c "-"
  | EmptyString => false
  end.

(** No dash follows a dash. *)
Fixpoint singleDashes (s : string) : bool :=
  match s with
  | EmptyString => true
  | String c rest =>
      andb (negb (andb (Ascii.eqb c "-") (startsWithDash rest))) (singleDashes rest)
  end.

End Findings.

(* ================================================================= *)
(** ** src/utils/helpers.ts: patterns over several texts *)

Module Ci.
Import Js Eff.

(** [CiScan] *)
Record CiScan : Type := {
  hasGH : bool;
  hasGL : bool;
  files : list string;
  textByFile : Files.Map string
}.

(** [scan.textByFile.get(f) || ''] *)
Definition textOf (scan : CiScan) (f : string) : string :=
  match Files.mapGet (textByFile scan) f with
  | Some t => t
  | None => EmptyString
  end.

(** The loop of [firstFileMatching] on the fresh pattern [safeRe]. *)
Fixpoint firstMatch (E : Helpers.Engine) (scan : CiScan) (fs : list string)
  (safeRe : Helpers.RegExp) : option string :=
  match fs with
  | [] => None
  | f :: rest =>
      let '(hit, safeRe) := Helpers.test E safeRe (textOf scan f) in
      if hit then Some f else firstMatch E scan rest safeRe
  end.

(** [firstFileMatching(scan, re)]; [new RegExp] is not guarded here. *)
Definition firstFileMatching (E : Helpers.Engine) (scan : CiScan) (re : Helpers.RegExp)
  : Res (option string) :=
  let fl := Helpers.dropFirst "g" (Helpers.flags re) in
  match Helpers.newRegExp E (Helpers.source re) fl with
  | Some safeRe => Ok (firstMatch E scan (files scan) safeRe)
  | None => Thrown (JErr "SyntaxError" "Invalid regular expression")
  end.

(** [values.some((s) => pattern.test(s))]: the answer and the pattern
    afterwards. *)
Fixpoint someTest (E : Helpers.Engine) (values : list string) (pattern : Helpers.RegExp)
  : bool * Helpers.RegExp :=
  match values with
  | [] => (false, pattern)
  | s :: rest =>
      let '(hit, pattern) := Helpers.test E pattern s in
      if hit then (true, pattern) else someTest E rest pattern
  end.

(** [anyScriptIncludes(scripts, pattern)] *)
Definition anyScriptIncludes (E : Helpers.Engine) (scripts : option Pkg.Dict)
  (pattern : Helpers.RegExp) : bool * Helpers.RegExp :=
  someTest E (map snd (Pkg.orEmpty scripts)) pattern.

(** The pattern without its [g], matched from the start of the text. *)
Definition matchesFresh (E : Helpers.Engine) (re : Helpers.RegExp) (text : string) : bool :=
  match Helpers.search E (Helpers.source re) (Helpers.dropFirst "g" (Helpers.flags re)) text 0 with
  | Some _ => true
  | None => false
  end.

End Ci.

(* ================================================================= *)
(** ** dist/src/index.js: which candidate file gives the module *)

Module Loading.
Import Js Eff Runner.




End Loading.

(* ================================================================= *)
(** ** dist/src/index.js: the command line *)

Module Cli.
Import Js Eff.

(** [a.startsWith('-')] *)
Definition isOption (a : string) : bool :=
  match a with
  | String "-" _ => true
  | _ => false
  end.

(** [a === name || (short && a === short)]; [short] is [None] when the
    caller leaves it out. *)
Definition named (name : string) (short : option string) (a : string) : bool :=
  orb (a =? name)%string
      match short with
      | Some s => andb (negb (s =? EmptyString)%string) (a =? s)%string
      | None => false
      end.

(** [argv.findIndex(p)]; [None] is [-1]. *)
Fixpoint findIndex (p : string -> bool) (argv : list string) : option nat :=
  match argv with
  | [] => None
  | a :: rest => if p a then Some 0%nat else option_map S (findIndex p rest)
  end.

Definition getFlag (argv : list string) (name : string) (short : option string) : bool :=
  match findIndex (named name short) argv with
  | Some _ => true
  | None => false
  end.

Definition getValue (argv : list string) (name : string) (short : option string)
  : option string :=
  match findIndex (named name short) argv with
  | Some i =>
      if Nat.ltb (i + 1) (List.length argv) then nth_error argv (i + 1) else None
  | None => None
  end.

(** [x || fallback] on a string that may be [undefined]. *)
Definition orDefault (x : option string) (fallback : string) : string :=
  match x with
  | Some s => if (s =? EmptyString)%string then fallback else s
  | None => fallback
  end.

(** The four constants [mainFromCli] reads off [process.argv.slice(2)]. *)
Record Args : Type := {
  targetDir : string;
  outDir : string;
  writeJson : bool;
  skipHtml : bool
}.

Definition parseArgs (w : Runner.World) (argv : list string) : Args :=
  {| targetDir := orDefault (find (fun a => negb (isOption a)) argv) (Runner.cwd w);
     outDir := orDefault (getValue argv "--out-dir" (Some "-o")) "audit-report";
     writeJson := getFlag argv "--json" None;
     skipHtml := getFlag argv "--no-html" None |}.

(** [{ outDir, writeHtml: !skipHtml, writeJson }] *)
Definition optionsOf (a : Args) : Runner.RunOptions :=
  {| Runner.outDir := Some (outDir a);
     Runner.optWriteHtml := Some (negb (skipHtml a));
     Runner.optWriteJson := Some (writeJson a) |}.

Inductive Console : Type :=
| ConsoleLog (text : string)
| ConsoleError (label text : string).

(** What a run of the command leaves behind: the calls of [runAudit], the
    lines on the console, and [process.exitCode] ([None] when it is not set). *)
Record Finished : Type := {
  events : list Event;
  console : list Console;
  exitCode : option Z
}.

Definition checkMark : string :=
  String (ascii_of_nat 226) (String (ascii_of_nat 156) (String (ascii_of_nat 133) EmptyString)).
Definition crossMark : string :=
  String (ascii_of_nat 226) (String (ascii_of_nat 156) (String (ascii_of_nat 150) EmptyString)).

(** [f.status !== 'pass' && (f.severity === 'critical' || f.severity === 'high')] *)
Definition severe (f : Finding.t) : bool :=
  andb (negb (Finding.status f =? "pass")%string)
       match Finding.severity f with
       | Helpers.critical | Helpers.high => true
       | _ => false
       end.

(** The line [console.log] prints after a successful audit. *)
Definition doneLine (w : Runner.World) (a : Args) : string :=
  let outAbs := Runner.pathResolve w [outDir a] in
  if negb (skipHtml a) then
    checkMark ++ " Audit complete. See " ++ Runner.pathJoin w [outAbs; "index.html"]
    ++ (if writeJson a then " and report.json" else EmptyString)
  else if writeJson a then
    checkMark ++ " Audit complete. JSON written at " ++ Runner.pathJoin w [outAbs; "report.json"]
  else checkMark ++ " Audit complete.".

(** [mainFromCli()], given [process.argv.slice(2)]. *)
Definition mainFromCli (w : Runner.World) (argv : list string) : Finished :=
  let a := parseArgs w argv in
  match Runner.runAudit w (targetDir a) (optionsOf a) with
  | (t, Ok res) =>
      let bad := existsb severe (flat_map Category.findings (Runner.categories res)) in
      {| events := t;
         console := [ConsoleLog (doneLine w a)];
         exitCode := if bad then None     (* process.exitCode = 2 is commented out *)
                     else None |}
  | (t, Thrown e) =>
      {| events := t;
         console := [ConsoleError (crossMark ++ " Audit failed:") (errorText e)];
         exitCode := Some 1 |}
  end.

End Cli.

(* ================================================================= *)
(** ** dist/bin/cli.js and dist/src/reporters/json.js *)

Module Bin.
Import Js Eff Runner.
Local Open Scope run_scope.

(** reporters/json.js: [writeJson(result, outDir)] *)
Definition writeJson (w : World) (result : AuditResult) (outDir : string) : Run unit :=
  output (EvMkdir outDir) (mkdir w outDir) ;;;
  let file := pathJoin w [outDir; "report.json"] in
  output (EvWriteFile file) (writeFile w file result).

(** The options commander hands to the action. *)
Record Opts : Type := {
  out : string;
  jsonOnly : bool;
  debug : bool
}.


(** The line the action prints. *)
Definition doneLine (opts : Opts) : string :=
  newline ++ Cli.checkMark ++ " Audit complete. See " ++ out opts
  ++ "/index.html and report.json".


End Bin.

(* ================================================================= *)
(** ** src/utils/helpers.ts: scans over the files of a project *)

Module Scan.
Import Js Eff Files.

(** [/\.(t|j)sx?$/i]: a literal, so a new object at every call. *)
Definition sourceExts : Helpers.RegExp :=
  {| Helpers.source := "\.(t|j)sx?$"; Helpers.flags := "i"; Helpers.lastIndex := 0 |}.

(** What [readdir] shows below each directory a scan starts from. *)
Definition Trees : Type := string -> option (list Dirent).

Definition defaultRoots : list string :=
  ["src"; "tests"; "test"; "e2e"; "__tests__"; "scripts"].

(** The [limit] the two scans hand to [walkFiles]. *)
Definition firstFileLimit : nat := 4000.
#[warnings="-abstract-large-number"]
Definition antiPatternLimit : nat := 6000.

(** The inner loop of [findFirstFile]. *)
Fixpoint firstHit (d : Disk) (predicate : string -> string -> bool) (files : list string)
  : Cached (option string) :=
  fun c =>
    match files with
    | [] => ([], None, c)
    | f :: rest =>
        let '(ev1, txt, c1) := readFile d (Some f) "utf8" c in
        if predicate txt f then (ev1, Some f, c1)
        else
          let '(ev2, r, c2) := firstHit d predicate rest c1 in
          (List.app ev1 ev2, r, c2)
    end.

(** [findFirstFile(targetDir, predicate, roots)] *)
Fixpoint findFirstFile (E : Helpers.Engine) (d : Disk) (trees : Trees) (targetDir : string)
  (predicate : string -> string -> bool) (roots : list string) : Cached (option string) :=
  fun c =>
    match roots with
    | [] => ([], None, c)
    | r :: rest =>
        let base := join d [targetDir; r] in
        let '(ev1, (_, files), c1) := walkFiles E d base (trees base) sourceExts firstFileLimit c in
        let '(ev2, hit, c2) := firstHit d predicate files c1 in
        match hit with
        | Some f => (List.app ev1 ev2, Some f, c2)
        | None =>
            let '(ev3, res, c3) := findFirstFile E d trees targetDir predicate rest c2 in
            (List.app ev1 (List.app ev2 ev3), res, c3)
        end
    end.

(** The inner loop of [findAntiPatternFiles]: the pattern and [out]
    afterwards, and whether the function returned from inside the loop. *)
Fixpoint collectHits (E : Helpers.Engine) (d : Disk) (limitArtifacts : nat)
  (files : list string) (re : Helpers.RegExp) (out : list string)
  : Cached (Helpers.RegExp * list string * bool) :=
  fun c =>
    match files with
    | [] => ([], (re, out, false), c)
    | f :: rest =>
        let '(ev1, txt, c1) := readFile d (Some f) "utf8" c in
        let '(hit, re) := Helpers.ok E re (Some txt) in
        if hit then
          let out := push out f in
          if Nat.leb limitArtifacts (List.length out) then (ev1, (re, out, true), c1)
          else
            let '(ev2, r, c2) := collectHits E d limitArtifacts rest re out c1 in
            (List.app ev1 ev2, r, c2)
        else
          let '(ev2, r, c2) := collectHits E d limitArtifacts rest re out c1 in
          (List.app ev1 ev2, r, c2)
    end.

(** The loop over the roots. *)
Fixpoint antiPatternLoop (E : Helpers.Engine) (d : Disk) (trees : Trees) (targetDir : string)
  (limitArtifacts : nat) (roots : list string) (re : Helpers.RegExp) (out : list string)
  : Cached (list string) :=
  fun c =>
    match roots with
    | [] => ([], out, c)
    | r :: rest =>
        let base := join d [targetDir; r] in
        let '(ev1, (_, files), c1) := walkFiles E d base (trees base) sourceExts antiPatternLimit c in
        let '(ev2, (re, out, returned), c2) := collectHits E d limitArtifacts files re out c1 in
        if returned then (List.app ev1 ev2, out, c2)
        else
          let '(ev3, res, c3) :=
            antiPatternLoop E d trees targetDir limitArtifacts rest re out c2 in
          (List.app ev1 (List.app ev2 ev3), res, c3)
    end.

(** [findAntiPatternFiles(targetDir, re, roots, limitArtifacts)] *)
Definition findAntiPatternFiles (E : Helpers.Engine) (d : Disk) (trees : Trees)
  (targetDir : string) (re : Helpers.RegExp) (roots : list string) (limitArtifacts : nat)
  : Cached (list string) :=
  antiPatternLoop E d trees targetDir limitArtifacts roots re [].

(** *** The CI configurations *)

Definition endsWith (suffix s : string) : bool :=
  let n := String.length s in
  let k := String.length suffix in
  andb (Nat.leb k n) (substring (n - k) k s =? suffix)%string.

(** [/\.ya?ml$/i.test(n)] *)
Definition isYaml (n : string) : bool :=
  let l := toLowerCase n in
  orb (endsWith ".yml" l) (endsWith ".yaml" l).

(** [scan.files.push(p); scan.textByFile.set(p, t)] *)
Definition addFile (scan : Ci.CiScan) (p t : string) : Ci.CiScan :=
  {| Ci.hasGH := Ci.hasGH scan;
     Ci.hasGL := Ci.hasGL scan;
     Ci.files := push (Ci.files scan) p;
     Ci.textByFile := mapSet (Ci.textByFile scan) p t |}.

(** The loop over the names [readdir] shows in the workflows directory. *)
Fixpoint readWorkflows (d : Disk) (ghDir : string) (names : list string) (scan : Ci.CiScan)
  : Cached Ci.CiScan :=
  fun c =>
    match names with
    | [] => ([], scan, c)
    | n :: rest =>
        if negb (isYaml n) then readWorkflows d ghDir rest scan c      (* continue *)
        else
          let p := join d [ghDir; n] in
          let '(ev1, t, c1) := readFile d (Some p) "utf8" c in
          let '(ev2, r, c2) := readWorkflows d ghDir rest (addFile scan p t) c1 in
          (List.app ev1 ev2, r, c2)
    end.

(** The loop over the two GitLab file names. *)
Fixpoint readGitlab (d : Disk) (targetDir : string) (names : list string) (scan : Ci.CiScan)
  : Cached Ci.CiScan :=
  fun c =>
    match names with
    | [] => ([], scan, c)
    | name :: rest =>
        let p := join d [targetDir; name] in
        let '(ev1, found, c1) := exists_ d p c in
        if found then
          let scan := {| Ci.hasGH := Ci.hasGH scan; Ci.hasGL := true;
                         Ci.files := Ci.files scan; Ci.textByFile := Ci.textByFile scan |} in
          let '(ev2, t, c2) := readFile d (Some p) "utf8" c1 in
          let '(ev3, r, c3) := readGitlab d targetDir rest (addFile scan p t) c2 in
          (List.app ev1 (List.app ev2 ev3), r, c3)
        else
          let '(ev3, r, c3) := readGitlab d targetDir rest scan c1 in
          (List.app ev1 ev3, r, c3)
    end.

Definition gitlabNames : list string := [".gitlab-ci.yml"; ".gitlab-ci.yaml"].

(** [collectCiConfigs(targetDir)]; [workflows] is what [fs.readdir] shows
    of the workflows directory, [None] when it rejects. *)
Definition collectCiConfigs (d : Disk) (workflows : option (list string)) (targetDir : string)
  : Cached Ci.CiScan :=
  fun c =>
    let scan := {| Ci.hasGH := false; Ci.hasGL := false; Ci.files := []; Ci.textByFile := [] |} in
    let ghDir := join d [targetDir; ".github"; "workflows"] in
    let '(ev1, found, c1) := exists_ d ghDir c in
    let '(ev2, scan, c2) :=
      if found then
        readWorkflows d ghDir (match workflows with Some names => names | None => [] end)
          {| Ci.hasGH := true; Ci.hasGL := Ci.hasGL scan;
             Ci.files := Ci.files scan; Ci.textByFile := Ci.textByFile scan |} c1
      else ([], scan, c1) in
    let '(ev3, scan, c3) := readGitlab d targetDir gitlabNames scan c2 in
    (List.app ev1 (List.app ev2 ev3), scan, c3).

(** *** What the scans are compared with *)

(** The text [readFile] gives for a path it has not read before. *)
Definition textOnDisk (d : Disk) (p : string) : string :=
  if (p =? EmptyString)%string then EmptyString
  else
    match diskRead d p with
    | Some data => decode d "utf8" data
    | None => EmptyString
    end.

(** A file cache that holds of a path what the disk holds. *)
Definition coherentTexts (d : Disk) (c : Caches) : Prop :=
  forall p t, mapGet (fileCache c) p = Some t -> t = textOnDisk d p.

(** Caches that say of every path what the disk says. *)
Definition faithful (d : Disk) (c : Caches) : Prop := coherent d c /\ coherentTexts d c.

(** Every file a scan lists has its text stored. *)
Definition stored (d : Disk) (scan : Ci.CiScan) : Prop :=
  forall f, In f (Ci.files scan) -> mapGet (Ci.textByFile scan) f = Some (textOnDisk d f).

(** The source files [walkFiles] finds below a base directory. *)
Definition sourceFiles (E : Helpers.Engine) (d : Disk) (trees : Trees) (limit : nat)
  (base : string) : list string :=
  if onDisk d base
  then firstn limit (filter (matches E sourceExts) (filesUnder (join d) base (trees base)))
  else [].

End Scan.

(* ================================================================= *)
(** ** A small project to run the scans on *)

Module ScanDemo.
Import Eff Files Scan.

(** A matcher that knows the pattern of [sourceExts] and takes any other
    pattern for a plain substring. *)
Definition engine : Helpers.Engine :=
  {| Helpers.compiles := fun _ _ => true;
     Helpers.search := fun src fl text start =>
       if (src =? Helpers.source sourceExts)%string then
         if existsb (fun suffix => endsWith suffix (Js.toLowerCase text))
                    [".ts"; ".tsx"; ".js"; ".jsx"]
         then Some (String.length text) else None
       else Helpers.literalSearch src fl text start |}.

Definition disk : Disk :=
  FilesDemo.disk
    [ ("/proj/tests/a.spec.ts", "await page.goto(url)");
      ("/proj/tests/helpers/util.ts", "await page.waitForTimeout(500)");
      ("/proj/tests/helpers/notes.md", "waitForTimeout is slow");
      ("/proj/tests/b.spec.ts", "test.only(name, fn); await page.waitForTimeout(1)");
      ("/proj/.github/workflows/e2e.YML", "run: npx playwright test");
      ("/proj/.github/workflows/README.md", "workflows");
      ("/proj/.gitlab-ci.yml", "script: npm test") ]
    ["/proj"; "/proj/tests"; "/proj/tests/helpers"; "/proj/.github/workflows"].

Definition trees : Trees :=
  fun base => if (base =? "/proj/tests")%string then FilesDemo.testsTree else None.

Definition contains (needle : string) (text _ : string) : bool :=
  match index 0 needle text with
  | Some _ => true
  | None => false
  end.

End ScanDemo.

(* ================================================================= *)
(** ** The project structure analyzer ([analyzeProjectStructure]) *)

Module Structure.
Import Eff Files Findings.

(** [const cat = createCategory('structure', 'Project Structure')], run
    once, when the module is loaded: every call of the analyzer works on this
    one object. *)
Definition moduleCat : CategoryResult := createCategory "structure" "Project Structure".

Record Candidate : Type := {
  label : string;
  path : string;
  sev : Helpers.Sev;
  alt : option (list string)
}.

Definition candidates : list Candidate :=
  [ {| label := "Root package.json present"; path := "package.json";
       sev := Helpers.high; alt := None |};
    {| label := "Playwright config present"; path := "playwright.config.ts";
       sev := Helpers.critical;
       alt := Some ["playwright.config.js"; "playwright.config.mjs"; "playwright.config.cjs"] |};
    {| label := "Tests directory exists"; path := "tests"; sev := Helpers.medium;
       alt := Some ["e2e"; "test"; "__tests__"; "src/tests"] |};
    {| label := "Src directory exists"; path := "src"; sev := Helpers.medium;
       alt := Some ["e2e/src"] |};
    {| label := "Config directory exists"; path := "src/configs"; sev := Helpers.medium;
       alt := Some ["src/config"; "e2e/src/configs"; "e2e/src/config"] |};
    {| label := "Data directory exists"; path := "src/data"; sev := Helpers.medium;
       alt := Some ["e2e/src/data"] |};
    {| label := "Envs directory exists"; path := "src/environments"; sev := Helpers.medium;
       alt := Some ["e2e/src/environments"; "src/env"] |};
    {| label := "Fixtures directory exists"; path := "src/fixtures"; sev := Helpers.medium;
       alt := Some ["e2e/fixtures"] |};
    {| label := "Helpers directory exists"; path := "src/helpers"; sev := Helpers.medium;
       alt := Some ["e2e/helpers"] |};
    {| label := "Pages directory exists"; path := "src/pages"; sev := Helpers.medium;
       alt := Some ["e2e/pages"] |};
    {| label := "Services directory exists"; path := "src/services"; sev := Helpers.medium;
       alt := Some ["e2e/services"] |};
    {| label := "Utils directory exists"; path := "src/utils"; sev := Helpers.medium;
       alt := Some ["e2e/utils"] |};
    {| label := ".husky directory exists"; path := ".husky"; sev := Helpers.medium;
       alt := Some ["e2e/.husky"; "src/.husky"] |};
    {| label := "TypeScript config present"; path := "tsconfig.json"; sev := Helpers.low;
       alt := None |};
    {| label := "Git ignore present"; path := ".gitignore"; sev := Helpers.low; alt := None |};
    {| label := "Editor config present"; path := ".editorconfig"; sev := Helpers.info;
       alt := None |};
    {| label := "ESLint config present"; path := "eslint.config.js"; sev := Helpers.info;
       alt := Some ["eslint.config.mjs"; ".eslintrc.js"; ".eslintrc.cjs"; ".eslintrc.json";
                    ".eslintrc"] |};
    {| label := "README present"; path := "README.md"; sev := Helpers.medium;
       alt := Some ["ReadMe.md"; "USAGE.md"] |};
    {| label := "Lockfile present (npm/pnpm/yarn)"; path := "package-lock.json";
       sev := Helpers.info; alt := Some ["pnpm-lock.yaml"; "yarn.lock"] |} ].

(** [{ ok, used }] *)
Record Found : Type := {
  ok : bool;
  used : option string
}.

(** The analyzer's own [firstExisting(targetDir, paths)]. *)
Fixpoint firstExisting (d : Disk) (targetDir : string) (paths : list string) : Cached Found :=
  fun c =>
    match paths with
    | [] => ([], {| ok := false; used := None |}, c)
    | p :: rest =>
        let '(ev1, found, c1) := exists_ d (join d [targetDir; p]) c in
        if found then (ev1, {| ok := true; used := Some p |}, c1)
        else
          let '(ev2, r, c2) := firstExisting d targetDir rest c1 in
          (List.app ev1 ev2, r, c2)
    end.

(** [res.ok && res.used] as a condition. *)
Definition usable (res : Found) : option string :=
  if ok res then
    match used res with
    | Some u => if (u =? EmptyString)%string then None else Some u
    | None => None
    end
  else None.

(** [[c.path, ...(c.alt || [])]] *)
Definition pathsToCheck (c : Candidate) : list string :=
  path c :: match alt c with Some a => a | None => [] end.

Definition foundOrMissing (b : bool) : string := if b then "Found" else "Missing".

(** The finding of one turn of the loop over the candidates. *)
Definition candidateFinding (d : Disk) (targetDir : string) (c : Candidate) (res : Found)
  : NewFinding :=
  {| newId := Some (makeId (label c));
     newTitle := label c;
     newMessage := Some (foundOrMissing (ok res));
     newSeverity := sev c;
     newStatus := Js.JBool (ok res);
     newSuggestion := None;
     newFile := if ok res then used res else Some (path c);
     newArtifacts :=
       Some match usable res with
            | Some u => [join d [targetDir; u]]
            | None => [join d [targetDir; path c]]
            end |}.

(** [for (const c of candidates) { ... addFinding(cat, ...) }] *)
Fixpoint checkCandidates (d : Disk) (targetDir : string) (cs : list Candidate)
  (cat : CategoryResult) : Cached CategoryResult :=
  fun c0 =>
    match cs with
    | [] => ([], cat, c0)
    | c :: rest =>
        let '(ev1, res, c1) := firstExisting d targetDir (pathsToCheck c) c0 in
        let cat := addFinding cat (candidateFinding d targetDir c res) in
        let '(ev2, r, c2) := checkCandidates d targetDir rest cat c1 in
        (List.app ev1 ev2, r, c2)
    end.

(** [for (const n of names) if (await exists(path.join(targetDir, n))) acc.push(n)] *)
Fixpoint present (d : Disk) (targetDir : string) (names : list string) (acc : list string)
  : Cached (list string) :=
  fun c =>
    match names with
    | [] => ([], acc, c)
    | n :: rest =>
        let '(ev1, found, c1) := exists_ d (join d [targetDir; n]) c in
        let '(ev2, r, c2) :=
          present d targetDir rest (if found then push acc n else acc) c1 in
        (List.app ev1 ev2, r, c2)
    end.

Definition lockfiles : list string := ["package-lock.json"; "pnpm-lock.yaml"; "yarn.lock"].

Definition lockFinding (d : Disk) (targetDir : string) (presentLocks : list string)
  : NewFinding :=
  let hasSingleLock := Nat.eqb (List.length presentLocks) 1 in
  let hasNoLock := Nat.eqb (List.length presentLocks) 0 in
  {| newId := Some (makeId "Single lockfile sanity");
     newTitle := "Single lockfile sanity";
     newMessage :=
       Some (if hasSingleLock
             then "Exactly one lockfile present (" ++ nth 0 presentLocks "undefined" ++ ")."
             else if hasNoLock then "No lockfile found."
             else "Multiple lockfiles found: " ++ Js.join ", " presentLocks ++ ".");
     newSeverity :=
       if hasNoLock then Helpers.medium
       else if Nat.ltb 1 (List.length presentLocks) then Helpers.high
       else Helpers.info;
     newStatus := Js.JBool hasSingleLock;
     newSuggestion :=
       Some (if hasSingleLock then "Good. Keep a single package manager lock."
             else "Keep only one of package-lock.json, pnpm-lock.yaml, or yarn.lock to avoid conflicts.");
     newFile := None;
     newArtifacts := Some (map (fun p => join d [targetDir; p]) presentLocks) |}.

Definition testRoots : list string := ["tests"; "e2e"; "test"; "__tests__"; "src"].

(** [/\.(spec|test)\.(t|j)sx?$/.test(f)] *)
Definition isTestFile (f : string) : bool :=
  existsb (fun suffix => Scan.endsWith suffix f)
    (flat_map (fun kind =>
       flat_map (fun lang =>
         map (fun x => "." ++ kind ++ "." ++ lang ++ "s" ++ x) [EmptyString; "x"])
         ["t"; "j"])
       ["spec"; "test"]).

(** The loop over [testRoots]; [walk(p)] runs with its default limit of
    2000 and a new [out]. *)
Fixpoint countTestFiles (d : Disk) (trees : Scan.Trees) (targetDir : string)
  (roots : list string) (testFilesCount : nat) : Cached nat :=
  fun c =>
    match roots with
    | [] => ([], testFilesCount, c)
    | r :: rest =>
        let p := join d [targetDir; r] in
        let '(ev1, found, c1) := exists_ d p c in
        let '(ev2, n, c2) :=
          countTestFiles d trees targetDir rest
            (if found
             then (testFilesCount
                   + List.length (filter isTestFile (walk (join d) p (trees p) 2000 [])))%nat
             else testFilesCount)                                   (* continue *)
            c1 in
        (List.app ev1 ev2, n, c2)
    end.

Definition testsFinding (testFilesCount : nat) : NewFinding :=
  let some := Nat.ltb 0 testFilesCount in
  {| newId := Some (makeId "Test files present");
     newTitle := "Test files present";
     newMessage :=
       Some (if some
             then "Found " ++ Js.decimal (Z.of_nat testFilesCount) ++ " test file(s)."
             else "No test files detected.");
     newSeverity := if some then Helpers.info else Helpers.medium;
     newStatus := Js.JBool some;
     newSuggestion :=
       Some (if some
             then "Ensure test files live under a consistent directory (e.g., tests/ or e2e/)."
             else "Add at least one *.spec.ts or *.test.ts file to start your test suite.");
     newFile := None;
     newArtifacts := None |}.

Definition prettierCandidates : list string :=
  [".prettierrc"; ".prettierrc.json"; ".prettierrc.js"; "prettier.config.js";
   "prettier.config.cjs"; ".prettierrc.cjs"; ".prettierrc.yml"; ".prettierrc.yaml"].

Definition prettierFinding (d : Disk) (targetDir : string) (prettierRes : Found)
  : NewFinding :=
  {| newId := Some (makeId "Prettier config present");
     newTitle := "Prettier config present";
     newMessage := Some (foundOrMissing (ok prettierRes));
     newSeverity := Helpers.info;
     newStatus := Js.JBool (ok prettierRes);
     newSuggestion :=
       Some (if ok prettierRes then "Greatâ€”ensure your CI runs formatting checks."
             else "Add a Prettier config to enforce consistent formatting.");
     newFile := if ok prettierRes then used prettierRes else nth_error prettierCandidates 0;
     newArtifacts :=
       Some match usable prettierRes with
            | Some u => [join d [targetDir; u]]
            | None => []
            end |}.

Definition vscodeFinding (d : Disk) (targetDir : string) (hasVscode : bool) : NewFinding :=
  {| newId := Some (makeId ".vscode folder present");
     newTitle := ".vscode folder present";
     newMessage := Some (foundOrMissing hasVscode);
     newSeverity := Helpers.info;
     newStatus := Js.JBool hasVscode;
     newSuggestion :=
       Some (if hasVscode
             then "Consider sharing recommended extensions and settings for the repo."
             else "Add a .vscode/ with recommended extensions, format-on-save, etc.");
     newFile := None;
     newArtifacts := Some (if hasVscode then [join d [targetDir; ".vscode"]] else []) |}.

Definition workflowsFinding (d : Disk) (targetDir : string) (hasWorkflows : bool)
  : NewFinding :=
  {| newId := Some (makeId "GitHub Actions workflows folder");
     newTitle := "GitHub Actions workflows folder";
     newMessage := Some (foundOrMissing hasWorkflows);
     newSeverity := Helpers.info;
     newStatus := Js.JBool hasWorkflows;
     newSuggestion :=
       Some (if hasWorkflows
             then "Ensure CI covers lint, typecheck, tests, and artifacts upload."
             else "Create .github/workflows to enable CI/CD pipelines.");
     newFile := None;
     newArtifacts :=
       Some (if hasWorkflows then [join d [targetDir; ".github/workflows"]] else []) |}.

Definition nodeVersionFinding (d : Disk) (targetDir : string) (nodeVersionRes : Found)
  : NewFinding :=
  {| newId := Some (makeId "Node version file present");
     newTitle := "Node version file present";
     newMessage :=
       Some (if ok nodeVersionRes
             then "Found " ++ match used nodeVersionRes with
                              | Some u => u
                              | None => "undefined"
                              end
             else "Missing");
     newSeverity := Helpers.info;
     newStatus := Js.JBool (ok nodeVersionRes);
     newSuggestion :=
       Some (if ok nodeVersionRes then "Use a consistent Node version locally and in CI."
             else "Add .nvmrc or .node-version to pin Node across environments.");
     newFile := used nodeVersionRes;
     newArtifacts :=
       Some match usable nodeVersionRes with
            | Some u => [join d [targetDir; u]]
            | None => []
            end |}.

Definition monorepoHints : list string :=
  ["packages"; "apps"; "turbo.json"; "pnpm-workspace.yaml"].

Definition monorepoFinding (d : Disk) (targetDir : string) (monoFound : list string)
  : NewFinding :=
  let some := Nat.ltb 0 (List.length monoFound) in
  {| newId := Some (makeId "Monorepo workspace detected");
     newTitle := "Monorepo workspace detected";
     newMessage :=
       Some (if some then "Indicators found: " ++ Js.join ", " monoFound
             else "No monorepo indicators detected (single-package repo).");
     newSeverity := Helpers.info;
     newStatus := Js.JBool some;
     newSuggestion :=
       Some (if some
             then "Ensure shared configs (eslint/prettier/tsconfig) are hoisted and referenced by each package."
             else "If repo grows, consider workspaces for multi-package management.");
     newFile := None;
     newArtifacts := Some (map (fun p => join d [targetDir; p]) monoFound) |}.

(** [analyzeProjectStructure(targetDir)], given the module's [cat] as the
    call finds it; the category it returns is that same object, as the call
    leaves it. *)
Definition analyzeProjectStructure (d : Disk) (trees : Scan.Trees) (targetDir : string)
  (cat : CategoryResult) : Cached CategoryResult :=
  fun c =>
    let '(ev1, cat, c) := checkCandidates d targetDir candidates cat c in
    let '(ev2, presentLocks, c) := present d targetDir lockfiles [] c in
    let cat := addFinding cat (lockFinding d targetDir presentLocks) in
    let '(ev3, testFilesCount, c) := countTestFiles d trees targetDir testRoots 0 c in
    let cat := addFinding cat (testsFinding testFilesCount) in
    let '(ev4, prettierRes, c) := firstExisting d targetDir prettierCandidates c in
    let cat := addFinding cat (prettierFinding d targetDir prettierRes) in
    let '(ev5, hasVscode, c) := exists_ d (join d [targetDir; ".vscode"]) c in
    let cat := addFinding cat (vscodeFinding d targetDir hasVscode) in
    let '(ev6, hasWorkflows, c) := exists_ d (join d [targetDir; ".github/workflows"]) c in
    let cat := addFinding cat (workflowsFinding d targetDir hasWorkflows) in
    let '(ev7, nodeVersionRes, c) := firstExisting d targetDir [".nvmrc"; ".node-version"] c in
    let cat := addFinding cat (nodeVersionFinding d targetDir nodeVersionRes) in
    let '(ev8, monoFound, c) := present d targetDir monorepoHints [] c in
    let cat := addFinding cat (monorepoFinding d targetDir monoFound) in
    (List.app ev1 (List.app ev2 (List.app ev3 (List.app ev4
       (List.app ev5 (List.app ev6 (List.app ev7 ev8)))))),
     scored cat, c).

(** *** What the analyzer is compared with *)

Definition exists_on (d : Disk) (targetDir : string) (p : string) : bool :=
  onDisk d (join d [targetDir; p]).

(** The first of the paths that is on the disk. *)
Definition firstOnDisk (d : Disk) (targetDir : string) (paths : list string) : Found :=
  match find (exists_on d targetDir) paths with
  | Some p => {| ok := true; used := Some p |}
  | None => {| ok := false; used := None |}
  end.

(** The test files a walk of the test roots that exist meets. *)
Definition testFilesOnDisk (d : Disk) (trees : Scan.Trees) (targetDir : string) : nat :=
  fold_left
    (fun n r =>
       if exists_on d targetDir r
       then (n + List.length
                   (filter isTestFile
                      (walk (join d) (join d [targetDir; r]) (trees (join d [targetDir; r]))
                            2000 [])))%nat
       else n)
    testRoots 0%nat.

(** The findings of one call, read off the disk. *)
Definition checks (d : Disk) (trees : Scan.Trees) (targetDir : string) : list Finding.t :=
  List.app
    (map (fun c => recorded (candidateFinding d targetDir c
                               (firstOnDisk d targetDir (pathsToCheck c))))
         candidates)
    (map recorded
       [ lockFinding d targetDir (filter (exists_on d targetDir) lockfiles);
         testsFinding (testFilesOnDisk d trees targetDir);
         prettierFinding d targetDir (firstOnDisk d targetDir prettierCandidates);
         vscodeFinding d targetDir (exists_on d targetDir ".vscode");
         workflowsFinding d targetDir (exists_on d targetDir ".github/workflows");
         nodeVersionFinding d targetDir (firstOnDisk d targetDir [".nvmrc"; ".node-version"]);
         monorepoFinding d targetDir (filter (exists_on d targetDir) monorepoHints) ]).

(** The deductions of the failed findings among those of one call. *)
Definition deductions (fs : list Finding.t) : Z :=
  Spec.sumBy Spec.cost (map scoreItem fs).

(** The test files among the first 2000 files below a test root. *)
Definition testFilesBelow (d : Disk) (trees : Scan.Trees) (targetDir root : string)
  : list string :=
  filter isTestFile
    (firstn 2000 (filesUnder (join d) (join d [targetDir; root])
                             (trees (join d [targetDir; root])))).

(** The test files of the test roots that exist. *)
Definition testFiles (d : Disk) (trees : Scan.Trees) (targetDir : string) : list string :=
  flat_map (fun r => if exists_on d targetDir r then testFilesBelow d trees targetDir r else [])
           testRoots.

End Structure.

(* ================================================================= *)
(** ** A project with most of the expected structure, and two lockfiles *)

Module StructureDemo.
Import Eff Files.

Definition disk : Disk :=
  FilesDemo.disk
    [ ("/proj/package.json", "{}");
      ("/proj/playwright.config.ts", "export default {}");
      ("/proj/tsconfig.json", "{}");
      ("/proj/.gitignore", "node_modules");
      ("/proj/README.md", "# project");
      ("/proj/package-lock.json", "{}");
      ("/proj/yarn.lock", "") ]
    [ "/proj"; "/proj/tests"; "/proj/src"; "/proj/src/configs"; "/proj/src/data";
      "/proj/src/environments"; "/proj/src/fixtures"; "/proj/src/helpers";
      "/proj/src/pages"; "/proj/src/services"; "/proj/src/utils"; "/proj/.husky" ].

End StructureDemo.

(* ================================================================= *)
(** ** Properties of binary64 arithmetic on integers

    Sums and products of integers are exact in binary64 as long as they stay
    below 2^53 in magnitude, a sum of positive numbers is positive at any
    magnitude, and [Math.round(a / b)] is the integer nearest to [a / b] for
    [a] below 2^52.  The lemmas are read off [SpecFloat], which the primitive
    floats implement. *)

Section NumFacts.
Import Num.

Lemma digits2_size (p : positive) : digits2_pos p = Pos.size p.
Proof. induction p; cbn; congruence. Qed.

Lemma digits2_bounds (p : positive) :
  2 ^ (Zpos (digits2_pos p) - 1) <= Zpos p < 2 ^ Zpos (digits2_pos p).
Proof.
  induction p as [p IH|p IH|]; cbn [digits2_pos].
  - rewrite Pos2Z.inj_succ.
    replace (Z.succ (Zpos (digits2_pos p)) - 1) with (Z.succ (Zpos (digits2_pos p) - 1)) by lia.
    rewrite !Z.pow_succ_r by lia. lia.
  - rewrite Pos2Z.inj_succ.
    replace (Z.succ (Zpos (digits2_pos p)) - 1) with (Z.succ (Zpos (digits2_pos p) - 1)) by lia.
    rewrite !Z.pow_succ_r by lia. lia.
  - cbn. lia.
Qed.

Lemma digits2_unique (p : positive) (d : Z) :
  2 ^ (d - 1) <= Zpos p < 2 ^ d -> Zpos (digits2_pos p) = d.
Proof.
  intros [H1 H2]. pose proof (digits2_bounds p) as [B1 B2].
  assert (0 < d).
  { destruct (Z.ltb_spec 0 d); [assumption|].
    exfalso. destruct (Z.eq_dec d 0) as [->|]; [cbn in H2; lia|].
    rewrite Z.pow_neg_r in H2 by lia. lia. }
  destruct (Z.lt_trichotomy (Zpos (digits2_pos p)) d) as [L|[E|G]]; [|exact E|].
  - exfalso.
    assert (2 ^ Zpos (digits2_pos p) <= 2 ^ (d - 1)) by (apply Z.pow_le_mono_r; lia). lia.
  - exfalso.
    assert (2 ^ d <= 2 ^ (Zpos (digits2_pos p) - 1)) by (apply Z.pow_le_mono_r; lia). lia.
Qed.

Lemma fexp_eq (e : Z) : fexp prec emax e = Z.max (e - 53) (-1074).
Proof. reflexivity. Qed.

Lemma iter_pos_inv {A} (f : A -> A) (P : Z -> A -> Prop) :
  (forall k x, 0 <= k -> P k x -> P (k + 1) (f x)) ->
  forall p k x, 0 <= k -> P k x -> P (k + Zpos p) (iter_pos f p x).
Proof.
  intros Hstep. induction p as [p IH|p IH|]; intros k x Hk Hx; cbn [iter_pos].
  - replace (k + Zpos p~1) with (((k + 1) + Zpos p) + Zpos p) by lia.
    apply IH; [lia|]. apply IH; [lia|]. apply Hstep; assumption.
  - replace (k + Zpos p~0) with ((k + Zpos p) + Zpos p) by lia.
    apply IH; [lia|]. apply IH; assumption.
  - apply Hstep; assumption.
Qed.

Lemma shr_1_m (mrs : shr_record) :
  0 <= shr_m mrs -> shr_m (shr_1 mrs) = shr_m mrs / 2.
Proof.
  destruct mrs as [m r s]. cbn [shr_m]. intros Hm.
  destruct m as [|p|p]; [reflexivity| |lia].
  destruct p as [p|p|]; cbn [shr_1 shr_m].
  - rewrite Pos2Z.inj_xI. apply Z.div_unique with (r := 1); lia.
  - rewrite Pos2Z.inj_xO. apply Z.div_unique with (r := 0); lia.
  - reflexivity.
Qed.

Lemma iter_shr_1_m (p : positive) (mrs : shr_record) :
  0 <= shr_m mrs ->
  shr_m (iter_pos shr_1 p mrs) = shr_m mrs / 2 ^ Zpos p.
Proof.
  intros Hm.
  pose proof (iter_pos_inv shr_1
                (fun k x => shr_m x = shr_m mrs / 2 ^ k)) as H.
  cbv beta in H. specialize (H ltac:(
    intros k x Hk Hx; rewrite shr_1_m;
    [ rewrite Hx, Z.pow_add_r, Z.pow_1_r by lia;
      rewrite Z.div_div by (try apply Z.pow_pos_nonneg; lia); reflexivity
    | rewrite Hx; apply Z.div_pos; [assumption | apply Z.pow_pos_nonneg; lia] ])).
  specialize (H p 0 mrs (Z.le_refl 0)). rewrite Z.add_0_l in H. apply H.
  rewrite Z.pow_0_r, Z.div_1_r. reflexivity.
Qed.


Lemma pos_iter_xO (d p : positive) : Zpos (Pos.iter xO p d) = Zpos p * 2 ^ Zpos d.
Proof.
  change (2 ^ Zpos d) with (Zpos 2 ^ Zpos d).
  rewrite <- Pos2Z.inj_pow, <- Pos2Z.inj_mul. f_equal.
  revert p. induction d as [|d IH] using Pos.peano_ind; intros p.
  - cbn. lia.
  - rewrite Pos.iter_succ, IH, Pos.pow_succ_r. lia.
Qed.

Lemma digits2_shift (m : positive) (j : Z) (q : positive) :
  0 <= j -> Zpos q = Zpos m * 2 ^ j ->
  Zpos (digits2_pos q) = Zpos (digits2_pos m) + j.
Proof.
  intros Hj Hq. apply digits2_unique. rewrite Hq.
  pose proof (digits2_bounds m) as [B1 B2].
  replace (Zpos (digits2_pos m) + j - 1) with ((Zpos (digits2_pos m) - 1) + j) by lia.
  rewrite !Z.pow_add_r by lia.
  assert (0 < 2 ^ j) by (apply Z.pow_pos_nonneg; lia).
  split; [apply Z.mul_le_mono_nonneg_r; lia | apply Z.mul_lt_mono_pos_r; lia].
Qed.






Lemma Zdigits2_bounds (n : Z) :
  n <> 0 -> 2 ^ (Zdigits2 n - 1) <= Z.abs n < 2 ^ Zdigits2 n.
Proof.
  destruct n as [|p|p]; [congruence| |]; intros _; cbn [Zdigits2 Z.abs];
    apply digits2_bounds.
Qed.








Lemma cond_Zopp_abs (n : Z) : cond_Zopp (n <? 0) (Z.abs n) = n.
Proof. unfold cond_Zopp. destruct (Z.ltb_spec n 0); lia. Qed.



Lemma Zdigits2_le (a b : Z) :
  a <> 0 -> Z.abs a <= Z.abs b -> Zdigits2 a <= Zdigits2 b.
Proof.
  intros Na Hle. assert (Nb : b <> 0) by lia.
  pose proof (Zdigits2_bounds a Na) as [A1 A2].
  pose proof (Zdigits2_bounds b Nb) as [B1 B2].
  destruct (Z.le_gt_cases (Zdigits2 a) (Zdigits2 b)) as [|G]; [assumption|exfalso].
  assert (2 ^ Zdigits2 b <= 2 ^ (Zdigits2 a - 1)).
  { apply Z.pow_le_mono_r; [lia|]. lia. }
  lia.
Qed.





(** *** Rounding a positive mantissa never gives zero *)

Lemma digits2_le (p q : positive) :
  Zpos p <= Zpos q -> Zpos (digits2_pos p) <= Zpos (digits2_pos q).
Proof.
  intros H. apply (Zdigits2_le (Zpos p) (Zpos q)); [discriminate | cbn; lia].
Qed.

Lemma shr_fexp_spec (p : positive) (e : Z) (l : location) :
  -1074 <= e <= fexp prec emax (Zpos (digits2_pos p) + e) ->
  exists (p1 : positive) (r s : bool),
    shr_fexp prec emax (Zpos p) e l
    = ({| shr_m := Zpos p1; shr_r := r; shr_s := s |},
       fexp prec emax (Zpos (digits2_pos p) + e))
    /\ fexp prec emax (Zpos (digits2_pos p1) + fexp prec emax (Zpos (digits2_pos p) + e))
       = fexp prec emax (Zpos (digits2_pos p) + e).
Proof.
  intros [He1 He2]. unfold shr_fexp. cbn [Zdigits2].
  set (d := Zpos (digits2_pos p)) in *.
  destruct (fexp prec emax (d + e) - e) as [|k|k] eqn:En; [| |lia].
  - assert (Ee : fexp prec emax (d + e) = e) by lia.
    destruct (shr_record_of_loc (Zpos p) l) as [m r s] eqn:Er.
    assert (m = Zpos p) as -> by (destruct l as [|[| |]]; cbn in Er; congruence).
    exists p, r, s. cbn [shr]. rewrite Ee. split; [reflexivity|].
    fold d. exact Ee.
  - rewrite fexp_eq in En, He2 |- *.
    assert (Hk : Zpos k = d - 53) by lia.
    assert (Hfe : Z.max (d + e - 53) (-1074) = d + e - 53) by lia.
    cbn [shr].
    pose proof (iter_shr_1_m k (shr_record_of_loc (Zpos p) l)) as Hm.
    assert (Hrec : shr_m (shr_record_of_loc (Zpos p) l) = Zpos p)
      by (destruct l as [|[| |]]; reflexivity).
    rewrite Hrec in Hm. specialize (Hm ltac:(lia)).
    destruct (iter_pos shr_1 k (shr_record_of_loc (Zpos p) l)) as [m r s].
    cbn [shr_m] in Hm.
    pose proof (digits2_bounds p) as [B1 B2]. fold d in B1, B2.
    assert (H2k : 0 < 2 ^ Zpos k) by (apply Z.pow_pos_nonneg; lia).
    assert (Hlo : 2 ^ 52 <= m).
    { rewrite Hm. apply Z.div_le_lower_bound; [lia|].
      rewrite <- Z.pow_add_r by lia. replace (Zpos k + 52) with (d - 1) by lia. lia. }
    assert (Hhi : m < 2 ^ 53).
    { rewrite Hm. apply Z.div_lt_upper_bound; [lia|].
      rewrite <- Z.pow_add_r by lia. replace (Zpos k + 53) with d by lia. lia. }
    destruct m as [|p1|p1]; [lia| |lia].
    exists p1, r, s.
    assert (Hd1 : Zpos (digits2_pos p1) = 53) by (apply digits2_unique; lia).
    split.
    + f_equal. lia.
    + rewrite Hd1, !fexp_eq. lia.
Qed.

Lemma round_nearest_even_cases (p : positive) (l : location) :
  exists p2 : positive,
    round_nearest_even (Zpos p) l = Zpos p2 /\ Zpos p <= Zpos p2.
Proof.
  destruct l as [|[| |]]; cbn [round_nearest_even].
  - exists p. split; [reflexivity|lia].
  - destruct (Z.even (Zpos p)).
    + exists p. split; [reflexivity|lia].
    + exists (p + 1)%positive. split; [reflexivity|lia].
  - exists p. split; [reflexivity|lia].
  - exists (p + 1)%positive. split; [reflexivity|lia].
Qed.

Lemma fexp_mono (a b : Z) : a <= b -> fexp prec emax a <= fexp prec emax b.
Proof. rewrite !fexp_eq. lia. Qed.

Lemma binary_round_aux_positive (p : positive) (e : Z) (l : location) :
  -1074 <= e <= fexp prec emax (Zpos (digits2_pos p) + e) ->
  positiveFloat (binary_round_aux prec emax false (Zpos p) e l).
Proof.
  intros He. unfold binary_round_aux.
  destruct (shr_fexp_spec p e l He) as (p1 & r & s & -> & Hc1).
  cbn [shr_m].
  destruct (round_nearest_even_cases p1 (loc_of_shr_record
                                           {| shr_m := Zpos p1; shr_r := r; shr_s := s |}))
    as (p2 & -> & Hle).
  set (e1 := fexp prec emax (Zpos (digits2_pos p) + e)) in *.
  assert (He1 : -1074 <= e1 <= fexp prec emax (Zpos (digits2_pos p2) + e1)).
  { split; [unfold e1; rewrite fexp_eq; lia|].
    rewrite <- Hc1 at 1. apply fexp_mono. pose proof (digits2_le p1 p2 Hle). lia. }
  destruct (shr_fexp_spec p2 e1 loc_Exact He1) as (p3 & r3 & s3 & -> & Hc3).
  cbn [shr_m].
  destruct (Z.leb_spec (fexp prec emax (Zpos (digits2_pos p2) + e1)) (emax - prec)) as [L|G].
  - right. eexists _, _. split; [reflexivity|].
    unfold bounded, canonical_mantissa. apply andb_true_intro. split.
    + apply Z.eqb_eq. exact Hc3.
    + apply Z.leb_le. exact L.
  - left. reflexivity.
Qed.

Lemma binary_round_positive (p : positive) (e : Z) :
  -1074 <= e -> positiveFloat (binary_round prec emax false p e).
Proof.
  intros He. unfold binary_round, shl_align.
  destruct (fexp prec emax (Zpos (digits2_pos p) + e) - e) as [|k|k] eqn:En.
  - apply binary_round_aux_positive. lia.
  - apply binary_round_aux_positive. lia.
  - apply binary_round_aux_positive.
    assert (Hd : Zpos (digits2_pos (Pos.iter xO p k)) = Zpos (digits2_pos p) + Zpos k).
    { apply (digits2_shift p (Zpos k)); [lia | apply pos_iter_xO]. }
    rewrite Hd.
    replace (Zpos (digits2_pos p) + Zpos k + fexp prec emax (Zpos (digits2_pos p) + e))
      with (Zpos (digits2_pos p) + e) by lia.
    split; [rewrite fexp_eq; lia | lia].
Qed.

Lemma positiveFloat_valid (x : spec_float) : positiveFloat x -> valid_binary x = true.
Proof. intros [->|(m & e & -> & H)]; [reflexivity | exact H]. Qed.

Lemma ofZ_positive (n : Z) : 0 < n -> positiveFloat (Prim2SF (ofZ n)).
Proof.
  intros Hn. destruct n as [|p|p]; [lia| |lia].
  assert (H : positiveFloat (binary_normalize prec emax (Zpos p) 0 false)).
  { cbn [binary_normalize]. apply binary_round_positive. lia. }
  unfold ofZ. rewrite Prim2SF_SF2Prim by (apply positiveFloat_valid; exact H). exact H.
Qed.

Lemma bounded_emin (m : positive) (e : Z) : bounded prec emax m e = true -> -1074 <= e.
Proof.
  unfold bounded, canonical_mantissa. intros H. apply andb_prop in H as [H _].
  apply Z.eqb_eq in H. rewrite fexp_eq in H. lia.
Qed.

(** Adding a positive float to zero or to a positive float gives a positive float. *)
Lemma SFadd_positive (x y : spec_float) :
  x = S754_zero false \/ positiveFloat x -> positiveFloat y ->
  positiveFloat (SFadd prec emax x y).
Proof.
  intros Hx Hy.
  destruct Hy as [->|(my & ey & -> & By)].
  - destruct Hx as [->|[->|(mx & ex & -> & Bx)]]; left; reflexivity.
  - destruct Hx as [->|[->|(mx & ex & -> & Bx)]].
    + right. eexists _, _. split; [reflexivity | exact By].
    + left. reflexivity.
    + cbn [SFadd cond_Zopp]. cbn [Z.add binary_normalize].
      apply binary_round_positive.
      pose proof (bounded_emin mx ex Bx). pose proof (bounded_emin my ey By). lia.
Qed.

Lemma ltb_positive (x : float) : positiveFloat (Prim2SF x) -> PrimFloat.ltb PrimFloat.zero x = true.
Proof.
  intros H. rewrite ltb_spec.
  destruct H as [->|(m & e & -> & _)]; reflexivity.
Qed.

(** *** The quotient of two integers, rounded *)















End NumFacts.

(* ================================================================= *)
(** ** Properties of the scoring engine *)

Section ScoringFacts.
Import Js Scoring Spec.
Import Helpers(Sev, info, low, medium, high, critical).

Lemma sumBy_app {A} (f : A -> Z) (xs ys : list A) :
  sumBy f (List.app xs ys) = sumBy f xs + sumBy f ys.
Proof.
  induction xs as [|x xs IH]; cbn [List.app sumBy fold_right].
  - reflexivity.
  - fold (sumBy f (List.app xs ys)). fold (sumBy f xs). rewrite IH. ring.
Qed.

Lemma sumBy_cons {A} (f : A -> Z) (x : A) (xs : list A) :
  sumBy f (x :: xs) = f x + sumBy f xs.
Proof. reflexivity. Qed.

Lemma sumBy_nonneg {A} (f : A -> Z) (xs : list A) :
  (forall x, 0 <= f x) -> 0 <= sumBy f xs.
Proof.
  intros Hf. induction xs as [|x xs IH]; [cbn; lia|].
  rewrite sumBy_cons. specialize (Hf x). lia.
Qed.

Lemma sumBy_ext_in {A} (f g : A -> Z) (xs : list A) :
  (forall x, In x xs -> f x = g x) -> sumBy f xs = sumBy g xs.
Proof.
  induction xs as [|x xs IH]; intros H; [reflexivity|].
  rewrite !sumBy_cons, (H x (or_introl eq_refl)), IH; [reflexivity|].
  intros y Hy. apply H. right. exact Hy.
Qed.

Lemma sumBy_map {A B} (g : A -> B) (f : B -> Z) (xs : list A) :
  sumBy f (map g xs) = sumBy (fun x => f (g x)) xs.
Proof.
  induction xs as [|x xs IH]; [reflexivity|].
  cbn [map]. rewrite !sumBy_cons, IH. reflexivity.
Qed.

(** *** The score of a category *)

(** The weight of a finding is one of the five numbers, or the text of a
    member of [Object.prototype]. *)
Lemma findingWeight_cases (f : JsVal) :
  (exists t, findingWeight f = PText t)
  \/ In (findingWeight f) [PNum 1; PNum 2; PNum 4; PNum 8; PNum 12].
Proof.
  unfold findingWeight, WEIGHT, WEIGHT_low.
  repeat match goal with
         | |- context [if ?b then _ else _] => destruct b
         end; try (right; cbn; tauto).
  destruct (inheritedText _ _); [left; eexists; reflexivity | right; cbn; tauto].
Qed.

Lemma numeric_weight (f : JsVal) :
  numeric f = true -> findingWeight f = PNum (weighs f) /\ 1 <= weighs f.
Proof.
  unfold numeric, weighs.
  destruct (findingWeight_cases f) as [[t ->]|H]; [discriminate|].
  intros _. cbn in H.
  destruct H as [<-|[<-|[<-|[<-|[<-|[]]]]]]; cbn; split; (reflexivity || lia).
Qed.

Lemma earned_bounds (f : JsVal) : numeric f = true -> 0 <= earned f <= weighs f.
Proof.
  intros H. destruct (numeric_weight f H) as [_ Hw].
  unfold earned. destruct (findingPassed f); lia.
Qed.

Lemma scoreStep_numeric (f : JsVal) (m e : Z) :
  numeric f = true ->
  scoreStep (PNum m, PNum e) f = (PNum (m + weighs f), PNum (e + earned f)).
Proof.
  intros H. destruct (numeric_weight f H) as [Hw _].
  unfold scoreStep, earned. rewrite Hw.
  destruct (findingPassed f); cbn [plus]; [reflexivity|]. rewrite Z.add_0_r. reflexivity.
Qed.

(** The loop of [computeCategoryScore] adds up the weights and the earned
    points as long as every weight is a number. *)
Lemma fold_scoreStep_numeric (fs : list JsVal) :
  forallb numeric fs = true ->
  forall m e,
    fold_left scoreStep fs (PNum m, PNum e)
    = (PNum (m + sumBy weighs fs), PNum (e + sumBy earned fs)).
Proof.
  induction fs as [|f fs IH]; intros H m e.
  - cbn. rewrite !Z.add_0_r. reflexivity.
  - cbn [forallb] in H. apply andb_prop in H as [Hf Hfs].
    cbn [fold_left]. rewrite (scoreStep_numeric f m e Hf), (IH Hfs), !sumBy_cons.
    f_equal; f_equal; ring.
Qed.

Lemma plus_text (s : string) (w : Points) : exists t, plus (PText s) w = PText t.
Proof. destruct w; eexists; reflexivity. Qed.

(** Once [maxPoints] is a text it stays one. *)
Lemma fold_scoreStep_text (fs : list JsVal) :
  forall s ep, exists t ep', fold_left scoreStep fs (PText s, ep) = (PText t, ep').
Proof.
  induction fs as [|f fs IH]; intros s ep; cbn [fold_left].
  - eexists _, _. reflexivity.
  - unfold scoreStep at 2.
    destruct (plus_text s (findingWeight f)) as [t ->]. apply IH.
Qed.

Lemma fold_scoreStep_mixed (fs : list JsVal) :
  forallb numeric fs = false ->
  forall m e, exists t ep, fold_left scoreStep fs (PNum m, PNum e) = (PText t, ep).
Proof.
  induction fs as [|f fs IH]; intros H m e; [discriminate|].
  cbn [forallb] in H. cbn [fold_left].
  destruct (numeric f) eqn:Hf.
  - rewrite (scoreStep_numeric f m e Hf). apply IH. exact H.
  - unfold numeric in Hf. unfold scoreStep at 2.
    destruct (findingWeight f) as [n|s]; [discriminate|].
    cbn [plus textOf]. apply fold_scoreStep_text.
Qed.

(** [earnedPoints] is a number whenever [maxPoints] is one. *)
Lemma earned_is_number (fs : list JsVal) (m : Z) :
  fst (fold_left scoreStep fs (PNum 0, PNum 0)) = PNum m ->
  exists e, snd (fold_left scoreStep fs (PNum 0, PNum 0)) = PNum e.
Proof.
  destruct (forallb numeric fs) eqn:H.
  - rewrite (fold_scoreStep_numeric fs H). intros _. eexists. reflexivity.
  - destruct (fold_scoreStep_mixed fs H 0 0) as (t & ep & ->). discriminate.
Qed.

Lemma computeCategoryScore_numeric (fs : list JsVal) :
  forallb numeric fs = true ->
  computeCategoryScore (JArr fs) =
    {| score := match fs with
                | [] => 100
                | _ :: _ => Num.roundPercent (sumBy earned fs) (sumBy weighs fs)
                end;
       maxPoints := PNum (sumBy weighs fs);
       earnedPoints := PNum (sumBy earned fs) |}.
Proof.
  intros H. destruct fs as [|f fs]; [reflexivity|].
  unfold computeCategoryScore. rewrite (fold_scoreStep_numeric _ H). rewrite !Z.add_0_l.
  assert (Hpos : (0 <? sumBy weighs (f :: fs)) = true).
  { apply Z.ltb_lt. cbn [forallb] in H. apply andb_prop in H as [Hf Hfs].
    rewrite sumBy_cons. destruct (numeric_weight f Hf) as [_ Hw].
    assert (0 <= sumBy weighs fs); [|lia].
    clear Hf Hw. induction fs as [|g fs IH]; [cbn; lia|].
    cbn [forallb] in Hfs. apply andb_prop in Hfs as [Hg Hfs].
    rewrite sumBy_cons. destruct (numeric_weight g Hg) as [_ Hw]. specialize (IH Hfs). lia. }
  unfold ratioScore. rewrite Hpos. reflexivity.
Qed.

(** With a severity that names a member of [Object.prototype], [maxPoints]
    is a text and the score is 100. *)
Lemma computeCategoryScore_mixed (fs : list JsVal) :
  forallb numeric fs = false ->
  score (computeCategoryScore (JArr fs)) = 100
  /\ exists t, maxPoints (computeCategoryScore (JArr fs)) = PText t.
Proof.
  intros H. destruct fs as [|f fs]; [discriminate|].
  unfold computeCategoryScore.
  destruct (fold_scoreStep_mixed (f :: fs) H 0 0) as (t & ep & ->).
  cbn [score maxPoints ratioScore]. split; [reflexivity | eexists; reflexivity].
Qed.

Lemma findingWeight_typed (s : Sev) (st : string) :
  findingWeight (finding (Runner.sevName s) st) = PNum (weight s).
Proof. destruct s; reflexivity. Qed.

Lemma findingPassed_typed (sev st : string) :
  findingPassed (finding sev st) = (st =? "pass")%string.
Proof. reflexivity. Qed.

Lemma typedFindings_numeric (xs : list (Sev * string)) :
  forallb numeric (typedFindings xs) = true.
Proof.
  induction xs as [|[s st] xs IH]; [reflexivity|].
  cbn [typedFindings map forallb fst snd]. unfold numeric at 1.
  rewrite findingWeight_typed. exact IH.
Qed.

Lemma typedFindings_sums (xs : list (Sev * string)) :
  sumBy weighs (typedFindings xs) = sumBy (fun x => weight (fst x)) xs
  /\ sumBy earned (typedFindings xs) = sumBy earnedOf xs.
Proof.
  unfold typedFindings. rewrite !sumBy_map. split; apply sumBy_ext_in; intros [s st] _.
  - unfold weighs. cbn [fst snd]. rewrite findingWeight_typed. reflexivity.
  - unfold earned, earnedOf, weighs. cbn [fst snd].
    rewrite findingPassed_typed, findingWeight_typed. reflexivity.
Qed.

Lemma findingPassed_iff (f : JsVal) :
  findingPassed f = true <-> optProp f "status" = JStr "pass".
Proof.
  unfold findingPassed, isStr.
  destruct (optProp f "status"); try (split; [discriminate|discriminate]).
  split.
  - intros H. apply String.eqb_eq in H. now subst.
  - intros H. injection H as ->. reflexivity.
Qed.

(** C1.  The score of a category is [Math.round((earnedPoints / maxPoints) *
    100)] evaluated in binary64, which is not always the rounded ratio the
    claim and the function's own comment give: seven findings that earn 23
    points of 40 score 57, where 23 / 40 * 100 = 57.5 rounds to 58.  The
    rest of the claim holds: for findings whose severity is one of the five,
    [maxPoints] is the sum of the weights 1, 2, 4, 8 and 12 and
    [earnedPoints] the sum of the weights of the findings whose status is
    ['pass']; no finding gives score 100 with [maxPoints] 0; and a failed
    critical finding with a passed info finding gives 13, 1 and score 8. *)
Theorem category_score_rounds_binary64_ratio :
  computeCategoryScore
    (JArr [ finding "critical" "pass"; finding "critical" "fail"; finding "high" "pass";
            finding "medium" "fail"; finding "low" "pass"; finding "info" "pass";
            finding "info" "fail" ])
  = {| score := 57; maxPoints := PNum 40; earnedPoints := PNum 23 |}
  /\ roundHalfUp (23 * 100) 40 = 58
  /\ (forall xs : list (Sev * string),
         computeCategoryScore (JArr (typedFindings xs)) =
           {| score := match xs with
                       | [] => 100
                       | _ :: _ => Num.roundPercent (sumBy earnedOf xs)
                                                    (sumBy (fun x => weight (fst x)) xs)
                       end;
              maxPoints := PNum (sumBy (fun x => weight (fst x)) xs);
              earnedPoints := PNum (sumBy earnedOf xs) |})
  /\ computeCategoryScore (JArr [])
     = {| score := 100; maxPoints := PNum 0; earnedPoints := PNum 0 |}
  /\ computeCategoryScore (JArr [finding "critical" "fail"; finding "info" "pass"])
     = {| score := 8; maxPoints := PNum 13; earnedPoints := PNum 1 |}.
Proof.
  split; [vm_compute; reflexivity|].
  split; [vm_compute; reflexivity|].
  split.
  { intros xs. rewrite (computeCategoryScore_numeric _ (typedFindings_numeric xs)).
    destruct (typedFindings_sums xs) as [-> ->].
    destruct xs; reflexivity. }
  split; [reflexivity|].
  vm_compute. reflexivity.
Qed.

(** Binary64 rounds twice in [earned / max * 100]: 29 points of 200 are
    14.499999999999998 percent, and the score is 14, not 15. *)
Example score_of_29_in_200 : Num.roundPercent 29 200 = 14 /\ roundHalfUp (29 * 100) 200 = 15.
Proof. split; vm_compute; reflexivity. Qed.

(** *** The overall score *)


Lemma categoryWeight_max (c : CategoryWeight) : categoryWeight c = Z.max 0 (maxPointsOf c).
Proof. reflexivity. Qed.

Lemma categoryWeight_of_nonneg (c : CategoryWeight) :
  0 <= maxPointsOf c -> categoryWeight c = maxPointsOf c.
Proof. unfold categoryWeight, maxPointsOf. destruct (_maxPoints c); lia. Qed.

Lemma overallStep_zero (acc : float * float) (c : CategoryWeight) :
  categoryWeight c = 0 -> overallStep acc c = acc.
Proof. intros H. destruct acc. unfold overallStep. rewrite H. reflexivity. Qed.













(** The division rounds as well: with the sums exact but the weighted sum
    above 2^52, [3 * 2^51 + 1] over 3 is 2^51 + 1/3, which binary64 holds as
    2^51 + 1/2, and the overall score is 2^51 + 1. *)
Example overall_score_quotient_above_2_52 :
  computeOverallScore [category (3 * 2 ^ 50) 2; category 1 1] = 2 ^ 51 + 1
  /\ roundHalfUp (3 * 2 ^ 50 * 2 + 1 * 1) (2 + 1) = 2 ^ 51.
Proof. split; vm_compute; reflexivity. Qed.

(** *** A category that weighs nothing *)

(** The sum of the weights is positive, at any magnitude, once a positive
    weight has been added. *)
Lemma fold_overallStep_total (cs : list CategoryWeight) :
  forall wt tw,
    Prim2SF tw = S754_zero false \/ Num.positiveFloat (Prim2SF tw) ->
    Num.positiveFloat (Prim2SF tw) \/ Exists (fun c => 0 < categoryWeight c) cs ->
    Num.positiveFloat (Prim2SF (snd (fold_left overallStep cs (wt, tw)))).
Proof.
  induction cs as [|c cs IH]; intros wt tw H0 H1.
  - destruct H1 as [H1|H1]; [exact H1 | inversion H1].
  - cbn [fold_left]. unfold overallStep at 2.
    destruct (Z.ltb_spec 0 (categoryWeight c)) as [Hpos|Hz].
    + assert (Hp : Num.positiveFloat
                     (Prim2SF (PrimFloat.add tw (Num.ofZ (categoryWeight c))))).
      { rewrite add_spec. apply SFadd_positive; [exact H0 | apply ofZ_positive; exact Hpos]. }
      apply IH; [right; exact Hp | left; exact Hp].
    + apply IH; [exact H0|].
      destruct H1 as [H1|H1]; [left; exact H1|].
      inversion H1 as [? ? Hc | ? ? Hc]; subst; [lia | right; exact Hc].
Qed.

Lemma computeOverallScore_positive (cs : list CategoryWeight) :
  Exists (fun c => 0 < categoryWeight c) cs ->
  computeOverallScore cs
  = Num.Math_round
      (PrimFloat.div
         (fst (fold_left overallStep cs (PrimFloat.zero, PrimFloat.zero)))
         (snd (fold_left overallStep cs (PrimFloat.zero, PrimFloat.zero)))).
Proof.
  intros Hex.
  pose proof (fold_overallStep_total cs PrimFloat.zero PrimFloat.zero
                (or_introl eq_refl) (or_intror Hex)) as Hp.
  destruct cs as [|c cs]; [inversion Hex|].
  unfold computeOverallScore.
  destruct (fold_left overallStep (c :: cs) (PrimFloat.zero, PrimFloat.zero)) as [wt tw].
  cbn [fst snd] in *. cbv beta iota. rewrite (ltb_positive tw Hp). reflexivity.
Qed.

(** C7, as the code has it.  When some category of the list has a positive
    [maxPoints], inserting anywhere a category whose [maxPoints] is 0,
    whatever its score, leaves the overall score as it was. *)
Theorem zero_weight_category_is_neutral :
  forall (before after : list CategoryWeight) (c : CategoryWeight),
    Exists (fun c' => 0 < maxPointsOf c') (List.app before after) ->
    maxPointsOf c = 0 ->
    computeOverallScore (List.app before (c :: after))
    = computeOverallScore (List.app before after).
Proof.
  intros before after c Hex Hc.
  assert (Hc0 : categoryWeight c = 0).
  { rewrite categoryWeight_of_nonneg; lia. }
  assert (Hex' : Exists (fun c' => 0 < categoryWeight c') (List.app before after)).
  { eapply Exists_impl; [|exact Hex].
    intros a Ha. cbv beta in *. rewrite categoryWeight_of_nonneg; lia. }
  assert (Hex'' : Exists (fun c' => 0 < categoryWeight c') (List.app before (c :: after))).
  { apply Exists_app in Hex'. apply Exists_app.
    destruct Hex' as [H|H]; [left; exact H | right; apply Exists_cons_tl; exact H]. }
  assert (Hfold : fold_left overallStep (List.app before (c :: after))
                    (PrimFloat.zero, PrimFloat.zero)
                  = fold_left overallStep (List.app before after)
                      (PrimFloat.zero, PrimFloat.zero)).
  { rewrite !fold_left_app. cbn [fold_left].
    rewrite (overallStep_zero _ c Hc0). reflexivity. }
  rewrite (computeOverallScore_positive _ Hex''), (computeOverallScore_positive _ Hex').
  rewrite Hfold. reflexivity.
Qed.

Lemma zero_weight_category_is_neutral_witness :
  computeOverallScore [category 100 10; category 37 0; category 0 30] = 25.
Proof.
  refine (eq_trans
            (zero_weight_category_is_neutral
               [category 100 10] [category 0 30] (category 37 0) _ _) _).
  - apply Exists_cons_hd. cbn. lia.
  - reflexivity.
  - vm_compute. reflexivity.
Defined.

(** C7 as stated fails when no category has a positive [maxPoints]: the
    score 100 of one such category becomes 50 when a second one, with score 0
    and [maxPoints] 0, is added. *)
Lemma zero_weight_category_changes_plain_mean :
  maxPointsOf (category 0 0) = 0
  /\ computeOverallScore [category 100 0] = 100
  /\ computeOverallScore (List.app [category 100 0] [category 0 0]) = 50.
Proof. repeat split; vm_compute; reflexivity. Qed.

(** *** The order of the findings *)

Lemma sumBy_perm {A} (f : A -> Z) (xs ys : list A) :
  Permutation xs ys -> sumBy f xs = sumBy f ys.
Proof.
  induction 1 as [ | x xs ys _ IH | x y xs | xs ys zs _ IH1 _ IH2 ].
  - reflexivity.
  - rewrite !sumBy_cons, IH. reflexivity.
  - rewrite !sumBy_cons. ring.
  - rewrite IH1. exact IH2.
Qed.

Lemma forallb_perm {A} (p : A -> bool) (xs ys : list A) :
  Permutation xs ys -> forallb p xs = forallb p ys.
Proof.
  induction 1 as [ | x xs ys _ IH | x y xs | xs ys zs _ IH1 _ IH2 ]; cbn [forallb].
  - reflexivity.
  - rewrite IH. reflexivity.
  - destruct (p x), (p y); reflexivity.
  - rewrite IH1. exact IH2.
Qed.

(** The order of the findings does not matter to the score of a category,
    nor to its [maxPoints] and [earnedPoints] as long as these are numbers,
    that is, as long as no severity names a member of [Object.prototype]. *)
Theorem category_score_ignores_order :
  forall fs fs' : list JsVal,
    Permutation fs fs' ->
    score (computeCategoryScore (JArr fs)) = score (computeCategoryScore (JArr fs'))
    /\ (forallb numeric fs = true ->
        computeCategoryScore (JArr fs) = computeCategoryScore (JArr fs')).
Proof.
  intros fs fs' Hp.
  assert (Hnum : forallb numeric fs = true ->
                 computeCategoryScore (JArr fs) = computeCategoryScore (JArr fs')).
  { intros H.
    assert (H' : forallb numeric fs' = true) by (rewrite <- (forallb_perm _ _ _ Hp); exact H).
    rewrite (computeCategoryScore_numeric fs H), (computeCategoryScore_numeric fs' H').
    rewrite (sumBy_perm weighs fs fs' Hp), (sumBy_perm earned fs fs' Hp).
    destruct fs as [|f fs], fs' as [|f' fs']; try reflexivity.
    - apply Permutation_nil in Hp. discriminate.
    - apply Permutation_sym, Permutation_nil in Hp. discriminate. }
  split; [|exact Hnum].
  destruct (forallb numeric fs) eqn:H.
  - rewrite (Hnum eq_refl). reflexivity.
  - assert (H' : forallb numeric fs' = false) by (rewrite <- (forallb_perm _ _ _ Hp); exact H).
    destruct (computeCategoryScore_mixed fs H) as [-> _].
    destruct (computeCategoryScore_mixed fs' H') as [-> _]. reflexivity.
Qed.

Lemma category_score_ignores_order_witness :
  score (computeCategoryScore (JArr [finding "toString" "fail"; finding "info" "pass"]))
  = score (computeCategoryScore (JArr [finding "info" "pass"; finding "toString" "fail"]))
  /\ computeCategoryScore (JArr [finding "critical" "fail"; finding "info" "pass"])
     = computeCategoryScore (JArr [finding "info" "pass"; finding "critical" "fail"]).
Proof.
  split.
  - apply (category_score_ignores_order
             [finding "toString" "fail"; finding "info" "pass"]
             [finding "info" "pass"; finding "toString" "fail"]).
    apply perm_swap.
  - apply (category_score_ignores_order
             [finding "critical" "fail"; finding "info" "pass"]
             [finding "info" "pass"; finding "critical" "fail"]);
      [apply perm_swap | reflexivity].
Defined.

(** With a severity that names a member of [Object.prototype] the order
    shows in [maxPoints], a text put together from left to right. *)
Example category_points_follow_order :
  maxPoints (computeCategoryScore (JArr [finding "toString" "fail"; finding "info" "pass"]))
  = PText "0function toString() { [native code] }1"
  /\ maxPoints (computeCategoryScore (JArr [finding "info" "pass"; finding "toString" "fail"]))
     = PText "1function toString() { [native code] }".
Proof. split; vm_compute; reflexivity. Qed.

End ScoringFacts.

(* ================================================================= *)
(** ** Properties of the helpers *)

Section HelpersFacts.
Import Helpers Spec.

Lemma DEDUCT_nonneg (s : Sev) : 0 <= DEDUCT s.
Proof. destruct s; cbn; lia. Qed.

Lemma orZero_id (n : Z) : orZero n = n.
Proof. unfold orZero. destruct (n =? 0) eqn:E; [apply Z.eqb_eq in E; lia | reflexivity]. Qed.

Lemma cost_nonneg (f : ScoreItem) : 0 <= cost f.
Proof. unfold cost. destruct (status f =? "fail")%string; [apply DEDUCT_nonneg | lia]. Qed.

(** The loop of [applyScore] subtracts the cost of each finding in turn. *)
Lemma fold_applyStep (fs : list ScoreItem) :
  forall s, fold_left applyStep fs s = s - sumBy cost fs.
Proof.
  induction fs as [|f fs IH]; intros s.
  - cbn. ring.
  - cbn [fold_left]. rewrite IH, sumBy_cons.
    unfold applyStep, cost, deduction. rewrite orZero_id.
    destruct (status f =? "fail")%string; ring.
Qed.

Lemma cost_of_failed (fs : list ScoreItem) :
  sumBy cost (filter (fun f => (status f =? "fail")%string) fs) = sumBy cost fs.
Proof.
  induction fs as [|f fs IH]; [reflexivity|].
  cbn [filter]. destruct (status f =? "fail")%string eqn:E.
  - rewrite !sumBy_cons, IH. reflexivity.
  - rewrite sumBy_cons, IH. unfold cost at 2. rewrite E. ring.
Qed.

(** C9.  [applyScore] is 100 minus the sum, over the findings whose status
    is ['fail'], of the deduction fixed for the finding's severity (0, 2, 6,
    12, 20; 0 when it has none), brought into [0, 100]; as the deductions are
    not negative this is the floor at 0; and the findings of any other
    status can be left out without changing the score. *)
Theorem applyScore_is_floored_deduction :
  (forall fs, applyScore fs = Z.max 0 (Z.min 100 (100 - sumBy cost fs)))
  /\ (forall fs, applyScore fs = Z.max 0 (100 - sumBy cost fs))
  /\ (forall fs, 0 <= applyScore fs <= 100)
  /\ (forall fs, applyScore (filter (fun f => (status f =? "fail")%string) fs) = applyScore fs)
  /\ (forall (st : string) (sev : option Sev),
         cost {| status := st; severity := sev |} =
           if (st =? "fail")%string
           then match sev with
                | Some info | None => 0
                | Some low => 2
                | Some medium => 6
                | Some high => 12
                | Some critical => 20
                end
           else 0).
Proof.
  assert (H1 : forall fs, applyScore fs = Z.max 0 (Z.min 100 (100 - sumBy cost fs))).
  { intros fs. unfold applyScore. rewrite fold_applyStep. reflexivity. }
  assert (Hn : forall fs, 0 <= sumBy cost fs).
  { intros fs. apply sumBy_nonneg, cost_nonneg. }
  split; [exact H1|].
  split; [intros fs; rewrite H1; specialize (Hn fs); lia|].
  split; [intros fs; rewrite H1; specialize (Hn fs); lia|].
  split; [intros fs; rewrite !H1, cost_of_failed; reflexivity|].
  intros st sev. unfold cost. cbn [status severity].
  destruct (st =? "fail")%string; [|reflexivity].
  destruct sev as [[]|]; reflexivity.
Qed.

(** C10.  [ok] never touches the [RegExp] it is given and never reads its
    [lastIndex]: the object is the same after the call, the answer is the
    same whatever [lastIndex] holds, so a second call answers as the first;
    and the answer is [false] for a [null], [undefined] or empty text.  This
    holds for every matcher and every flags, [g] and [y] included. *)
Theorem ok_is_stateless :
  forall (E : Engine) (re : RegExp) (text : option string),
    snd (ok E re text) = re
    /\ (forall i : nat, fst (ok E (setLastIndex i re) text) = fst (ok E re text))
    /\ fst (ok E (snd (ok E re text)) text) = fst (ok E re text)
    /\ ok E re None = (false, re)
    /\ ok E re (Some EmptyString) = (false, re).
Proof.
  intros E re text.
  assert (Hsnd : forall r t, snd (ok E r t) = r).
  { intros r t. unfold ok. destruct t as [t|]; [|reflexivity].
    destruct (t =? EmptyString)%string; [reflexivity|].
    destruct (newRegExp E (source r) (dropFirst "g" (flags r))); reflexivity. }
  split; [apply Hsnd|].
  split.
  { intros i. unfold ok. destruct text as [t|]; [|reflexivity].
    destruct (t =? EmptyString)%string; [reflexivity|].
    cbn [setLastIndex source flags].
    destruct (newRegExp E (source re) (dropFirst "g" (flags re))); reflexivity. }
  split; [rewrite Hsnd; reflexivity|].
  split; reflexivity.
Qed.

(** By contrast [test] on a pattern with the [g] flag answers [true] and
    then [false] for the same text, while [ok] answers [true] both times. *)
Example test_with_g_is_stateful :
  let re := {| source := "ab"; flags := "g"; lastIndex := 0 |} in
  let '(first, re1) := test literalEngine re "xxabxx" in
  let '(second, _) := test literalEngine re1 "xxabxx" in
  first = true /\ second = false
  /\ fst (ok literalEngine re (Some "xxabxx")) = true
  /\ fst (ok literalEngine re1 (Some "xxabxx")) = true.
Proof. vm_compute. repeat split. Qed.

End HelpersFacts.

(* ================================================================= *)
(** ** Properties of the runner *)

Section RunnerFacts.
Import Js Eff Runner Spec.
Import Helpers(Sev, info, low, medium, high, critical).
Local Open Scope run_scope.

(** *** How a computation ends, leaving its events aside *)

Lemma snd_bind {A B} (m : Run A) (k : A -> Run B) :
  snd (bind m k) = match snd m with
                   | Ok a => snd (k a)
                   | Thrown e => Thrown e
                   end.
Proof. destruct m as [t [a|e]]; cbn; [destruct (k a) | ]; reflexivity. Qed.

Lemma snd_tryCatch {A} (m : Run A) (h : JsVal -> Run A) :
  snd (tryCatch m h) = match snd m with
                       | Ok a => Ok a
                       | Thrown e => snd (h e)
                       end.
Proof. destruct m as [t [a|e]]; cbn; [ | destruct (h e)]; reflexivity. Qed.

Lemma statOrNull_eq (w : World) (p : string) :
  statOrNull w p = ([EvStat p], Ok (stat w p)).
Proof. unfold statOrNull, fsStat. destruct (stat w p); reflexivity. Qed.

Lemma snd_dynamicImport (w : World) (spec p : string) :
  snd (dynamicImport w spec p) =
    match stat w p with
    | Some KFile => load w p
    | _ => Thrown (JErr "Error" ("Cannot find module " ++ quote ++ p ++ quote))
    end.
Proof.
  unfold dynamicImport. rewrite snd_bind. cbn [emit snd].
  destruct (stat w p) as [[]|]; reflexivity.
Qed.

Lemma snd_tryFile (w : World) (abs : string) :
  snd (tryFile w abs) =
    match stat w abs with
    | Some KFile =>
        match load w abs with
        | Ok m => Ok (Some m)
        | Thrown e => Thrown e
        end
    | _ => Ok None
    end.
Proof.
  unfold tryFile. rewrite snd_bind, statOrNull_eq. cbn [snd].
  destruct (stat w abs) as [[]|] eqn:E; try reflexivity.
  rewrite snd_bind, snd_dynamicImport, E.
  destruct (load w abs); reflexivity.
Qed.

(** *** Loading never throws *)

Lemma tryFiles_returns (w : World) (cands : list string) :
  forall tr er, exists r, snd (tryFiles w cands tr er) = Ok r.
Proof.
  induction cands as [|abs rest IH]; intros tr er; cbn [tryFiles].
  - eexists. reflexivity.
  - rewrite snd_bind, snd_tryCatch, snd_bind, snd_tryFile.
    destruct (stat w abs) as [[]|]; cbn [snd ret]; try apply IH.
    destruct (load w abs); cbn [snd ret]; [eexists; reflexivity | apply IH].
Qed.

Lemma tryBare_returns (w : World) (stem : string) (es : list string) :
  forall tr er, exists r, snd (tryBare w stem es tr er) = Ok r.
Proof.
  induction es as [|ext rest IH]; intros tr er; cbn [tryBare].
  - eexists. reflexivity.
  - rewrite snd_bind, snd_tryCatch, snd_bind, snd_dynamicImport.
    match goal with
    | |- context [stat w ?p] => destruct (stat w p) as [[]|]
    end; cbn [snd ret]; try apply IH.
    match goal with
    | |- context [load w ?p] => destruct (load w p)
    end; cbn [snd ret]; [eexists; reflexivity | apply IH].
Qed.

Lemma importAnalyzerModule_returns (w : World) (stem : string) :
  exists r, snd (importAnalyzerModule w stem) = Ok r.
Proof.
  unfold importAnalyzerModule. rewrite snd_bind.
  destruct (tryFiles_returns w (analyzerCandidates w stem) [] []) as [r Hr].
  rewrite Hr. destruct (mod_ r).
  - eexists. reflexivity.
  - apply tryBare_returns.
Qed.

(** *** What one analyzer contributes *)

Lemma runAnalyzer_value (w : World) (entry : Entry.t) (target : string) (r : Imported) :
  snd (importAnalyzerModule w (Entry.stem entry)) = Ok r ->
  snd (runAnalyzer w entry target) = Ok (ranFrom entry target r).
Proof.
  intros Hr. unfold runAnalyzer, ranFrom. rewrite snd_bind, Hr.
  destruct (mod_ r) as [m|]; [|reflexivity].
  rewrite snd_tryCatch.
  destruct (pickFunction m (Entry.fnName entry)) as [fn|]; [|reflexivity].
  rewrite snd_bind. unfold invoke. rewrite snd_bind. cbn [emit snd].
  unfold categoryOf.
  destruct (fn target) as [v|e|e]; cbn [snd ret throw]; try reflexivity.
  rewrite snd_bind. cbn [lift snd].
  destruct (normalizeCategory entry v); reflexivity.
Qed.

(** [runAnalyzer] never throws: every failure of loading or running an
    analyzer ends in the value it returns. *)
Lemma runAnalyzer_returns (w : World) (entry : Entry.t) (target : string) :
  snd (runAnalyzer w entry target) = Ok (ranOf w target entry).
Proof.
  destruct (importAnalyzerModule_returns w (Entry.stem entry)) as [r Hr].
  pose proof (runAnalyzer_value w entry target r Hr) as H.
  unfold ranOf. rewrite H. reflexivity.
Qed.



(** *** The loop and the audit *)

Lemma runAll_value (w : World) (target : string) (entries : list Entry.t) :
  forall cats issues,
    snd (runAll w entries target cats issues)
    = Ok (List.app cats (catsOf w target entries), List.app issues (issuesOf w target entries)).
Proof.
  induction entries as [|e rest IH]; intros cats issues; cbn [runAll].
  - cbn. rewrite !app_nil_r. reflexivity.
  - rewrite snd_bind, runAnalyzer_returns, IH.
    unfold catsOf, issuesOf. cbn [flat_map].
    destruct (cat (ranOf w target e)), (loadIssue (ranOf w target e));
      unfold push; cbn [optList]; rewrite <- ?app_assoc; reflexivity.
Qed.

Lemma snd_output (ev : Event) (o : option JsVal) :
  snd (output ev o) = match o with
                      | None => Ok tt
                      | Some e => Thrown e
                      end.
Proof. destruct o; reflexivity. Qed.

(** With a directory as target, [runAudit] returns [resultOf] unless a call
    of the output step fails, and then throws what that call threw. *)
Lemma runAuditWith_value (registry : list Entry.t) (w : World) (target : string)
  (options : RunOptions) :
  stat w target = Some KDir ->
  snd (runAuditWith registry w target options)
  = match outputFailure w options (resultOf registry w target) with
    | None => Ok (resultOf registry w target)
    | Some e => Thrown e
    end.
Proof.
  intros Hdir. unfold runAuditWith.
  rewrite snd_bind, statOrNull_eq. cbn [snd]. rewrite Hdir.
  rewrite snd_bind, runAll_value. cbn [List.app].
  fold (outDirOf w options).
  change (match issuesOf w target registry with
          | [] => catsOf w target registry
          | _ :: _ => loadCategory (issuesOf w target registry) :: catsOf w target registry
          end) with (assembled w target registry).
  fold (resultOf registry w target).
  unfold outputFailure.
  rewrite snd_bind, snd_output.
  destruct (mkdir w (outDirOf w options)); [reflexivity|].
  rewrite snd_bind.
  destruct (optWriteHtml options) as [[]|]; cbn [snd ret];
    rewrite ?snd_output;
    try (destruct (writeHtml w (resultOf registry w target) (outDirOf w options));
         [reflexivity|]);
    rewrite snd_bind;
    (destruct (optWriteJson options) as [[]|]; cbn [snd ret];
       rewrite ?snd_output;
       try (destruct (writeFile w (pathJoin w [outDirOf w options; "report.json"])
                        (resultOf registry w target)));
       reflexivity).
Qed.

Lemma runAuditWith_rejects (registry : list Entry.t) (w : World) (target : string)
  (options : RunOptions) :
  stat w target <> Some KDir ->
  runAuditWith registry w target options
  = ([EvStat target], Thrown (JErr "Error" ("Target directory not found: " ++ target))).
Proof.
  intros Hdir. unfold runAuditWith. rewrite statOrNull_eq.
  destruct (stat w target) as [[]|]; try reflexivity. congruence.
Qed.




(** *** Severity and status that are not recognised *)




Lemma earned_not_passed (f : JsVal) :
  optProp f "status" <> JStr "pass" -> earned f = 0.
Proof.
  intros H. unfold earned.
  destruct (Scoring.findingPassed f) eqn:E; [|reflexivity].
  apply findingPassed_iff in E. contradiction.
Qed.




Lemma mapRes_Forall {A B} (f : A -> Res B) (P : B -> Prop) (xs : list A) :
  (forall x y, f x = Ok y -> P y) ->
  forall ys, mapRes f xs = Ok ys -> Forall P ys.
Proof.
  intros HP. induction xs as [|x xs IH]; intros ys H; cbn [mapRes] in H.
  - injection H as <-. constructor.
  - destruct (f x) as [y|e] eqn:Ex; [|discriminate].
    destruct (mapRes f xs) as [ys'|e]; [|discriminate].
    injection H as <-. constructor; [eapply HP; eassumption | apply IH; reflexivity].
Qed.





(** *** Categories and load issues of a run *)







Lemma runAuditWith_result (registry : list Entry.t) (w : World) (target : string)
  (options : RunOptions) (result : AuditResult) :
  snd (runAuditWith registry w target options) = Ok result ->
  stat w target = Some KDir /\ result = resultOf registry w target.
Proof.
  intros H.
  assert (Hs : stat w target = Some KDir).
  { destruct (stat w target) as [[]|] eqn:E; try reflexivity;
      rewrite runAuditWith_rejects in H by congruence; discriminate H. }
  split; [exact Hs|].
  rewrite (runAuditWith_value registry w target options Hs) in H.
  destruct (outputFailure w options (resultOf registry w target)); congruence.
Qed.




(** *** Analyzers that fail when invoked *)






(** *** Analyzers that cannot be loaded *)














(** *** The scores in the result *)

Lemma findingToJs_weight (f : Finding.t) :
  Scoring.findingWeight (findingToJs f) = Scoring.PNum (weight (Finding.severity f)).
Proof. destruct f as [i t m sg sev st fl ar]. destruct sev; reflexivity. Qed.

(** The [maxPoints] of the findings of a category is a number, the sum of
    the weights of their severities. *)
Lemma maxPoints_of_category (fs : list Finding.t) :
  Scoring.maxPoints (Scoring.computeCategoryScore (JArr (map findingToJs fs)))
  = Scoring.PNum (sumBy (fun f => weight (Finding.severity f)) fs).
Proof.
  assert (Hnum : forallb numeric (map findingToJs fs) = true).
  { induction fs as [|f fs IH]; [reflexivity|].
    cbn [map forallb]. unfold numeric at 1. rewrite findingToJs_weight. exact IH. }
  rewrite (computeCategoryScore_numeric _ Hnum). cbn [Scoring.maxPoints]. f_equal.
  rewrite sumBy_map. apply sumBy_ext_in. intros f _.
  unfold weighs. rewrite findingToJs_weight. reflexivity.
Qed.

Lemma findingToJs_passed (f : Finding.t) :
  Scoring.findingPassed (findingToJs f) = (Finding.status f =? "pass")%string.
Proof. reflexivity. Qed.

(** Every category of a result carries the score and the [maxPoints] that
    [computeCategoryScore] gives its findings, [maxPoints] being the sum of the
    weights of their severities, and the overall score is
    [computeOverallScore] of these categories. *)
Theorem result_scores_are_consistent :
  forall registry w target options result,
    snd (runAuditWith registry w target options) = Ok result ->
    Forall (fun c =>
              Category.score c
              = Some (Scoring.score
                        (Scoring.computeCategoryScore
                           (JArr (map findingToJs (Category.findings c)))))
              /\ Category._maxPoints c
                 = Some (sumBy (fun f => weight (Finding.severity f)) (Category.findings c)))
           (categories result)
    /\ overallScore result = Scoring.computeOverallScore (map weightOf (categories result)).
Proof.
  intros registry w target options result H.
  apply runAuditWith_result in H. destruct H as [_ ->].
  cbn [resultOf categories overallScore]. split; [|reflexivity].
  apply Forall_forall. intros c Hc. apply in_map_iff in Hc.
  destruct Hc as (c0 & <- & _). cbn [scoreCategory Category.score Category._maxPoints
                                      Category.findings].
  split; [reflexivity|]. f_equal.
  rewrite maxPoints_of_category. reflexivity.
Qed.

Lemma result_scores_are_consistent_witness :
  overallScore (resultOf [Demo.configEntry; Demo.depsEntry; Demo.coreEntry]
                         Demo.mixedWorld "/proj")
  = Scoring.computeOverallScore
      [category 8 13; category 0 8; category 0 8].
Proof.
  destruct (result_scores_are_consistent
              [Demo.configEntry; Demo.depsEntry; Demo.coreEntry]
              Demo.mixedWorld "/proj" Demo.noOptions
              (resultOf [Demo.configEntry; Demo.depsEntry; Demo.coreEntry]
                        Demo.mixedWorld "/proj")) as [_ H].
  - vm_compute. reflexivity.
  - rewrite H. vm_compute. reflexivity.
Defined.

(** *** The order of the calls *)














End RunnerFacts.

(* ================================================================= *)
(** ** Properties of the cached file access and of the walks *)

Section FilesFacts.
Import Eff Files.
Local Open Scope nat_scope.

Lemma mapGet_set_same {V} (m : Map V) (k : string) (v : V) :
  mapGet (mapSet m k v) k = Some v.
Proof. cbn. rewrite String.eqb_refl. reflexivity. Qed.

Lemma mapGet_set_other {V} (m : Map V) (k k' : string) (v : V) :
  k' <> k -> mapGet (mapSet m k v) k' = mapGet m k'.
Proof.
  intros H. cbn. destruct (String.eqb_spec k' k); [contradiction | reflexivity].
Qed.

(** [exists] asks the disk once per path: whatever the first call answered
    is what every later call answers, without any [stat], even on a disk
    where the path has appeared or vanished since; a call never touches the
    file cache nor the cached answer of another path, and on a path without
    cached answer it says whether [stat] shows a file or a directory. *)
Theorem exists_answers_from_its_cache :
  forall (d d' : Disk) (p : string) (c : Caches),
    let '(ev1, b1, c1) := exists_ d p c in
    let '(ev2, b2, c2) := exists_ d' p c1 in
    ev2 = [] /\ b2 = b1 /\ c2 = c1
    /\ fileCache c1 = fileCache c
    /\ (forall q, q <> p -> mapGet (statCache c1) q = mapGet (statCache c) q)
    /\ (mapGet (statCache c) p = None -> ev1 = [DidStat p] /\ b1 = onDisk d p).
Proof.
  intros d d' p c. unfold exists_.
  destruct (mapGet (statCache c) p) as [b|] eqn:E.
  - rewrite E. repeat split; try reflexivity; discriminate.
  - cbn [statCache fileCache]. rewrite mapGet_set_same.
    repeat split; try reflexivity.
    intros q Hq. apply mapGet_set_other. exact Hq.
Qed.

(** [readFile] reads a path once: the first text, the empty one of a
    failed read included, is what every later call returns, without reading
    again, whatever the disk then holds and whatever encoding is asked for;
    for an absent or empty path it returns the empty text and touches
    neither disk nor cache. *)
Theorem readFile_answers_from_its_cache :
  (forall (d d' : Disk) (p enc enc' : string) (c : Caches),
      p <> EmptyString ->
      let '(ev1, t1, c1) := readFile d (Some p) enc c in
      let '(ev2, t2, c2) := readFile d' (Some p) enc' c1 in
      ev2 = [] /\ t2 = t1 /\ c2 = c1
      /\ statCache c1 = statCache c
      /\ (mapGet (fileCache c) p = None ->
          ev1 = [DidRead p]
          /\ t1 = match diskRead d p with
                  | Some data => decode d enc data
                  | None => EmptyString
                  end))
  /\ (forall d enc c,
         readFile d None enc c = ([], EmptyString, c)
         /\ readFile d (Some EmptyString) enc c = ([], EmptyString, c)).
Proof.
  split.
  - intros d d' p enc enc' c Hp. unfold readFile.
    destruct (String.eqb_spec p EmptyString) as [|_]; [contradiction|].
    destruct (mapGet (fileCache c) p) as [t|] eqn:E.
    + rewrite E. repeat split; try reflexivity; discriminate.
    + cbn [statCache fileCache]. rewrite mapGet_set_same. repeat split; reflexivity.
  - intros d enc c. split; reflexivity.
Qed.

Lemma readFile_answers_from_its_cache_witness :
  let '(_, t1, c1) := readFile FilesDemo.projectDisk (Some "/proj/package.json") "utf8" noCaches in
  let '(ev2, t2, _) :=
    readFile (FilesDemo.disk [("/proj/package.json", "{ changed }")] [])
             (Some "/proj/package.json") "latin1" c1 in
  t1 = "{}" /\ ev2 = [] /\ t2 = "{}".
Proof.
  pose proof (proj1 readFile_answers_from_its_cache
                FilesDemo.projectDisk
                (FilesDemo.disk [("/proj/package.json", "{ changed }")] [])
                "/proj/package.json" "utf8" "latin1" noCaches) as H.
  cbv in H |- *. specialize (H ltac:(discriminate)).
  destruct H as (H1 & H2 & _). repeat split.
Defined.

Lemma exists_keeps_coherent (d : Disk) (p : string) (c : Caches) :
  coherent d c ->
  snd (fst (exists_ d p c)) = onDisk d p /\ coherent d (snd (exists_ d p c)).
Proof.
  intros Hc. unfold exists_.
  destruct (mapGet (statCache c) p) as [b|] eqn:E; cbn [fst snd].
  - split; [apply Hc; exact E | exact Hc].
  - split; [unfold onDisk; destruct (diskStat d p) as [[]|]; reflexivity|].
    intros q b. cbn [statCache mapSet mapGet].
    destruct (String.eqb_spec q p) as [->|_].
    + intros H. injection H as <-. unfold onDisk.
      destruct (diskStat d p) as [[]|]; reflexivity.
    + apply Hc.
Qed.

Lemma firstExisting_finds (d : Disk) (root : string) (candidates : list string) :
  forall c,
    coherent d c ->
    snd (fst (firstExisting d root candidates c))
    = find (onDisk d)
           (map (fun x => if isAbsolute d x then x else join d [root; x]) candidates)
    /\ coherent d (snd (firstExisting d root candidates c)).
Proof.
  induction candidates as [|x rest IH]; intros c Hc; cbn [firstExisting map find].
  - split; [reflexivity | exact Hc].
  - set (p := if isAbsolute d x then x else join d [root; x]).
    destruct (exists_keeps_coherent d p c Hc) as [Hb Hc1].
    destruct (exists_ d p c) as [[ev1 found] c1]. cbn [fst snd] in Hb, Hc1.
    rewrite <- Hb. destruct found; cbn [fst snd].
    + split; [reflexivity | exact Hc1].
    + destruct (IH c1 Hc1) as [Hr Hc2].
      destruct (firstExisting d root rest c1) as [[ev2 r] c2]. cbn [fst snd] in *.
      split; assumption.
Qed.

Lemma fileExistsAny_finds (d : Disk) (root : string) (rels : list string) :
  forall c,
    coherent d c ->
    snd (fst (fileExistsAny d root rels c))
    = find (onDisk d) (map (fun r => join d [root; r]) rels)
    /\ coherent d (snd (fileExistsAny d root rels c)).
Proof.
  induction rels as [|x rest IH]; intros c Hc; cbn [fileExistsAny map find].
  - split; [reflexivity | exact Hc].
  - destruct (exists_keeps_coherent d (join d [root; x]) c Hc) as [Hb Hc1].
    destruct (exists_ d (join d [root; x]) c) as [[ev1 found] c1].
    cbn [fst snd] in Hb, Hc1.
    rewrite <- Hb. destruct found; cbn [fst snd].
    + split; [reflexivity | exact Hc1].
    + destruct (IH c1 Hc1) as [Hr Hc2].
      destruct (fileExistsAny d root rest c1) as [[ev2 r] c2]. cbn [fst snd] in *.
      split; assumption.
Qed.

(** With a stat cache that agrees with the disk (the empty one does),
    [firstExisting], [findConfig] and [fileExistsAny] return the first
    candidate, in the order given, whose path is a file or a directory on the
    disk, an absolute candidate of [firstExisting] taken as it is and any
    other joined to the root, and nothing when there is none; the cache
    still agrees with the disk afterwards. *)
Theorem first_existing_candidate_is_found :
  forall (d : Disk) (root : string) (candidates : list string) (c : Caches),
    coherent d c ->
    (snd (fst (firstExisting d root candidates c))
     = find (onDisk d)
            (map (fun x => if isAbsolute d x then x else join d [root; x]) candidates)
     /\ coherent d (snd (firstExisting d root candidates c)))
    /\ snd (fst (findConfig d root candidates c))
       = find (onDisk d)
              (map (fun x => if isAbsolute d x then x else join d [root; x]) candidates)
    /\ (snd (fst (fileExistsAny d root candidates c))
        = find (onDisk d) (map (fun r => join d [root; r]) candidates)
        /\ coherent d (snd (fileExistsAny d root candidates c)))
    /\ coherent d noCaches.
Proof.
  intros d root candidates c Hc.
  split; [apply firstExisting_finds; exact Hc|].
  split; [apply firstExisting_finds; exact Hc|].
  split; [apply fileExistsAny_finds; exact Hc|].
  intros p b H. discriminate H.
Qed.

Lemma first_existing_candidate_is_found_witness :
  snd (fst (findConfig FilesDemo.projectDisk "/proj"
              ["playwright.config.ts"; "playwright.config.js"; "playwright.config.mjs"]
              noCaches))
  = Some "/proj/playwright.config.js".
Proof.
  destruct (first_existing_candidate_is_found FilesDemo.projectDisk "/proj"
              ["playwright.config.ts"; "playwright.config.js"; "playwright.config.mjs"]
              noCaches) as (_ & H & _).
  - intros p b Hp. discriminate Hp.
  - rewrite H. reflexivity.
Defined.

(** *** Walks *)

Lemma Dirent_nested_ind (P : Dirent -> Prop) :
  (forall name, P (FileEnt name)) ->
  (forall name, P (DirEnt name None)) ->
  (forall name ents, Forall P ents -> P (DirEnt name (Some ents))) ->
  forall e, P e.
Proof.
  intros Hfile Hnone Hsome. fix IH 1. intros [name | name [ents|]].
  - apply Hfile.
  - apply Hsome. induction ents as [|e ents IHents]; constructor; [apply IH | exact IHents].
  - apply Hnone.
Qed.

Lemma walkLoop_files (pjoin : list string -> string) (limit : nat) (dir : string)
  (ents : list Dirent) :
  Forall (fun e => forall dir out,
              List.length out < limit ->
              walkEntry pjoin limit dir e out
              = List.app out (firstn (limit - List.length out) (filesOf pjoin dir e))) ents ->
  forall out,
    List.length out < limit ->
    walkLoop (list string) (@List.length string) (walkEntry pjoin limit dir) limit ents out
    = List.app out (firstn (limit - List.length out) (flat_map (filesOf pjoin dir) ents)).
Proof.
  induction 1 as [|e ents He _ IH]; intros out Hout; cbn [walkLoop flat_map].
  - rewrite firstn_nil, app_nil_r. reflexivity.
  - rewrite (He dir out Hout).
    set (F := filesOf pjoin dir e). set (k := limit - List.length out).
    rewrite firstn_app.
    destruct (Nat.leb_spec limit (List.length (List.app out (firstn k F)))) as [Hfull|Hroom];
      rewrite length_app, length_firstn in *.
    + assert (Hk : k - List.length F = 0) by lia.
      rewrite Hk, firstn_0, app_nil_r. reflexivity.
    + assert (HF : List.length F <= k) by lia.
      rewrite (firstn_all2 F HF) in *.
      rewrite IH by (rewrite length_app; lia).
      rewrite length_app, <- app_assoc.
      replace (limit - (List.length out + List.length F)) with (k - List.length F) by lia.
      reflexivity.
Qed.

Lemma walkEntry_files (pjoin : list string -> string) (limit : nat) (e : Dirent) :
  forall dir out,
    List.length out < limit ->
    walkEntry pjoin limit dir e out
    = List.app out (firstn (limit - List.length out) (filesOf pjoin dir e)).
Proof.
  induction e as [name | name | name ents IH] using Dirent_nested_ind;
    intros dir out Hout; cbn [walkEntry filesOf].
  - unfold push. destruct (limit - List.length out) eqn:E; [lia|].
    cbn [firstn]. rewrite firstn_nil. reflexivity.
  - rewrite firstn_nil, app_nil_r. destruct (Nat.ltb _ _); reflexivity.
  - apply Nat.ltb_lt in Hout as Hlt. rewrite Hlt.
    apply walkLoop_files; assumption.
Qed.

(** [walk] appends to [out] the files below the directory in depth-first
    order, a directory that cannot be read counting as empty, and stops as
    soon as [out] holds [limit] paths: with fewer than [limit] paths in [out]
    to begin with, the result is [out] followed by the first
    [limit - out.length] files, hence never longer than [limit] and complete
    when the files fit.  With [limit] paths or more to begin with (a [limit]
    of 0 included) it still appends the first entry when that is a file, and
    nothing else. *)
Theorem walk_lists_files_up_to_limit :
  forall (pjoin : list string -> string) (dir : string) (listing : option (list Dirent))
         (limit : nat) (out : list string),
    (List.length out < limit ->
     walk pjoin dir listing limit out
     = List.app out (firstn (limit - List.length out) (filesUnder pjoin dir listing))
     /\ List.length (walk pjoin dir listing limit out) <= limit
     /\ (List.length out + List.length (filesUnder pjoin dir listing) <= limit ->
         walk pjoin dir listing limit out = List.app out (filesUnder pjoin dir listing)))
    /\ (limit <= List.length out ->
        walk pjoin dir listing limit out
        = match entries listing with
          | FileEnt name :: _ => List.app out [pjoin [dir; name]]
          | _ => out
          end).
Proof.
  intros pjoin dir listing limit out. split.
  - intros Hout.
    assert (H : walk pjoin dir listing limit out
                = List.app out (firstn (limit - List.length out) (filesUnder pjoin dir listing))).
    { unfold walk, filesUnder. apply walkLoop_files; [|exact Hout].
      apply Forall_forall. intros e _ d o. apply walkEntry_files. }
    split; [exact H|]. split.
    + rewrite H, length_app, length_firstn. lia.
    + intros Hfit. rewrite H, firstn_all2 by lia. reflexivity.
  - intros Hfull. unfold walk.
    destruct (entries listing) as [|[name | name sub] rest]; cbn [walkLoop walkEntry].
    + reflexivity.
    + unfold push. rewrite length_app. cbn [List.length].
      destruct (Nat.leb_spec limit (List.length out + 1)); [reflexivity | lia].
    + destruct (Nat.ltb_spec (List.length out) limit); [lia|].
      destruct (Nat.leb_spec limit (List.length out)); [reflexivity | lia].
Qed.

Lemma walk_lists_files_up_to_limit_witness :
  walk Demo.joinPath "/proj/tests" FilesDemo.testsTree 3 []
  = ["/proj/tests/a.spec.ts"; "/proj/tests/helpers/util.ts"; "/proj/tests/helpers/notes.md"]
  /\ walk Demo.joinPath "/proj/tests" FilesDemo.testsTree 2000 []
     = ["/proj/tests/a.spec.ts"; "/proj/tests/helpers/util.ts";
        "/proj/tests/helpers/notes.md"; "/proj/tests/b.spec.ts"]
  /\ walk Demo.joinPath "/proj/tests" FilesDemo.testsTree 0 [] = ["/proj/tests/a.spec.ts"].
Proof.
  split; [|split].
  - refine (eq_trans
              (proj1 (proj1 (walk_lists_files_up_to_limit
                               Demo.joinPath "/proj/tests" FilesDemo.testsTree 3 []) _)) _).
    + cbn. lia.
    + reflexivity.
  - refine (eq_trans
              (proj2 (proj2 (proj1 (walk_lists_files_up_to_limit
                                      Demo.joinPath "/proj/tests" FilesDemo.testsTree 2000 []) _))
                     _) _).
    + cbn. lia.
    + cbn. lia.
    + reflexivity.
  - refine (eq_trans
              (proj2 (walk_lists_files_up_to_limit
                        Demo.joinPath "/proj/tests" FilesDemo.testsTree 0 []) _) _).
    + cbn. lia.
    + reflexivity.
Defined.

Lemma exists_answers_from_its_cache_witness :
  fst (exists_ FilesDemo.projectDisk "/proj/tests" noCaches) = ([DidStat "/proj/tests"], true)
  /\ fst (exists_ (FilesDemo.disk [] []) "/proj/tests"
                  (snd (exists_ FilesDemo.projectDisk "/proj/tests" noCaches)))
     = ([], true).
Proof.
  pose proof (exists_answers_from_its_cache
                FilesDemo.projectDisk (FilesDemo.disk [] []) "/proj/tests" noCaches) as H.
  destruct (exists_ FilesDemo.projectDisk "/proj/tests" noCaches) as [[ev1 b1] c1] eqn:E1.
  cbn [fst snd].
  destruct (exists_ (FilesDemo.disk [] []) "/proj/tests" c1) as [[ev2 b2] c2].
  destruct H as (-> & -> & _ & _ & _ & H). cbn [fst].
  destruct (H eq_refl) as [-> ->]. split; reflexivity.
Defined.

Lemma test_stateless (E : Helpers.Engine) (re : Helpers.RegExp) (text : string) :
  stateless re = true -> Helpers.test E re text = (matches E re text, re).
Proof.
  unfold stateless, Helpers.test, matches. intros H.
  apply negb_true_iff in H. rewrite H. cbn [Nat.ltb Nat.leb].
  destruct (Helpers.search E (Helpers.source re) (Helpers.flags re) text 0); reflexivity.
Qed.

(** The loop of a walk whose every turn appends, up to the limit, the
    items of its entry appends, up to the limit, the items of all entries. *)
Lemma walkLoop_appends (S : Type) (count : S -> nat) (visit : Dirent -> S -> S) (limit : nat)
  (inv : S -> Prop) (add : S -> list string -> S) (items : Dirent -> list string) :
  (forall st l, count (add st l) = count st + List.length l) ->
  (forall st, add st [] = st) ->
  (forall st l1 l2, add (add st l1) l2 = add st (List.app l1 l2)) ->
  (forall st l, inv st -> inv (add st l)) ->
  forall ents,
    Forall (fun e => forall st,
                inv st -> count st < limit ->
                visit e st = add st (firstn (limit - count st) (items e))) ents ->
    forall st,
      inv st -> count st < limit ->
      walkLoop S count visit limit ents st
      = add st (firstn (limit - count st) (flat_map items ents)).
Proof.
  intros Hcount Hnil Hadd Hinv ents. induction 1 as [|e ents He _ IH]; intros st Hi Hst;
    cbn [walkLoop flat_map].
  - rewrite firstn_nil, Hnil. reflexivity.
  - rewrite (He st Hi Hst).
    set (F := items e). set (k := limit - count st).
    rewrite firstn_app.
    destruct (Nat.leb_spec limit (count (add st (firstn k F)))) as [Hfull|Hroom];
      rewrite Hcount, length_firstn in *.
    + assert (Hk : k - List.length F = 0) by lia.
      rewrite Hk, firstn_0, app_nil_r. reflexivity.
    + assert (HF : List.length F <= k) by lia.
      rewrite (firstn_all2 F HF) in *.
      rewrite IH by (try apply Hinv; try rewrite Hcount; try assumption; lia).
      rewrite Hcount, Hadd.
      replace (limit - (count st + List.length F)) with (k - List.length F) by lia.
      reflexivity.
Qed.

Lemma filter_flat_map {A B} (f : B -> bool) (g : A -> list B) (xs : list A) :
  filter f (flat_map g xs) = flat_map (fun x => filter f (g x)) xs.
Proof.
  induction xs as [|x xs IH]; [reflexivity|].
  cbn [flat_map]. rewrite filter_app, IH. reflexivity.
Qed.

Lemma walkFilesLoop_files (E : Helpers.Engine) (pjoin : list string -> string) (limit : nat)
  (exts : Helpers.RegExp) (dir : string) (ents : list Dirent) :
  Forall (fun e => forall dir out,
              List.length out < limit ->
              walkFilesEntry E pjoin limit dir e (exts, out)
              = (exts, List.app out (firstn (limit - List.length out)
                                       (filter (matches E exts) (filesOf pjoin dir e))))) ents ->
  forall out,
    List.length out < limit ->
    walkLoop (Helpers.RegExp * list string) (fun s => List.length (snd s))
             (walkFilesEntry E pjoin limit dir) limit ents (exts, out)
    = (exts, List.app out (firstn (limit - List.length out)
                             (filter (matches E exts) (flat_map (filesOf pjoin dir) ents)))).
Proof.
  intros IH out Hout.
  rewrite (walkLoop_appends (Helpers.RegExp * list string) (fun s => List.length (snd s))
             _ limit (fun s => fst s = exts) (fun s l => (fst s, List.app (snd s) l))
             (fun x => filter (matches E exts) (filesOf pjoin dir x))).
  - cbn [fst snd]. rewrite filter_flat_map. reflexivity.
  - intros st l. cbn [snd]. apply length_app.
  - intros [r o]. cbn [fst snd]. rewrite app_nil_r. reflexivity.
  - intros [r o] l1 l2. cbn [fst snd]. rewrite app_assoc. reflexivity.
  - intros [r o] l H. exact H.
  - eapply Forall_impl; [|exact IH]. intros x Hx [r o] Hr Ho. cbn [fst snd] in *.
    subst r. apply Hx. exact Ho.
  - reflexivity.
  - exact Hout.
Qed.

Lemma walkFilesEntry_files (E : Helpers.Engine) (pjoin : list string -> string) (limit : nat)
  (exts : Helpers.RegExp) (e : Dirent) :
  stateless exts = true ->
  forall dir out,
    List.length out < limit ->
    walkFilesEntry E pjoin limit dir e (exts, out)
    = (exts, List.app out (firstn (limit - List.length out)
                             (filter (matches E exts) (filesOf pjoin dir e)))).
Proof.
  intros Hst.
  induction e as [name | name | name ents IH] using Dirent_nested_ind;
    intros dir out Hout; cbn [walkFilesEntry filesOf fst snd].
  - rewrite (test_stateless E exts _ Hst). cbn [filter].
    destruct (matches E exts (pjoin [dir; name])).
    + unfold push. destruct (limit - List.length out) eqn:Ek; [lia|].
      cbn [firstn]. rewrite firstn_nil. reflexivity.
    + rewrite firstn_nil, app_nil_r. reflexivity.
  - cbn [filter]. rewrite firstn_nil, app_nil_r. destruct (Nat.ltb _ _); reflexivity.
  - apply Nat.ltb_lt in Hout as Hlt. rewrite Hlt.
    apply walkFilesLoop_files; assumption.
Qed.

(** [walkFiles], for a pattern without the [g] and [y] flags and a limit of
    1 or more: when [exists] finds the root, the result is the first [limit]
    of the files below the root, in depth-first order, whose path the pattern
    matches; when it does not, the result is empty and no directory is read.
    The pattern is left as it was, and the stat cache is that of [exists]. *)
Theorem walkFiles_lists_matching_files :
  forall (E : Helpers.Engine) (d : Disk) (root : string) (listing : option (list Dirent))
         (exts : Helpers.RegExp) (limit : nat) (c : Caches),
    stateless exts = true ->
    1 <= limit ->
    walkFiles E d root listing exts limit c
    = let '(ev, found, c1) := exists_ d root c in
      (ev,
       (exts,
        if found
        then firstn limit (filter (matches E exts) (filesUnder (join d) root listing))
        else []),
       c1).
Proof.
  intros E d root listing exts limit c Hst Hlimit. unfold walkFiles, filesUnder.
  destruct (exists_ d root c) as [[ev found] c1]. destruct found; [|reflexivity].
  rewrite walkFilesLoop_files.
  - cbn [List.app List.length]. rewrite Nat.sub_0_r. reflexivity.
  - apply Forall_forall. intros e _ dir out. apply walkFilesEntry_files. exact Hst.
  - cbn. lia.
Qed.

Lemma walkFiles_lists_matching_files_witness :
  snd (fst (walkFiles Helpers.literalEngine FilesDemo.projectDisk "/proj/tests"
              FilesDemo.testsTree FilesDemo.codeFile 3000 noCaches))
  = (FilesDemo.codeFile,
     ["/proj/tests/a.spec.ts"; "/proj/tests/helpers/util.ts"; "/proj/tests/b.spec.ts"]).
Proof.
  rewrite (walkFiles_lists_matching_files Helpers.literalEngine FilesDemo.projectDisk
             "/proj/tests" FilesDemo.testsTree FilesDemo.codeFile 3000 noCaches).
  - reflexivity.
  - reflexivity.
  - lia.
Defined.

(** With the [g] flag the pattern remembers where its last match ended: of
    two spec files side by side the walk then keeps the first only. *)
Example walkFiles_with_g_misses_a_file :
  snd (snd (fst (walkFiles Helpers.literalEngine FilesDemo.projectDisk "/proj/tests"
                   (Some [FileEnt "a.spec.ts"; FileEnt "b.spec.ts"])
                   {| Helpers.source := ".ts"; Helpers.flags := "g"; Helpers.lastIndex := 0 |}
                   3000 noCaches)))
  = ["/proj/tests/a.spec.ts"].
Proof. vm_compute. reflexivity. Qed.

End FilesFacts.

(* ================================================================= *)
(** ** Properties of the package.json helpers *)

Section PkgFacts.
Import Pkg.

Lemma get_set (obj : Dict) (k v k' : string) :
  get (set obj k v) k' = if (k' =? k)%string then Some v else get obj k'.
Proof.
  induction obj as [|[k0 v0] rest IH]; cbn [set get].
  - reflexivity.
  - destruct (String.eqb_spec k k0) as [->|Hk]; cbn [get].
    + destruct (String.eqb_spec k' k0); reflexivity.
    + rewrite IH. destruct (String.eqb_spec k' k0) as [->|]; [|reflexivity].
      destruct (String.eqb_spec k0 k); [congruence | reflexivity].
Qed.

Lemma get_absent (obj : Dict) (k : string) :
  ~ In k (map fst obj) -> get obj k = None.
Proof.
  induction obj as [|[k0 v0] rest IH]; intros H; [reflexivity|].
  cbn [get]. cbn [map fst In] in H.
  destruct (String.eqb_spec k k0) as [->|_]; [tauto | apply IH; tauto].
Qed.

(** A property of [{ ...a, ...b }] is that of [b] when [b] has it, that of
    [a] otherwise. *)
Lemma get_spread (b : Dict) :
  NoDup (map fst b) ->
  forall a k,
    get (spread a b) k = match get b k with
                         | Some v => Some v
                         | None => get a k
                         end.
Proof.
  unfold spread. induction b as [|[k1 v1] rest IH]; intros Hnd a k; [reflexivity|].
  cbn [map fst] in Hnd. inversion Hnd as [|? ? Hni Hrest]; subst.
  cbn [fold_left fst snd get]. rewrite (IH Hrest), get_set.
  destruct (String.eqb_spec k k1) as [->|_]; [|reflexivity].
  rewrite (get_absent rest k1 Hni). reflexivity.
Qed.

Lemma get_depMap (pkg : PkgJson) (n : string) :
  NoDup (map fst (orEmpty (dependencies pkg))) ->
  NoDup (map fst (orEmpty (devDependencies pkg))) ->
  get (depMap pkg) n
  = match get (orEmpty (devDependencies pkg)) n with
    | Some v => Some v
    | None => get (orEmpty (dependencies pkg)) n
    end.
Proof.
  intros Hd Hv. unfold depMap. rewrite (get_spread _ Hv), (get_spread _ Hd).
  destruct (get (orEmpty (dependencies pkg)) n); reflexivity.
Qed.

(** In [depMap(pkg)] a package listed under [devDependencies] has the
    version given there, whatever [dependencies] says, and any other package
    the version of [dependencies]; [hasDep] holds of a package exactly when
    that version is a non-empty string, and then [inDeps] holds of it too,
    while [inDeps] also holds of a package whose version is the empty string.
    Of a name that is in neither object both hold when it is the name of a
    property every object inherits, such as [constructor], and of no other.
    (Each object has a key once.) *)
Theorem devDependencies_shadow_dependencies :
  forall (pkg : PkgJson) (n : string),
    NoDup (map fst (orEmpty (dependencies pkg))) ->
    NoDup (map fst (orEmpty (devDependencies pkg))) ->
    let version :=
      match get (orEmpty (devDependencies pkg)) n with
      | Some v => Some v
      | None => get (orEmpty (dependencies pkg)) n
      end in
    getVersion (depMap pkg) n
    = match version with
      | Some v => Own v
      | None => if isInherited n then Inherited else Undefined
      end
    /\ hasDep (depMap pkg) n
       = match version with
         | Some v => negb (v =? EmptyString)%string
         | None => isInherited n
         end
    /\ inDeps (Some pkg) [n] = match version with Some _ => true | None => isInherited n end
    /\ (hasDep (depMap pkg) n = true -> inDeps (Some pkg) [n] = true).
Proof.
  intros pkg n Hd Hv. cbv zeta.
  pose proof (get_depMap pkg n Hd Hv) as H.
  unfold hasDep, getVersion, inDeps, lookup. fold (depMap pkg). cbn [existsb]. rewrite H.
  destruct (match get (orEmpty (devDependencies pkg)) n with
            | Some v => Some v
            | None => get (orEmpty (dependencies pkg)) n
            end) as [v|]; [|destruct (isInherited n)];
    repeat split; try reflexivity; discriminate.
Qed.

Lemma devDependencies_shadow_dependencies_witness :
  let pkg := {| dependencies := Some [("typescript", "5.4.0"); ("dotenv", EmptyString)];
                devDependencies := Some [("typescript", "5.6.2"); ("eslint", "9.0.0")];
                scripts := None |} in
  getVersion (depMap pkg) "typescript" = Own "5.6.2"
  /\ hasDep (depMap pkg) "dotenv" = false
  /\ inDeps (Some pkg) ["dotenv"] = true
  /\ hasDep (depMap pkg) "constructor" = true.
Proof.
  cbv zeta.
  assert (Hd : NoDup (map fst [("typescript", "5.4.0"); ("dotenv", EmptyString)]))
    by (repeat (constructor; [cbn; intuition discriminate|]); constructor).
  assert (Hv : NoDup (map fst [("typescript", "5.6.2"); ("eslint", "9.0.0")]))
    by (repeat (constructor; [cbn; intuition discriminate|]); constructor).
  pose (pkg := {| dependencies := Some [("typescript", "5.4.0"); ("dotenv", EmptyString)];
                  devDependencies := Some [("typescript", "5.6.2"); ("eslint", "9.0.0")];
                  scripts := None |}).
  split; [|split; [|split]].
  - exact (proj1 (devDependencies_shadow_dependencies pkg "typescript" Hd Hv)).
  - exact (proj1 (proj2 (devDependencies_shadow_dependencies pkg "dotenv" Hd Hv))).
  - exact (proj1 (proj2 (proj2 (devDependencies_shadow_dependencies pkg "dotenv" Hd Hv)))).
  - exact (proj1 (proj2 (devDependencies_shadow_dependencies pkg "constructor" Hd Hv))).
Defined.

(** [inDeps] holds exactly when there is a package.json and one of the
    names is a key of its [dependencies] or of its [devDependencies], or the
    name of a property every object inherits; it holds of no name without a
    package.json and of no package for an empty list of names. *)
Theorem inDeps_finds_declared_packages :
  forall (pkg : option PkgJson) (names : list string),
    (match pkg with
     | Some p =>
         NoDup (map fst (orEmpty (dependencies p)))
         /\ NoDup (map fst (orEmpty (devDependencies p)))
     | None => True
     end) ->
    (inDeps pkg names = true <->
     exists p n,
       pkg = Some p /\ In n names
       /\ (In n (map fst (orEmpty (dependencies p)))
           \/ In n (map fst (orEmpty (devDependencies p)))
           \/ In n inherited))
    /\ inDeps None names = false
    /\ inDeps pkg [] = false.
Proof.
  intros pkg names Hnd.
  assert (Hin : forall (d : Dict) (k : string),
             In k (map fst d) <-> get d k <> None).
  { intros d k. split.
    - induction d as [|[k0 v0] rest IH]; [contradiction|].
      cbn [map fst In get]. intros [->|H].
      + rewrite String.eqb_refl. discriminate.
      + destruct (k =? k0)%string; [discriminate | apply IH; exact H].
    - intros H. destruct (in_dec string_dec k (map fst d)) as [Hi|Hn]; [exact Hi|].
      exfalso. apply H. apply get_absent. exact Hn. }
  assert (Hinh : forall k, isInherited k = true <-> In k inherited).
  { intros k. unfold isInherited. rewrite existsb_exists. split.
    - intros (x & Hx & He). apply String.eqb_eq in He. subst x. exact Hx.
    - intros Hk. exists k. split; [exact Hk | apply String.eqb_refl]. }
  split; [|split; [reflexivity | destruct pkg; reflexivity]].
  destruct pkg as [p|]; cbn [inDeps].
  - destruct Hnd as [Hd Hv]. fold (depMap p). rewrite existsb_exists. split.
    + intros (n & Hn & Hget). exists p, n. split; [reflexivity|]. split; [exact Hn|].
      unfold lookup in Hget. rewrite (get_depMap p n Hd Hv) in Hget.
      destruct (get (orEmpty (devDependencies p)) n) eqn:Ev.
      * right. left. apply Hin. congruence.
      * destruct (get (orEmpty (dependencies p)) n) eqn:Ed.
        -- left. apply Hin. congruence.
        -- right. right. apply Hinh.
           destruct (isInherited n); [reflexivity | discriminate Hget].
    + intros (p' & n & Hp & Hn & Hor). injection Hp as <-. exists n. split; [exact Hn|].
      unfold lookup. rewrite (get_depMap p n Hd Hv).
      destruct (get (orEmpty (devDependencies p)) n) eqn:Ev; [reflexivity|].
      destruct (get (orEmpty (dependencies p)) n) eqn:Ed; [reflexivity|].
      destruct Hor as [H|[H|H]].
      * apply Hin in H. congruence.
      * apply Hin in H. congruence.
      * apply Hinh in H. rewrite H. reflexivity.
  - split; [discriminate|]. intros (p & n & Hp & _). discriminate.
Qed.

Lemma inDeps_finds_declared_packages_witness :
  inDeps (Some {| dependencies := None;
                  devDependencies := Some [("eslint", "9.0.0")];
                  scripts := None |})
         ["@typescript-eslint/parser"; "eslint"] = true.
Proof.
  apply (proj1 (inDeps_finds_declared_packages
                  (Some {| dependencies := None;
                           devDependencies := Some [("eslint", "9.0.0")];
                           scripts := None |})
                  ["@typescript-eslint/parser"; "eslint"]
                  (conj (NoDup_nil _)
                        (NoDup_cons _ (fun H : In "eslint" [] => H) (NoDup_nil _))))).
  eexists. exists "eslint". split; [reflexivity|]. split; [right; left; reflexivity|].
  right. left. left. reflexivity.
Defined.

(** *** Version ranges *)

Lemma isDigit_dot : isDigit "." = false.
Proof. reflexivity. Qed.

Lemma digitsToEnd_iff (s : string) : digitsToEnd s = true <-> digits s.
Proof.
  unfold digits. induction s as [|c rest IH].
  - cbn. split; [discriminate | intros [H _]; congruence].
  - destruct rest as [|c' rest'].
    + cbn. split.
      * intros H. split; [discriminate|]. intros x [<-|[]]. exact H.
      * intros [_ H]. apply H. left. reflexivity.
    + change (digitsToEnd (String c (String c' rest')))
        with (andb (isDigit c) (digitsToEnd (String c' rest'))).
      rewrite andb_true_iff, IH. cbn [list_ascii_of_string In]. split.
      * intros [Hc [_ Hr]]. split; [discriminate|].
        intros x [<-|Hx]; [exact Hc | apply Hr; exact Hx].
      * intros [_ H]. split; [apply H; left; reflexivity|].
        split; [discriminate|]. intros x Hx. apply H. right. exact Hx.
Qed.

Lemma majorMinor_iff (s : string) :
  forall seen,
    majorMinor seen s = true <->
    exists a b,
      s = a ++ "." ++ b
      /\ (forall c, In c (list_ascii_of_string a) -> isDigit c = true)
      /\ (seen = true \/ a <> EmptyString)
      /\ digits b.
Proof.
  induction s as [|c rest IH]; intros seen; cbn [majorMinor].
  - split; [discriminate|]. intros (a & b & H & _). destruct a; discriminate H.
  - destruct (isDigit c) eqn:Hc.
    + rewrite IH. split.
      * intros (a & b & -> & Ha & _ & Hb). exists (String c a), b.
        split; [reflexivity|]. split; [|split; [right; discriminate | exact Hb]].
        intros x [<-|Hx]; [exact Hc | apply Ha; exact Hx].
      * intros (a & b & H & Ha & _ & Hb). destruct a as [|c0 a].
        -- cbn in H. injection H as -> _. rewrite isDigit_dot in Hc. discriminate.
        -- cbn in H. injection H as -> ->. exists a, b.
           split; [reflexivity|]. split; [|split; [left; reflexivity | exact Hb]].
           intros x Hx. apply Ha. right. exact Hx.
    + destruct (Ascii.eqb_spec c ".") as [->|Hdot].
      * rewrite andb_true_iff, digitsToEnd_iff. split.
        -- intros [-> Hb]. exists EmptyString, rest.
           split; [reflexivity|]. split; [intros x []|]. split; [left; reflexivity | exact Hb].
        -- intros (a & b & H & Ha & Hs & Hb). destruct a as [|c0 a].
           ++ cbn in H. injection H as ->. destruct Hs as [->|Hs]; [|congruence].
              split; [reflexivity | exact Hb].
           ++ cbn in H. injection H as <- _.
              specialize (Ha "."%char (or_introl eq_refl)). rewrite isDigit_dot in Ha.
              discriminate.
      * split; [discriminate|]. intros (a & b & H & Ha & _). destruct a as [|c0 a].
        -- cbn in H. injection H as -> _. congruence.
        -- cbn in H. injection H as -> _.
           specialize (Ha c0 (or_introl eq_refl)). congruence.
Qed.

(** [looksFloating] holds of [latest], of [*] and of the versions made of
    two numbers with a dot between them, such as [1.2], and of nothing else:
    not of [1.2.3], of [^1.2], of [1.] or of the absent version. *)
Theorem looksFloating_is_two_part_version :
  forall v : option string,
    looksFloating v = true <->
    (v = Some "latest" \/ v = Some "*"
     \/ exists a b, v = Some (a ++ "." ++ b) /\ digits a /\ digits b).
Proof.
  intros v. unfold looksFloating.
  rewrite !orb_true_iff, majorMinor_iff. split.
  - intros [H|[H|(a & b & H & Ha & Hs & Hb)]].
    + apply String.eqb_eq in H. destruct v as [s|]; [|discriminate]. left. congruence.
    + apply String.eqb_eq in H. destruct v as [s|]; [|discriminate]. right. left. congruence.
    + right. right. exists a, b. destruct v as [s|].
      * split; [congruence|]. split; [|exact Hb].
        split; [|exact Ha]. destruct Hs as [Hs|Hs]; [discriminate | exact Hs].
      * destruct a; discriminate H.
  - intros [->|[->|(a & b & -> & [Hne Ha] & Hb)]].
    + left. reflexivity.
    + right. left. reflexivity.
    + right. right. exists a, b. split; [reflexivity|]. split; [exact Ha|].
      split; [right; exact Hne | exact Hb].
Qed.

Example looksFloating_samples :
  looksFloating (Some "1.2") = true /\ looksFloating (Some "1.2.3") = false
  /\ looksFloating (Some "^1.2") = false /\ looksFloating (Some "1.") = false
  /\ looksFloating None = false /\ looksFloating (Some "latest") = true.
Proof. repeat split. Qed.

End PkgFacts.

(* ================================================================= *)
(** ** Properties of ids, [addFinding] and normalisation *)

Section FindingsFacts.
Import Js Eff Runner Findings.
Import Helpers(Sev, info, low, medium, high, critical).

Lemma lowerAscii_word (c : ascii) :
  isWord (lowerAscii c) = true -> idChar (lowerAscii c) = true.
Proof. destruct c as [[] [] [] [] [] [] [] []]; intros H; try reflexivity; discriminate H. Qed.

Lemma idChar_lower (c : ascii) : idChar c = true -> lowerAscii c = c.
Proof. destruct c as [[] [] [] [] [] [] [] []]; intros H; try reflexivity; discriminate H. Qed.

Lemma idChar_word_or_dash (c : ascii) :
  idChar c = true -> isWord c = negb (Ascii.eqb c "-").
Proof. destruct c as [[] [] [] [] [] [] [] []]; intros H; try reflexivity; discriminate H. Qed.

Lemma word_is_no_dash (c : ascii) : isWord c = true -> Ascii.eqb c "-" = false.
Proof. destruct c as [[] [] [] [] [] [] [] []]; intros H; try reflexivity; discriminate H. Qed.

Lemma dashRuns_idChars (s : string) :
  forall inRun, idChars (dashRuns inRun (toLowerCase s)) = true.
Proof.
  induction s as [|c rest IH]; intros inRun; cbn [toLowerCase dashRuns]; [reflexivity|].
  destruct (isWord (lowerAscii c)) eqn:Hw.
  - cbn [idChars]. rewrite (lowerAscii_word c Hw), IH. reflexivity.
  - destruct inRun; [apply IH|]. cbn [idChars]. rewrite IH. reflexivity.
Qed.

Lemma dashRuns_after_run (s : string) : startsWithDash (dashRuns true s) = false.
Proof.
  induction s as [|c rest IH]; cbn [dashRuns]; [reflexivity|].
  destruct (isWord c) eqn:Hw; [|exact IH].
  cbn [startsWithDash]. apply word_is_no_dash. exact Hw.
Qed.

Lemma dashRuns_singleDashes (s : string) :
  forall inRun, singleDashes (dashRuns inRun s) = true.
Proof.
  induction s as [|c rest IH]; intros inRun; cbn [dashRuns]; [reflexivity|].
  destruct (isWord c) eqn:Hw.
  - cbn [singleDashes]. rewrite (word_is_no_dash c Hw), IH. reflexivity.
  - destruct inRun; [apply IH|].
    cbn [singleDashes]. rewrite dashRuns_after_run, IH. reflexivity.
Qed.

Lemma toLowerCase_idChars (s : string) : idChars s = true -> toLowerCase s = s.
Proof.
  induction s as [|c rest IH]; cbn [idChars toLowerCase]; [reflexivity|].
  intros H. apply andb_true_iff in H. destruct H as [Hc Hr].
  rewrite (idChar_lower c Hc), (IH Hr). reflexivity.
Qed.

Lemma dashRuns_fixed (s : string) :
  idChars s = true -> singleDashes s = true ->
  forall inRun, (inRun = true -> startsWithDash s = false) -> dashRuns inRun s = s.
Proof.
  induction s as [|c rest IH]; cbn [idChars singleDashes dashRuns]; [reflexivity|].
  intros Hi Hs inRun Hrun.
  apply andb_true_iff in Hi. destruct Hi as [Hc Hr].
  apply andb_true_iff in Hs. destruct Hs as [Hd Hs].
  rewrite (idChar_word_or_dash c Hc).
  destruct (Ascii.eqb c "-") eqn:Edash; cbn [negb].
  - destruct inRun.
    + cbn [startsWithDash] in Hrun. rewrite (Hrun eq_refl) in Edash. discriminate.
    + apply Ascii.eqb_eq in Edash. subst c. f_equal. apply (IH Hr Hs).
      intros _. cbn in Hd. destruct (startsWithDash rest); [discriminate | reflexivity].
  - f_equal. apply (IH Hr Hs). discriminate.
Qed.

(** The id [makeId] derives from a title is [data-] followed by a slug made
    of lower-case letters, digits, underscores and dashes only, in which no
    dash follows another; the slug of a slug is the slug itself, so titles
    that differ only in case, punctuation or spacing get the same id. *)
Theorem makeId_slug_is_normal :
  forall title : string,
    makeId title = "data-" ++ slug title
    /\ idChars (slug title) = true
    /\ singleDashes (slug title) = true
    /\ slug (slug title) = slug title
    /\ makeId (slug title) = makeId title.
Proof.
  intros title.
  assert (Hi : idChars (slug title) = true) by apply dashRuns_idChars.
  assert (Hs : singleDashes (slug title) = true) by apply dashRuns_singleDashes.
  assert (Hfix : slug (slug title) = slug title).
  { unfold slug at 1. rewrite (toLowerCase_idChars _ Hi).
    apply dashRuns_fixed; [exact Hi | exact Hs | discriminate]. }
  repeat split; try assumption. unfold makeId. rewrite Hfix. reflexivity.
Qed.

Example makeId_samples :
  makeId "Tests exist" = "data-tests-exist"
  /\ makeId "Readable structure (describe/step)" = "data-readable-structure-describe-step-"
  /\ makeId "HTML  reporter -- configured" = makeId "html reporter configured".
Proof. vm_compute. repeat split. Qed.

Lemma applyScore_push (items : list Helpers.ScoreItem) (x : Helpers.ScoreItem) :
  Helpers.applyScore (List.app items [x])
  = Z.max 0 (100 - (Spec.sumBy Spec.cost items + Spec.cost x)).
Proof.
  unfold Helpers.applyScore. rewrite fold_applyStep, sumBy_app, sumBy_cons.
  cbn [Spec.sumBy fold_right].
  pose proof (sumBy_nonneg Spec.cost items cost_nonneg).
  pose proof (cost_nonneg x). lia.
Qed.

(** [addFinding] appends one finding and leaves the rest of the category
    alone.  The finding passes exactly when the status handed over is truthy,
    so [true] and every non-empty string, ['fail'] included, are recorded as
    ['pass'], and [false], [undefined] and [''] as ['fail']; its artifacts
    hold no empty string; and the deduction score of the category afterwards
    is that of its earlier findings less the deduction of the new finding's
    severity when it failed, floored at 0. *)
Theorem addFinding_records_truthiness :
  forall (cat : CategoryResult) (f : NewFinding),
    findings (addFinding cat f) = List.app (findings cat) [recorded f]
    /\ Finding.status (recorded f) = (if truthy (newStatus f) then "pass" else "fail")
    /\ (forall s, newStatus f = JStr s -> s <> EmptyString ->
                  Finding.status (recorded f) = "pass")
    /\ (forall xs, Finding.artifacts (recorded f) = Some xs -> ~ In EmptyString xs)
    /\ score (scored (addFinding cat f))
       = Z.max 0 (100 - (Spec.sumBy Spec.cost (map scoreItem (findings cat))
                         + if truthy (newStatus f) then 0
                           else Helpers.DEDUCT (newSeverity f))).
Proof.
  intros cat f. split; [reflexivity|]. split; [reflexivity|]. split; [|split].
  - intros s Hs Hne. cbn [recorded Finding.status]. rewrite Hs. cbn [truthy].
    destruct (String.eqb_spec s EmptyString); [contradiction | reflexivity].
  - intros xs H. cbn [recorded Finding.artifacts] in H. injection H as <-.
    intros Hin. apply filter_In in Hin. destruct Hin as [_ Hin].
    rewrite String.eqb_refl in Hin. discriminate.
  - cbn [scored score addFinding findings]. unfold push.
    rewrite map_app. cbn [map]. rewrite applyScore_push. f_equal. f_equal. f_equal.
    unfold Spec.cost, scoreItem. cbn [Helpers.status Helpers.severity recorded
                                       Finding.status Finding.severity].
    destruct (truthy (newStatus f)); reflexivity.
Qed.

Lemma addFinding_records_truthiness_witness :
  Finding.status
    (recorded {| newId := None; newTitle := "Traces persisted"; newMessage := None;
                 newSeverity := medium; newStatus := JStr "fail";
                 newSuggestion := None; newFile := None; newArtifacts := None |})
  = "pass".
Proof.
  apply (proj1 (proj2 (proj2 (addFinding_records_truthiness
                                (createCategory "reporting" "Reporting")
                                {| newId := None; newTitle := "Traces persisted";
                                   newMessage := None; newSeverity := medium;
                                   newStatus := JStr "fail"; newSuggestion := None;
                                   newFile := None; newArtifacts := None |})))
               "fail").
  - reflexivity.
  - discriminate.
Defined.

(** *** What normalisation keeps *)

Lemma toSev_sevName (s : Sev) : toSev (JStr (sevName s)) = s.
Proof. destruct s; reflexivity. Qed.

Lemma map_toStr_JStr (xs : list string) : map toStr (map JStr xs) = xs.
Proof. induction xs as [|x xs IH]; [reflexivity|]. cbn [map toStr]. rewrite IH. reflexivity. Qed.

Lemma optString_optJs (o : option string) : optString (optJs o) = nonEmpty o.
Proof.
  destruct o as [s|]; [|reflexivity]. unfold optString, optJs, nonEmpty. cbn [truthy toStr].
  destruct (s =? EmptyString)%string; reflexivity.
Qed.

Lemma normalizeFinding_findingToJs (f : Finding.t) :
  normalizeFinding (findingToJs f) = Ok (renormalized f).
Proof.
  destruct f as [i t m sg sev st fl ar].
  unfold normalizeFinding, findingToJs, renormalized.
  cbn [nullish prop assoc String.eqb Ascii.eqb Bool.eqb coalesce toStr isStr truthy
       Finding.id Finding.title Finding.message Finding.suggestion Finding.severity
       Finding.status Finding.file Finding.artifacts].
  rewrite toSev_sevName, !optString_optJs. f_equal. f_equal.
  - destruct (m =? EmptyString)%string eqn:E; [|reflexivity].
    apply String.eqb_eq in E. subst m. reflexivity.
  - destruct (String.eqb_spec st "pass") as [->|Hp]; [reflexivity|].
    destruct (String.eqb_spec st "fail") as [->|Hf]; reflexivity.
  - destruct ar as [xs|]; [|reflexivity]. rewrite map_toStr_JStr. reflexivity.
Qed.

Lemma mapRes_normalize (fs : list Finding.t) :
  mapRes normalizeFinding (map findingToJs fs) = Ok (map renormalized fs).
Proof.
  induction fs as [|f fs IH]; [reflexivity|].
  cbn [map mapRes]. rewrite normalizeFinding_findingToJs, IH. reflexivity.
Qed.

(** [normalizeCategory] keeps what an analyzer built with [createCategory]
    and [addFinding]: the id and the title of the category (those of the
    registry entry stand in for empty ones) and, of every finding, the id, the
    title, the message, the severity, the artifacts and a status that is
    ['pass'] or ['fail']; an empty suggestion or file comes out absent.  The
    score the analyzer computed is not read: the category comes out without
    score, whatever score went in. *)
Theorem normalization_keeps_analyzer_findings :
  forall (entry : Entry.t) (cat : CategoryResult),
    normalizeCategory entry (categoryToJs cat)
    = Ok (Some {| Category.id :=
                    JStr (if (id cat =? EmptyString)%string then Entry.id entry else id cat);
                  Category.title :=
                    JStr (if (title cat =? EmptyString)%string
                          then Entry.title entry else title cat);
                  Category.findings := map renormalized (findings cat);
                  Category.score := None;
                  Category._maxPoints := None |})
    /\ (forall f, renormalized (recorded f)
                  = {| Finding.id := Finding.id (recorded f);
                       Finding.title := Finding.title (recorded f);
                       Finding.message := Finding.message (recorded f);
                       Finding.suggestion := nonEmpty (newSuggestion f);
                       Finding.severity := newSeverity f;
                       Finding.status := Finding.status (recorded f);
                       Finding.file := nonEmpty (newFile f);
                       Finding.artifacts := Finding.artifacts (recorded f) |})
    /\ (forall z,
           normalizeCategory entry
             (categoryToJs {| id := id cat; title := title cat;
                              findings := findings cat; score := z |})
           = normalizeCategory entry (categoryToJs cat)).
Proof.
  intros entry cat.
  assert (H : forall c : CategoryResult,
             normalizeCategory entry (categoryToJs c)
             = Ok (Some {| Category.id :=
                             JStr (if (id c =? EmptyString)%string
                                   then Entry.id entry else id c);
                           Category.title :=
                             JStr (if (title c =? EmptyString)%string
                                   then Entry.title entry else title c);
                           Category.findings := map renormalized (findings c);
                           Category.score := None;
                           Category._maxPoints := None |})).
  { intros c. unfold normalizeCategory, categoryToJs.
    cbn [truthy negb prop assoc String.eqb Ascii.eqb Bool.eqb orElse].
    rewrite mapRes_normalize. unfold orElse. cbn [truthy].
    destruct (id c =? EmptyString)%string, (title c =? EmptyString)%string; reflexivity. }
  split; [apply H|]. split.
  - intros f. unfold renormalized. cbn [recorded Finding.id Finding.title Finding.message
                                          Finding.suggestion Finding.severity Finding.status
                                          Finding.file Finding.artifacts].
    destruct (truthy (newStatus f)); reflexivity.
  - intros z. rewrite !H. reflexivity.
Qed.

End FindingsFacts.


(* ================================================================= *)
(** ** Properties of the pattern helpers *)

Section CiFacts.
Import Js Eff Helpers Ci.
Local Open Scope nat_scope.

Variable E : Engine.

(** A pattern whose [lastIndex] is 0 is matched from the start of the text;
    when it misses, its [lastIndex] is 0 afterwards. *)
Lemma test_from_start (re : RegExp) (text : string) :
  lastIndex re = 0 ->
  fst (test E re text)
  = match search E (source re) (flags re) text 0 with Some _ => true | None => false end
  /\ (fst (test E re text) = false -> snd (test E re text) = re).
Proof.
  intros H0. unfold test. rewrite H0.
  replace (if orb (hasFlag "g" (flags re)) (hasFlag "y" (flags re)) then 0 else 0) with 0
    by (destruct (orb _ _); reflexivity).
  cbn [Nat.ltb Nat.leb].
  assert (Hre : setLastIndex 0 re = re).
  { destruct re as [s f l]. cbn in H0. subst l. reflexivity. }
  destruct (search E (source re) (flags re) text 0) as [e|].
  - split; [reflexivity|]. cbn [fst]. discriminate.
  - split; [reflexivity|]. intros _. cbn [snd]. rewrite Hre.
    destruct (orb _ _); reflexivity.
Qed.

(** A pattern that is neither global nor sticky is matched from the start of
    the text whatever its [lastIndex], and [test] leaves it as it is. *)
Lemma test_plain (re : RegExp) (text : string) :
  hasFlag "g" (flags re) = false -> hasFlag "y" (flags re) = false ->
  test E re text
  = (match search E (source re) (flags re) text 0 with Some _ => true | None => false end, re).
Proof.
  intros Hg Hy. unfold test. rewrite Hg, Hy. cbn [orb Nat.ltb Nat.leb].
  destruct (search E (source re) (flags re) text 0); reflexivity.
Qed.

Lemma firstMatch_find (scan : CiScan) (safeRe : RegExp) (fs : list string) :
  lastIndex safeRe = 0 ->
  firstMatch E scan fs safeRe
  = find (fun f => match search E (source safeRe) (flags safeRe) (textOf scan f) 0 with
                   | Some _ => true
                   | None => false
                   end) fs.
Proof.
  intros H0. induction fs as [|f rest IH]; [reflexivity|].
  cbn [firstMatch find].
  destruct (test_from_start safeRe (textOf scan f) H0) as [Hfst Hsnd].
  destruct (test E safeRe (textOf scan f)) as [hit re'] eqn:Et.
  cbn [fst snd] in Hfst, Hsnd. rewrite <- Hfst.
  destruct hit; [reflexivity|]. rewrite (Hsnd eq_refl). exact IH.
Qed.

(** [firstFileMatching] returns the first file of the scan, in the order of
    [scan.files], whose text matches the pattern searched from the start of
    the text, and nothing when no text matches; a file without stored text
    counts as empty.  The [lastIndex] the caller's pattern carries plays no
    part, with a global flag and with a sticky one, and no earlier file's
    text changes the answer for a later file. *)
Theorem firstFileMatching_finds_first_match :
  forall (scan : CiScan) (re : RegExp),
    compiles E (source re) (dropFirst "g" (flags re)) = true ->
    firstFileMatching E scan re
    = Ok (find (fun f => matchesFresh E re (textOf scan f)) (files scan))
    /\ (forall i, firstFileMatching E scan (setLastIndex i re) = firstFileMatching E scan re)
    /\ (forall f, firstFileMatching E scan re = Ok (Some f) ->
                  In f (files scan) /\ matchesFresh E re (textOf scan f) = true)
    /\ (firstFileMatching E scan re = Ok None ->
        forall f, In f (files scan) -> matchesFresh E re (textOf scan f) = false).
Proof.
  intros scan re Hc.
  assert (Heq : forall r : RegExp,
             source r = source re -> flags r = flags re ->
             firstFileMatching E scan r
             = Ok (find (fun f => matchesFresh E re (textOf scan f)) (files scan))).
  { intros r Hs Hf. unfold firstFileMatching, newRegExp. rewrite Hs, Hf, Hc.
    rewrite firstMatch_find by reflexivity. reflexivity. }
  split; [apply Heq; reflexivity|]. split; [|split].
  - intros i. rewrite !Heq; reflexivity.
  - intros f Hf. rewrite (Heq re eq_refl eq_refl) in Hf. inversion Hf as [Hfind].
    apply find_some in Hfind. exact Hfind.
  - intros Hn f Hin. rewrite (Heq re eq_refl eq_refl) in Hn. inversion Hn as [Hfind].
    exact (find_none _ _ Hfind f Hin).
Qed.

Lemma someTest_existsb (values : list string) (pattern : RegExp) :
  lastIndex pattern = 0 ->
  fst (someTest E values pattern)
  = existsb (fun s => match search E (source pattern) (flags pattern) s 0 with
                      | Some _ => true
                      | None => false
                      end) values.
Proof.
  intros H0. induction values as [|s rest IH]; [reflexivity|].
  cbn [someTest existsb].
  destruct (test_from_start pattern s H0) as [Hfst Hsnd].
  destruct (test E pattern s) as [hit re'] eqn:Et.
  cbn [fst snd] in Hfst, Hsnd. rewrite <- Hfst.
  destruct hit; [reflexivity|]. rewrite (Hsnd eq_refl). exact IH.
Qed.

Lemma someTest_plain (values : list string) (pattern : RegExp) :
  hasFlag "g" (flags pattern) = false -> hasFlag "y" (flags pattern) = false ->
  someTest E values pattern
  = (existsb (fun s => match search E (source pattern) (flags pattern) s 0 with
                       | Some _ => true
                       | None => false
                       end) values, pattern).
Proof.
  intros Hg Hy. induction values as [|s rest IH]; [reflexivity|].
  cbn [someTest existsb]. rewrite (test_plain pattern s Hg Hy).
  destruct (search E (source pattern) (flags pattern) s 0); [reflexivity|]. exact IH.
Qed.

(** [anyScriptIncludes] says whether some script matches the pattern searched
    from the start of the script, provided the pattern is neither global nor
    sticky, or its [lastIndex] is 0 at the call.  In the first case the
    pattern is the same object afterwards, so the next call is answered in
    the same way. *)
Theorem anyScriptIncludes_is_some_script_matching :
  forall (scripts : option Pkg.Dict) (pattern : RegExp),
    (hasFlag "g" (flags pattern) = false /\ hasFlag "y" (flags pattern) = false)
    \/ lastIndex pattern = 0 ->
    fst (anyScriptIncludes E scripts pattern)
    = existsb (fun s => match search E (source pattern) (flags pattern) s 0 with
                        | Some _ => true
                        | None => false
                        end) (map snd (Pkg.orEmpty scripts))
    /\ (hasFlag "g" (flags pattern) = false -> hasFlag "y" (flags pattern) = false ->
        snd (anyScriptIncludes E scripts pattern) = pattern).
Proof.
  intros scripts pattern H. unfold anyScriptIncludes. split.
  - destruct H as [[Hg Hy]|H0].
    + rewrite (someTest_plain _ pattern Hg Hy). reflexivity.
    + apply someTest_existsb. exact H0.
  - intros Hg Hy. rewrite (someTest_plain _ pattern Hg Hy). reflexivity.
Qed.

End CiFacts.

Lemma firstFileMatching_finds_first_match_witness :
  Ci.firstFileMatching Helpers.literalEngine
    {| Ci.hasGH := true; Ci.hasGL := false;
       Ci.files := ["/p/.github/workflows/lint.yml"; "/p/.github/workflows/e2e.yml"];
       Ci.textByFile := [("/p/.github/workflows/lint.yml", "run: eslint .");
                         ("/p/.github/workflows/e2e.yml", "run: npx playwright test")] |}
    {| Helpers.source := "playwright"; Helpers.flags := "g"; Helpers.lastIndex := 40 |}
  = Eff.Ok (Some "/p/.github/workflows/e2e.yml").
Proof.
  destruct (firstFileMatching_finds_first_match Helpers.literalEngine
              {| Ci.hasGH := true; Ci.hasGL := false;
                 Ci.files := ["/p/.github/workflows/lint.yml"; "/p/.github/workflows/e2e.yml"];
                 Ci.textByFile := [("/p/.github/workflows/lint.yml", "run: eslint .");
                                   ("/p/.github/workflows/e2e.yml", "run: npx playwright test")] |}
              {| Helpers.source := "playwright"; Helpers.flags := "g"; Helpers.lastIndex := 40 |}
              eq_refl) as [H _].
  rewrite H. reflexivity.
Defined.

Lemma anyScriptIncludes_is_some_script_matching_witness :
  fst (Ci.anyScriptIncludes Helpers.literalEngine
         (Some [("lint", "eslint ."); ("test", "playwright test")])
         {| Helpers.source := "playwright"; Helpers.flags := "i"; Helpers.lastIndex := 7 |})
  = true.
Proof.
  destruct (anyScriptIncludes_is_some_script_matching Helpers.literalEngine
              (Some [("lint", "eslint ."); ("test", "playwright test")])
              {| Helpers.source := "playwright"; Helpers.flags := "i"; Helpers.lastIndex := 7 |}
              (or_introl (conj eq_refl eq_refl))) as [H _].
  rewrite H. reflexivity.
Defined.

(** With a global pattern the answer of [anyScriptIncludes] depends on what
    the pattern matched before: the second of two calls on the same scripts
    misses the script the first one found. *)
Example anyScriptIncludes_with_g_is_stateful :
  let scripts := Some [("test", "playwright test")] in
  let pattern := {| Helpers.source := "playwright"; Helpers.flags := "g"; Helpers.lastIndex := 0 |} in
  let first := Ci.anyScriptIncludes Helpers.literalEngine scripts pattern in
  let second := Ci.anyScriptIncludes Helpers.literalEngine scripts (snd first) in
  fst first = true /\ fst second = false.
Proof. vm_compute. split; reflexivity. Qed.


(* ================================================================= *)
(** ** Properties of the module lookup *)

Section LoadingFacts.
Import Js Eff Runner Loading.





End LoadingFacts.


(* ================================================================= *)
(** ** Properties of the command line *)

Section CliFacts.
Import Js Eff Runner Cli.


(** A failed finding of severity critical does not change the exit code. *)
Example cli_exit_code_with_a_critical_failure :
  let w := Demo.world [Demo.analyzerFile Demo.configEntry (fun _ => Returns Demo.sampleOutput)] in
  let run := mainFromCli w ["/proj"; "--no-html"] in
  exitCode run = None
  /\ existsb severe
       (flat_map Category.findings
          (categories (Spec.resultOf ANALYZERS w "/proj"))) = true.
Proof. vm_compute. split; reflexivity. Qed.

Lemma find_first_plain (opts : list string) (d : string) (rest : list string) :
  (forall x, In x opts -> isOption x = true) ->
  isOption d = false ->
  find (fun a => negb (isOption a)) (List.app opts (d :: rest)) = Some d.
Proof.
  intros Hopts Hd. induction opts as [|x opts IH]; cbn [List.app find].
  - rewrite Hd. reflexivity.
  - rewrite (Hopts x (or_introl eq_refl)). cbn [negb].
    apply IH. intros y Hy. apply Hopts. right. exact Hy.
Qed.

Lemma findIndex_first (p : string -> bool) (pre : list string) (x : string)
  (rest : list string) :
  (forall y, In y pre -> p y = false) ->
  p x = true ->
  findIndex p (List.app pre (x :: rest)) = Some (List.length pre).
Proof.
  intros Hpre Hx. induction pre as [|y pre IH]; cbn [List.app findIndex List.length].
  - rewrite Hx. reflexivity.
  - rewrite (Hpre y (or_introl eq_refl)).
    rewrite IH by (intros z Hz; apply Hpre; right; exact Hz). reflexivity.
Qed.

Lemma getValue_first (name : string) (short : option string) (pre : list string)
  (o v : string) (rest : list string) :
  (forall y, In y pre -> named name short y = false) ->
  named name short o = true ->
  getValue (List.app pre (o :: v :: rest)) name short = Some v.
Proof.
  intros Hpre Ho. unfold getValue. rewrite (findIndex_first _ pre o (v :: rest) Hpre Ho).
  assert (Hlen : Nat.ltb (List.length pre + 1) (List.length (List.app pre (o :: v :: rest))) = true).
  { apply Nat.ltb_lt. rewrite length_app. cbn [List.length]. lia. }
  rewrite Hlen.
  rewrite nth_error_app2 by lia.
  replace (List.length pre + 1 - List.length pre)%nat with 1%nat by lia. reflexivity.
Qed.

Lemma orDefault_some (s fallback : string) :
  s <> EmptyString -> orDefault (Some s) fallback = s.
Proof.
  intros H. unfold orDefault. destruct (String.eqb_spec s EmptyString); [contradiction|reflexivity].
Qed.

(** Called as the usage line says, [pwaudit <targetDir> -o <outDir>], with
    any other arguments between the two, the command audits [<targetDir>]
    and writes to [<outDir>]: the target is the first argument when that does
    not start with a dash, the output directory the argument after the first
    [-o] or [--out-dir]. *)
Theorem cli_reads_target_and_out_dir :
  forall (w : World) (target : string) (pre : list string) (o out : string)
         (rest : list string),
    isOption target = false -> target <> EmptyString ->
    (forall x, In x pre -> named "--out-dir" (Some "-o") x = false) ->
    named "--out-dir" (Some "-o") o = true ->
    out <> EmptyString ->
    Cli.targetDir (parseArgs w (target :: List.app pre (o :: out :: rest))) = target
    /\ Cli.outDir (parseArgs w (target :: List.app pre (o :: out :: rest))) = out.
Proof.
  intros w target pre o out rest Ht Hne Hpre Ho Hout.
  unfold parseArgs. cbn [Cli.targetDir Cli.outDir]. split.
  - cbn [find]. rewrite Ht. cbn [negb]. apply orDefault_some. exact Hne.
  - assert (Hnamed : named "--out-dir" (Some "-o") target = false).
    { unfold named. cbn [String.eqb negb andb].
      destruct target as [|c s]; [reflexivity|].
      destruct (String.eqb_spec (String c s) "--out-dir") as [E|_];
        [rewrite E in Ht; discriminate Ht|].
      destruct (String.eqb_spec (String c s) "-o") as [E|_];
        [rewrite E in Ht; discriminate Ht|]. reflexivity. }
    change (target :: List.app pre (o :: out :: rest))
      with (List.app (target :: pre) (o :: out :: rest)).
    rewrite (getValue_first "--out-dir" (Some "-o") (target :: pre) o out rest).
    + apply orDefault_some. exact Hout.
    + intros y [<-|Hy]; [exact Hnamed | apply Hpre; exact Hy].
    + exact Ho.
Qed.

(** When [-o <dir>] comes before the target, the command audits [<dir>]
    itself: the target is the first argument that does not start with a dash,
    whether or not it is the value of an option, so the output directory is
    both audited and written to, and the argument meant as target is not
    read. *)
Theorem cli_out_dir_before_target_is_audited :
  forall (w : World) (opts : list string) (o dir : string) (rest : list string),
    (forall x, In x opts -> isOption x = true /\ named "--out-dir" (Some "-o") x = false) ->
    named "--out-dir" (Some "-o") o = true ->
    isOption dir = false -> dir <> EmptyString ->
    Cli.targetDir (parseArgs w (List.app opts (o :: dir :: rest))) = dir
    /\ Cli.outDir (parseArgs w (List.app opts (o :: dir :: rest))) = dir.
Proof.
  intros w opts o dir rest Hopts Ho Hd Hne.
  unfold parseArgs. cbn [Cli.targetDir Cli.outDir]. split.
  - assert (Hopt : isOption o = true).
    { unfold named in Ho. cbn [negb String.eqb andb] in Ho.
      apply orb_true_iff in Ho. destruct Ho as [E|E]; apply String.eqb_eq in E;
        subst o; reflexivity. }
    change (List.app opts (o :: dir :: rest))
      with (List.app opts ([o] ++ dir :: rest)%list).
    rewrite app_assoc.
    rewrite (find_first_plain (List.app opts [o]) dir rest).
    + apply orDefault_some. exact Hne.
    + intros x Hx. apply in_app_or in Hx. destruct Hx as [Hx|[<-|[]]];
        [apply Hopts; exact Hx | exact Hopt].
    + exact Hd.
  - rewrite (getValue_first "--out-dir" (Some "-o") opts o dir rest).
    + apply orDefault_some. exact Hne.
    + intros y Hy. apply Hopts. exact Hy.
    + exact Ho.
Qed.

End CliFacts.

Lemma cli_reads_target_and_out_dir_witness :
  Cli.targetDir (Cli.parseArgs Demo.silentWorld ["/proj"; "--json"; "-o"; "out"]) = "/proj"
  /\ Cli.outDir (Cli.parseArgs Demo.silentWorld ["/proj"; "--json"; "-o"; "out"]) = "out".
Proof.
  apply (cli_reads_target_and_out_dir Demo.silentWorld "/proj" ["--json"] "-o" "out" []).
  - reflexivity.
  - discriminate.
  - intros x [<-|[]]. reflexivity.
  - reflexivity.
  - discriminate.
Defined.

Lemma cli_out_dir_before_target_is_audited_witness :
  Cli.targetDir (Cli.parseArgs Demo.silentWorld ["--json"; "-o"; "out"; "/proj"]) = "out"
  /\ Cli.outDir (Cli.parseArgs Demo.silentWorld ["--json"; "-o"; "out"; "/proj"]) = "out".
Proof.
  apply (cli_out_dir_before_target_is_audited Demo.silentWorld ["--json"] "-o" "out" ["/proj"]).
  - intros x [<-|[]]. split; reflexivity.
  - reflexivity.
  - reflexivity.
  - discriminate.
Defined.


(* ================================================================= *)
(** ** Properties of the [pwaudit] command *)

Section BinFacts.
Import Js Eff Runner Bin.



End BinFacts.



(* ================================================================= *)
(** ** Properties of the scans *)

Section ScanFacts.
Import Js Eff Files Scan.
Local Open Scope nat_scope.

Variable E : Helpers.Engine.
Variable d : Disk.

Local Abbreviation faithful := (Scan.faithful d).

Lemma exists_faithful (p : string) (c : Caches) :
  faithful c ->
  snd (fst (exists_ d p c)) = onDisk d p /\ faithful (snd (exists_ d p c)).
Proof.
  intros [Hs Ht]. destruct (exists_keeps_coherent d p c Hs) as [Hb Hs'].
  split; [exact Hb|]. split; [exact Hs'|].
  unfold exists_. destruct (mapGet (statCache c) p); cbn [snd]; exact Ht.
Qed.

Lemma readFile_faithful (p : string) (c : Caches) :
  faithful c ->
  snd (fst (readFile d (Some p) "utf8" c)) = textOnDisk d p
  /\ faithful (snd (readFile d (Some p) "utf8" c)).
Proof.
  intros [Hs Ht]. unfold readFile, textOnDisk.
  destruct (String.eqb_spec p EmptyString) as [->|Hp]; cbn [fst snd].
  - split; [reflexivity | split; assumption].
  - destruct (mapGet (fileCache c) p) as [t|] eqn:Ec; cbn [fst snd].
    + split; [|split; assumption].
      rewrite (Ht p t Ec). unfold textOnDisk.
      destruct (String.eqb_spec p EmptyString); [contradiction | reflexivity].
    + split; [reflexivity|]. split; [exact Hs|].
      intros q t. cbn [fileCache mapSet mapGet].
      destruct (String.eqb_spec q p) as [->|_].
      * intros H. injection H as <-. unfold textOnDisk.
        destruct (String.eqb_spec p EmptyString); [contradiction | reflexivity].
      * apply Ht.
Qed.

Lemma sourceExts_stateless : stateless sourceExts = true.
Proof. reflexivity. Qed.

Lemma walkFiles_faithful (trees : Trees) (base : string) (limit : nat) (c : Caches) :
  1 <= limit ->
  faithful c ->
  snd (fst (walkFiles E d base (trees base) sourceExts limit c))
  = (sourceExts, sourceFiles E d trees limit base)
  /\ faithful (snd (walkFiles E d base (trees base) sourceExts limit c)).
Proof.
  intros Hl Hc. unfold walkFiles, sourceFiles.
  destruct (exists_faithful base c Hc) as [Hb Hc'].
  destruct (exists_ d base c) as [[ev found] c1]. cbn [fst snd] in Hb, Hc' |- *.
  subst found. destruct (onDisk d base); cbn [fst snd]; [|split; [reflexivity | exact Hc']].
  split; [|exact Hc'].
  unfold filesUnder.
  rewrite (walkFilesLoop_files E (join d) limit sourceExts base (entries (trees base))).
  - cbn [List.app List.length]. rewrite Nat.sub_0_r. reflexivity.
  - apply Forall_forall. intros e _ dir out.
    apply walkFilesEntry_files. exact sourceExts_stateless.
  - cbn [List.length]. lia.
Qed.

Lemma firstHit_finds (predicate : string -> string -> bool) (files : list string) :
  forall c,
    faithful c ->
    snd (fst (firstHit d predicate files c))
    = find (fun f => predicate (textOnDisk d f) f) files
    /\ faithful (snd (firstHit d predicate files c)).
Proof.
  induction files as [|f rest IH]; intros c Hc; cbn [firstHit find].
  - split; [reflexivity | exact Hc].
  - destruct (readFile_faithful f c Hc) as [Ht Hc1].
    destruct (readFile d (Some f) "utf8" c) as [[ev1 txt] c1]. cbn [fst snd] in Ht, Hc1.
    subst txt. destruct (predicate (textOnDisk d f) f); cbn [fst snd].
    + split; [reflexivity | exact Hc1].
    + destruct (IH c1 Hc1) as [Hr Hc2].
      destruct (firstHit d predicate rest c1) as [[ev2 r] c2]. cbn [fst snd] in *.
      split; assumption.
Qed.

Lemma find_app {A} (p : A -> bool) (l1 l2 : list A) :
  find p (List.app l1 l2) = match find p l1 with Some x => Some x | None => find p l2 end.
Proof.
  induction l1 as [|x l1 IH]; [reflexivity|]. cbn [List.app find].
  destruct (p x); [reflexivity | exact IH].
Qed.

Lemma findFirstFile_finds (trees : Trees) (targetDir : string)
  (predicate : string -> string -> bool) (roots : list string) :
  forall c,
    faithful c ->
    snd (fst (findFirstFile E d trees targetDir predicate roots c))
    = find (fun f => predicate (textOnDisk d f) f)
           (flat_map (fun r => sourceFiles E d trees firstFileLimit (join d [targetDir; r])) roots)
    /\ faithful (snd (findFirstFile E d trees targetDir predicate roots c)).
Proof.
  induction roots as [|r rest IH]; intros c Hc; cbn [findFirstFile flat_map find].
  - split; [reflexivity | exact Hc].
  - assert (H1 : 1 <= firstFileLimit) by (apply Nat.leb_le; vm_compute; reflexivity).
    destruct (walkFiles_faithful trees (join d [targetDir; r]) firstFileLimit c H1 Hc) as [Hw Hc1].
    destruct (walkFiles E d (join d [targetDir; r]) (trees (join d [targetDir; r]))
                sourceExts firstFileLimit c) as [[ev1 [re files]] c1].
    cbn [fst snd] in Hw, Hc1. injection Hw as _ Hfiles. subst files.
    destruct (firstHit_finds predicate
                (sourceFiles E d trees firstFileLimit (join d [targetDir; r])) c1 Hc1) as [Hh Hc2].
    destruct (firstHit d predicate (sourceFiles E d trees firstFileLimit (join d [targetDir; r])) c1)
      as [[ev2 hit] c2]. cbn [fst snd] in Hh, Hc2.
    rewrite find_app, <- Hh.
    destruct hit as [f|]; cbn [fst snd].
    + split; [reflexivity | exact Hc2].
    + destruct (IH c2 Hc2) as [Hr Hc3].
      destruct (findFirstFile E d trees targetDir predicate rest c2) as [[ev3 res] c3].
      cbn [fst snd] in *. split; assumption.
Qed.

(** [ok] hands the pattern back as it got it. *)
Lemma ok_keeps (re : Helpers.RegExp) (text : option string) :
  Helpers.ok E re text = (fst (Helpers.ok E re text), re).
Proof.
  unfold Helpers.ok. destruct text as [t|]; [|reflexivity].
  destruct (t =? EmptyString)%string; [reflexivity|].
  destruct (Helpers.newRegExp E _ _); reflexivity.
Qed.

Lemma firstn_app_room {A} (k : nat) (out h1 h2 : list A) :
  List.length out + List.length h1 < k ->
  List.app (List.app out (firstn (k - List.length out) h1))
           (firstn (k - List.length (List.app out (firstn (k - List.length out) h1))) h2)
  = List.app out (firstn (k - List.length out) (List.app h1 h2)).
Proof.
  intros H. rewrite firstn_app, <- app_assoc.
  rewrite (firstn_all2 (n := k - List.length out) h1) by lia.
  rewrite length_app. f_equal. f_equal. f_equal. lia.
Qed.

Lemma firstn_app_full {A} (k : nat) (out h1 h2 : list A) :
  k <= List.length out + List.length h1 ->
  firstn (k - List.length out) (List.app h1 h2) = firstn (k - List.length out) h1.
Proof.
  intros H. rewrite firstn_app.
  replace (k - List.length out - List.length h1) with 0 by lia.
  cbn [firstn]. apply app_nil_r.
Qed.

Lemma collectHits_collects (limitArtifacts : nat) (re : Helpers.RegExp) (files : list string) :
  forall out c,
    faithful c ->
    List.length out < Nat.max 1 limitArtifacts ->
    snd (fst (collectHits E d limitArtifacts files re out c))
    = (re,
       List.app out
         (firstn (Nat.max 1 limitArtifacts - List.length out)
            (filter (fun f => fst (Helpers.ok E re (Some (textOnDisk d f)))) files)),
       Nat.leb (Nat.max 1 limitArtifacts)
         (List.length out
          + List.length (filter (fun f => fst (Helpers.ok E re (Some (textOnDisk d f)))) files)))
    /\ faithful (snd (collectHits E d limitArtifacts files re out c)).
Proof.
  set (L := Nat.max 1 limitArtifacts).
  set (P := fun f => fst (Helpers.ok E re (Some (textOnDisk d f)))).
  induction files as [|f rest IH]; intros out c Hc Hout; cbn [collectHits filter].
  - cbn [fst snd List.length]. split; [|exact Hc].
    rewrite firstn_nil, app_nil_r, Nat.add_0_r.
    destruct (Nat.leb_spec L (List.length out)); [lia | reflexivity].
  - destruct (readFile_faithful f c Hc) as [Ht Hc1].
    destruct (readFile d (Some f) "utf8" c) as [[ev1 txt] c1]. cbn [fst snd] in Ht, Hc1.
    subst txt. rewrite (ok_keeps re (Some (textOnDisk d f))). fold (P f).
    destruct (P f) eqn:EP.
    + unfold push.
      assert (Hlen : List.length (List.app out [f]) = List.length out + 1)
        by (rewrite length_app; reflexivity).
      destruct (Nat.leb_spec limitArtifacts (List.length (List.app out [f]))) as [Hfull|Hroom].
      * cbn [fst snd]. split; [|exact Hc1].
        assert (HL : L = List.length out + 1) by (unfold L in *; lia).
        replace (L - List.length out) with 1 by lia.
        cbn [firstn List.length].
        destruct (Nat.leb_spec L (List.length out + S (List.length (filter P rest))));
          [reflexivity | lia].
      * assert (Hout' : List.length (List.app out [f]) < L) by (unfold L in *; lia).
        destruct (IH (List.app out [f]) c1 Hc1 Hout') as [Hr Hc2].
        destruct (collectHits E d limitArtifacts rest re (List.app out [f]) c1)
          as [[ev2 r] c2]. cbn [fst snd] in *.
        split; [|exact Hc2]. rewrite Hr. rewrite Hlen.
        destruct (L - List.length out) as [|k] eqn:Ek; [lia|].
        cbn [firstn List.length]. rewrite <- app_assoc. cbn [List.app].
        replace (L - (List.length out + 1)) with k by lia.
        replace (List.length out + 1 + List.length (filter P rest))
          with (List.length out + S (List.length (filter P rest))) by lia.
        reflexivity.
    + destruct (IH out c1 Hc1 Hout) as [Hr Hc2].
      destruct (collectHits E d limitArtifacts rest re out c1) as [[ev2 r] c2].
      cbn [fst snd] in *. split; assumption.
Qed.

Lemma antiPatternLoop_collects (trees : Trees) (targetDir : string) (limitArtifacts : nat)
  (re : Helpers.RegExp) (roots : list string) :
  forall out c,
    faithful c ->
    List.length out < Nat.max 1 limitArtifacts ->
    snd (fst (antiPatternLoop E d trees targetDir limitArtifacts roots re out c))
    = List.app out
        (firstn (Nat.max 1 limitArtifacts - List.length out)
           (filter (fun f => fst (Helpers.ok E re (Some (textOnDisk d f))))
              (flat_map (fun r => sourceFiles E d trees antiPatternLimit (join d [targetDir; r])) roots)))
    /\ faithful (snd (antiPatternLoop E d trees targetDir limitArtifacts roots re out c)).
Proof.
  set (L := Nat.max 1 limitArtifacts).
  set (P := fun f => fst (Helpers.ok E re (Some (textOnDisk d f)))).
  induction roots as [|r rest IH]; intros out c Hc Hout; cbn [antiPatternLoop flat_map].
  - cbn [filter fst snd]. rewrite firstn_nil, app_nil_r. split; [reflexivity | exact Hc].
  - assert (H1 : 1 <= antiPatternLimit) by (apply Nat.leb_le; vm_compute; reflexivity).
    destruct (walkFiles_faithful trees (join d [targetDir; r]) antiPatternLimit c H1 Hc) as [Hw Hc1].
    destruct (walkFiles E d (join d [targetDir; r]) (trees (join d [targetDir; r]))
                sourceExts antiPatternLimit c) as [[ev1 [re0 files]] c1].
    cbn [fst snd] in Hw, Hc1. injection Hw as _ Hfiles. subst files.
    set (F := sourceFiles E d trees antiPatternLimit (join d [targetDir; r])).
    destruct (collectHits_collects limitArtifacts re F out c1 Hc1 Hout) as [Hh Hc2].
    fold L in Hh. fold P in Hh.
    destruct (collectHits E d limitArtifacts F re out c1) as [[ev2 [[re1 out1] returned]] c2].
    cbn [fst snd] in Hh, Hc2. injection Hh as Hre Hout1 Hret. subst re1.
    rewrite filter_app.
    destruct returned.
    + symmetry in Hret. apply Nat.leb_le in Hret.
      cbn [fst snd]. split; [|exact Hc2].
      rewrite (firstn_app_full L out (filter P F) _ Hret). exact Hout1.
    + symmetry in Hret. apply Nat.leb_gt in Hret.
      assert (Hlen1 : List.length out1 < L).
      { rewrite Hout1, length_app, length_firstn. lia. }
      destruct (IH out1 c2 Hc2 Hlen1) as [Hr Hc3].
      destruct (antiPatternLoop E d trees targetDir limitArtifacts rest re out1 c2)
        as [[ev3 res] c3]. cbn [fst snd] in *.
      split; [|exact Hc3]. rewrite Hr, Hout1.
      apply (firstn_app_room L out (filter P F)). exact Hret.
Qed.

(** With caches that agree with the disk (the empty ones do),
    [findFirstFile] returns the first source file, going through the roots in
    the order given and through each root depth-first, whose text and path
    the predicate holds of, and nothing when there is none; a root that does
    not exist counts as empty, and of each root at most 4000 source files are
    looked at.  An unreadable file is handed to the predicate as the empty
    text. *)
Theorem findFirstFile_returns_first_match :
  forall (trees : Trees) (targetDir : string) (predicate : string -> string -> bool)
         (roots : list string) (c : Caches),
    coherent d c -> coherentTexts d c ->
    snd (fst (findFirstFile E d trees targetDir predicate roots c))
    = find (fun f => predicate (textOnDisk d f) f)
           (flat_map (fun r => sourceFiles E d trees firstFileLimit (join d [targetDir; r])) roots)
    /\ coherent d (snd (findFirstFile E d trees targetDir predicate roots c))
    /\ coherentTexts d (snd (findFirstFile E d trees targetDir predicate roots c)).
Proof.
  intros trees targetDir predicate roots c Hs Ht.
  destruct (findFirstFile_finds trees targetDir predicate roots c (conj Hs Ht)) as [H [Hs' Ht']].
  repeat split; assumption.
Qed.

(** With caches that agree with the disk, [findAntiPatternFiles] returns
    the source files whose text [ok] finds the pattern in, in the order of the
    roots and depth-first within a root, cut after [limitArtifacts] of them.
    The limit is looked at after a file was added only, so a limit of 0 still
    gives the first such file: the result holds at most
    [max(1, limitArtifacts)] files. *)
Theorem findAntiPatternFiles_returns_first_matches :
  forall (trees : Trees) (targetDir : string) (re : Helpers.RegExp) (roots : list string)
         (limitArtifacts : nat) (c : Caches),
    coherent d c -> coherentTexts d c ->
    snd (fst (findAntiPatternFiles E d trees targetDir re roots limitArtifacts c))
    = firstn (Nat.max 1 limitArtifacts)
        (filter (fun f => fst (Helpers.ok E re (Some (textOnDisk d f))))
           (flat_map (fun r => sourceFiles E d trees antiPatternLimit (join d [targetDir; r])) roots))
    /\ List.length (snd (fst (findAntiPatternFiles E d trees targetDir re roots
                                limitArtifacts c)))
       <= Nat.max 1 limitArtifacts.
Proof.
  intros trees targetDir re roots limitArtifacts c Hs Ht.
  unfold findAntiPatternFiles.
  destruct (antiPatternLoop_collects trees targetDir limitArtifacts re roots [] c
              (conj Hs Ht)) as [H _]; [cbn [List.length]; lia|].
  rewrite H. cbn [List.app List.length]. rewrite Nat.sub_0_r.
  split; [reflexivity|]. rewrite length_firstn. lia.
Qed.

End ScanFacts.

Lemma findFirstFile_returns_first_match_witness :
  snd (fst (Scan.findFirstFile ScanDemo.engine ScanDemo.disk ScanDemo.trees "/proj"
              (ScanDemo.contains "test.only") Scan.defaultRoots Files.noCaches))
  = Some "/proj/tests/b.spec.ts".
Proof.
  destruct (findFirstFile_returns_first_match ScanDemo.engine ScanDemo.disk ScanDemo.trees
              "/proj" (ScanDemo.contains "test.only") Scan.defaultRoots Files.noCaches)
    as [H _].
  - intros p b Hp. discriminate Hp.
  - intros p t Hp. discriminate Hp.
  - rewrite H. vm_compute. reflexivity.
Defined.

Lemma findAntiPatternFiles_returns_first_matches_witness :
  snd (fst (Scan.findAntiPatternFiles ScanDemo.engine ScanDemo.disk ScanDemo.trees "/proj"
              {| Helpers.source := "waitForTimeout"; Helpers.flags := "g";
                 Helpers.lastIndex := 0 |}
              Scan.defaultRoots 0 Files.noCaches))
  = ["/proj/tests/helpers/util.ts"].
Proof.
  destruct (findAntiPatternFiles_returns_first_matches ScanDemo.engine ScanDemo.disk
              ScanDemo.trees "/proj"
              {| Helpers.source := "waitForTimeout"; Helpers.flags := "g";
                 Helpers.lastIndex := 0 |}
              Scan.defaultRoots 0 Files.noCaches) as [H _].
  - intros p b Hp. discriminate Hp.
  - intros p t Hp. discriminate Hp.
  - rewrite H. vm_compute. reflexivity.
Defined.


(* ================================================================= *)
(** ** Properties of the scan for CI configurations *)

Section CiScanFacts.
Import Js Eff Files Scan.
Local Open Scope nat_scope.

Variable d : Disk.

Local Abbreviation stored := (Scan.stored d).

Lemma addFile_stored (scan : Ci.CiScan) (p : string) :
  stored scan -> stored (addFile scan p (textOnDisk d p)).
Proof.
  intros H f Hf. unfold addFile in *. cbn [Ci.files Ci.textByFile] in *.
  cbn [mapSet mapGet]. destruct (String.eqb_spec f p) as [->|Hne]; [reflexivity|].
  unfold push in Hf. apply in_app_or in Hf. destruct Hf as [Hf|[Hf|[]]].
  - apply H. exact Hf.
  - congruence.
Qed.

Lemma readWorkflows_lists (ghDir : string) (names : list string) :
  forall scan c,
    coherent d c -> coherentTexts d c -> stored scan ->
    let r := readWorkflows d ghDir names scan c in
    Ci.hasGH (snd (fst r)) = Ci.hasGH scan
    /\ Ci.hasGL (snd (fst r)) = Ci.hasGL scan
    /\ Ci.files (snd (fst r))
       = List.app (Ci.files scan) (map (fun n => join d [ghDir; n]) (filter isYaml names))
    /\ stored (snd (fst r))
    /\ coherent d (snd r) /\ coherentTexts d (snd r).
Proof.
  induction names as [|n rest IH]; intros scan c Hs Ht Hst; cbn [readWorkflows filter map].
  - cbn [fst snd]. rewrite app_nil_r. repeat split; assumption.
  - destruct (isYaml n); cbn [negb].
    + destruct (readFile_faithful d (join d [ghDir; n]) c (conj Hs Ht)) as [Htxt [Hs1 Ht1]].
      destruct (readFile d (Some (join d [ghDir; n])) "utf8" c) as [[ev1 t] c1].
      cbn [fst snd] in Htxt, Hs1, Ht1. subst t.
      pose proof (IH (addFile scan (join d [ghDir; n]) (textOnDisk d (join d [ghDir; n])))
                    c1 Hs1 Ht1 (addFile_stored scan _ Hst)) as H.
      cbv zeta in H.
      destruct (readWorkflows d ghDir rest
                  (addFile scan (join d [ghDir; n]) (textOnDisk d (join d [ghDir; n]))) c1)
        as [[ev2 r] c2].
      cbn [fst snd] in *. destruct H as (H1 & H2 & H3 & H4 & H5 & H6).
      repeat split; try assumption.
      rewrite H3. unfold addFile, push. cbn [Ci.files map]. rewrite <- app_assoc. reflexivity.
    + apply IH; assumption.
Qed.

Lemma readGitlab_lists (targetDir : string) (names : list string) :
  forall scan c,
    coherent d c -> coherentTexts d c -> stored scan ->
    let r := readGitlab d targetDir names scan c in
    Ci.hasGH (snd (fst r)) = Ci.hasGH scan
    /\ Ci.hasGL (snd (fst r))
       = orb (Ci.hasGL scan) (existsb (fun n => onDisk d (join d [targetDir; n])) names)
    /\ Ci.files (snd (fst r))
       = List.app (Ci.files scan)
           (filter (onDisk d) (map (fun n => join d [targetDir; n]) names))
    /\ stored (snd (fst r))
    /\ coherent d (snd r) /\ coherentTexts d (snd r).
Proof.
  induction names as [|n rest IH]; intros scan c Hs Ht Hst;
    cbn [readGitlab filter map existsb].
  - cbn [fst snd]. rewrite app_nil_r, orb_false_r. repeat split; assumption.
  - set (p := join d [targetDir; n]).
    destruct (exists_faithful d p c (conj Hs Ht)) as [Hb [Hs1 Ht1]].
    destruct (exists_ d p c) as [[ev1 found] c1]. cbn [fst snd] in Hb, Hs1, Ht1.
    subst found. destruct (onDisk d p) eqn:Ep.
    + destruct (readFile_faithful d p c1 (conj Hs1 Ht1)) as [Htxt [Hs2 Ht2]].
      destruct (readFile d (Some p) "utf8" c1) as [[ev2 t] c2].
      cbn [fst snd] in Htxt, Hs2, Ht2. subst t.
      set (scan1 := {| Ci.hasGH := Ci.hasGH scan; Ci.hasGL := true;
                       Ci.files := Ci.files scan; Ci.textByFile := Ci.textByFile scan |}).
      assert (Hst1 : stored scan1) by exact Hst.
      pose proof (IH (addFile scan1 p (textOnDisk d p)) c2 Hs2 Ht2
                    (addFile_stored scan1 p Hst1)) as H.
      cbv zeta in H.
      destruct (readGitlab d targetDir rest (addFile scan1 p (textOnDisk d p)) c2)
        as [[ev3 r] c3].
      cbn [fst snd] in *. destruct H as (H1 & H2 & H3 & H4 & H5 & H6).
      repeat split; try assumption.
      * rewrite H2. cbn [orb]. rewrite orb_true_r. reflexivity.
      * rewrite H3. unfold addFile, push, scan1. cbn [Ci.files]. rewrite <- app_assoc. reflexivity.
    + pose proof (IH scan c1 Hs1 Ht1 Hst) as H. cbv zeta in H.
      destruct (readGitlab d targetDir rest scan c1) as [[ev3 r] c3].
      cbn [fst snd orb] in *. exact H.
Qed.

(** With caches that agree with the disk, [collectCiConfigs] sets [hasGH]
    exactly when the workflows directory exists and [hasGL] exactly when one
    of the two GitLab files does; [files] lists the entries of the workflows
    directory whose name ends in [.yml] or [.yaml], in whatever case, in the
    order [readdir] gives them, and after them the GitLab files that exist; and
    for every listed file [textByFile] holds the text of the file, the empty
    text when it cannot be read. *)
Theorem collectCiConfigs_lists_ci_files :
  forall (workflows : option (list string)) (targetDir : string) (c : Caches),
    coherent d c -> coherentTexts d c ->
    Ci.hasGH (snd (fst (collectCiConfigs d workflows targetDir c)))
    = onDisk d (join d [targetDir; ".github"; "workflows"])
    /\ Ci.hasGL (snd (fst (collectCiConfigs d workflows targetDir c)))
       = existsb (fun n => onDisk d (join d [targetDir; n])) gitlabNames
    /\ Ci.files (snd (fst (collectCiConfigs d workflows targetDir c)))
       = List.app
           (if onDisk d (join d [targetDir; ".github"; "workflows"])
            then map (fun n => join d [join d [targetDir; ".github"; "workflows"]; n])
                     (filter isYaml (match workflows with Some names => names | None => [] end))
            else [])
           (filter (onDisk d) (map (fun n => join d [targetDir; n]) gitlabNames))
    /\ (forall f,
           In f (Ci.files (snd (fst (collectCiConfigs d workflows targetDir c)))) ->
           Ci.textOf (snd (fst (collectCiConfigs d workflows targetDir c))) f
           = textOnDisk d f).
Proof.
  intros workflows targetDir c Hs Ht. unfold collectCiConfigs.
  cbn [Ci.hasGH Ci.hasGL Ci.files Ci.textByFile].
  set (ghDir := join d [targetDir; ".github"; "workflows"]).
  set (names := match workflows with Some names => names | None => [] end).
  destruct (exists_faithful d ghDir c (conj Hs Ht)) as [Hb [Hs1 Ht1]].
  destruct (exists_ d ghDir c) as [[ev1 found] c1]. cbn [fst snd] in Hb, Hs1, Ht1.
  subst found.
  assert (Hempty : stored {| Ci.hasGH := false; Ci.hasGL := false;
                             Ci.files := []; Ci.textByFile := [] |})
    by (intros f []).
  assert (Hgh : stored {| Ci.hasGH := true; Ci.hasGL := false;
                          Ci.files := []; Ci.textByFile := [] |})
    by (intros f []).
  assert (Htext : forall scan, stored scan ->
                    forall f, In f (Ci.files scan) -> Ci.textOf scan f = textOnDisk d f).
  { intros scan Hst f Hf. unfold Ci.textOf. rewrite (Hst f Hf). reflexivity. }
  destruct (onDisk d ghDir).
  - pose proof (readWorkflows_lists ghDir names _ c1 Hs1 Ht1 Hgh) as H. cbv zeta in H.
    destruct (readWorkflows d ghDir names
                {| Ci.hasGH := true; Ci.hasGL := false; Ci.files := [];
                   Ci.textByFile := [] |} c1) as [[ev2 scan2] c2].
    cbn [fst snd] in H. destruct H as (H1 & H2 & H3 & H4 & H5 & H6).
    pose proof (readGitlab_lists targetDir gitlabNames scan2 c2 H5 H6 H4) as G.
    cbv zeta in G.
    destruct (readGitlab d targetDir gitlabNames scan2 c2) as [[ev3 scan3] c3].
    cbn [fst snd] in G |- *. destruct G as (G1 & G2 & G3 & G4 & _).
    split; [rewrite G1, H1; reflexivity|]. split; [rewrite G2, H2; reflexivity|].
    split; [rewrite G3, H3; reflexivity|]. apply Htext. exact G4.
  - pose proof (readGitlab_lists targetDir gitlabNames _ c1 Hs1 Ht1 Hempty) as G.
    cbv zeta in G.
    destruct (readGitlab d targetDir gitlabNames
                {| Ci.hasGH := false; Ci.hasGL := false; Ci.files := [];
                   Ci.textByFile := [] |} c1) as [[ev3 scan3] c3].
    cbn [fst snd] in G |- *. destruct G as (G1 & G2 & G3 & G4 & _).
    split; [exact G1|]. split; [exact G2|]. split; [exact G3|]. apply Htext. exact G4.
Qed.

End CiScanFacts.

Lemma collectCiConfigs_lists_ci_files_witness :
  Ci.files (snd (fst (Scan.collectCiConfigs ScanDemo.disk (Some ["README.md"; "e2e.YML"])
                        "/proj" Files.noCaches)))
  = ["/proj/.github/workflows/e2e.YML"; "/proj/.gitlab-ci.yml"]
  /\ Ci.textOf (snd (fst (Scan.collectCiConfigs ScanDemo.disk (Some ["README.md"; "e2e.YML"])
                            "/proj" Files.noCaches)))
       "/proj/.gitlab-ci.yml"
     = "script: npm test".
Proof.
  destruct (collectCiConfigs_lists_ci_files ScanDemo.disk (Some ["README.md"; "e2e.YML"])
              "/proj" Files.noCaches) as (_ & _ & Hfiles & Htext).
  - intros p b Hp. discriminate Hp.
  - intros p t Hp. discriminate Hp.
  - split.
    + rewrite Hfiles. vm_compute. reflexivity.
    + rewrite Htext.
      * vm_compute. reflexivity.
      * rewrite Hfiles. vm_compute. right. left. reflexivity.
Defined.


(* ================================================================= *)
(** ** Properties of the project structure analyzer *)

Section StructureFacts.
Import Eff Files Findings Structure.

Variable d : Disk.
Variable trees : Scan.Trees.
Variable targetDir : string.

Local Abbreviation faithful := (Scan.faithful d).

Lemma firstExisting_on (paths : list string) :
  forall c,
    faithful c ->
    snd (fst (Structure.firstExisting d targetDir paths c)) = firstOnDisk d targetDir paths
    /\ faithful (snd (Structure.firstExisting d targetDir paths c)).
Proof.
  unfold firstOnDisk.
  induction paths as [|p rest IH]; intros c Hc; cbn [Structure.firstExisting find].
  - split; [reflexivity | exact Hc].
  - destruct (exists_faithful d (join d [targetDir; p]) c Hc) as [Hb Hc1].
    destruct (exists_ d (join d [targetDir; p]) c) as [[ev1 found] c1].
    cbn [fst snd] in Hb, Hc1. subst found. unfold exists_on at 1.
    destruct (onDisk d (join d [targetDir; p])); cbn [fst snd].
    + split; [reflexivity | exact Hc1].
    + destruct (IH c1 Hc1) as [Hr Hc2].
      destruct (Structure.firstExisting d targetDir rest c1) as [[ev2 r] c2].
      cbn [fst snd] in *. split; assumption.
Qed.

Lemma present_on (names : list string) :
  forall acc c,
    faithful c ->
    snd (fst (present d targetDir names acc c))
    = List.app acc (filter (exists_on d targetDir) names)
    /\ faithful (snd (present d targetDir names acc c)).
Proof.
  induction names as [|n rest IH]; intros acc c Hc; cbn [present filter].
  - cbn [fst snd]. rewrite app_nil_r. split; [reflexivity | exact Hc].
  - destruct (exists_faithful d (join d [targetDir; n]) c Hc) as [Hb Hc1].
    destruct (exists_ d (join d [targetDir; n]) c) as [[ev1 found] c1].
    cbn [fst snd] in Hb, Hc1. subst found. unfold exists_on at 1.
    destruct (IH (if onDisk d (join d [targetDir; n]) then push acc n else acc) c1 Hc1)
      as [Hr Hc2].
    destruct (present d targetDir rest
                (if onDisk d (join d [targetDir; n]) then push acc n else acc) c1)
      as [[ev2 r] c2].
    cbn [fst snd] in *. split; [|exact Hc2]. rewrite Hr.
    destruct (onDisk d (join d [targetDir; n])); [|reflexivity].
    unfold push. rewrite <- app_assoc. reflexivity.
Qed.

Lemma countTestFiles_on (roots : list string) :
  forall n c,
    faithful c ->
    snd (fst (countTestFiles d trees targetDir roots n c))
    = fold_left
        (fun n r =>
           if exists_on d targetDir r
           then (n + List.length
                       (filter isTestFile
                          (walk (join d) (join d [targetDir; r])
                                (trees (join d [targetDir; r])) 2000 [])))%nat
           else n)
        roots n
    /\ faithful (snd (countTestFiles d trees targetDir roots n c)).
Proof.
  induction roots as [|r rest IH]; intros n c Hc; cbn [countTestFiles fold_left].
  - split; [reflexivity | exact Hc].
  - destruct (exists_faithful d (join d [targetDir; r]) c Hc) as [Hb Hc1].
    destruct (exists_ d (join d [targetDir; r]) c) as [[ev1 found] c1].
    cbn [fst snd] in Hb, Hc1. subst found. unfold exists_on at 1.
    match goal with
    | |- context [countTestFiles d trees targetDir rest ?m c1] =>
        destruct (IH m c1 Hc1) as [Hr Hc2];
        destruct (countTestFiles d trees targetDir rest m c1) as [[ev2 k] c2]
    end.
    cbn [fst snd] in *. split; assumption.
Qed.

Lemma checkCandidates_on (cs : list Candidate) :
  forall cat c,
    faithful c ->
    snd (fst (checkCandidates d targetDir cs cat c))
    = {| id := id cat; title := title cat;
         findings :=
           List.app (findings cat)
             (map (fun x => recorded (candidateFinding d targetDir x
                                        (firstOnDisk d targetDir (pathsToCheck x)))) cs);
         score := score cat |}
    /\ faithful (snd (checkCandidates d targetDir cs cat c)).
Proof.
  induction cs as [|x rest IH]; intros cat c Hc; cbn [checkCandidates map].
  - cbn [fst snd]. rewrite app_nil_r. split; [destruct cat; reflexivity | exact Hc].
  - destruct (firstExisting_on (pathsToCheck x) c Hc) as [Hres Hc1].
    destruct (Structure.firstExisting d targetDir (pathsToCheck x) c) as [[ev1 res] c1].
    cbn [fst snd] in Hres, Hc1. subst res.
    match goal with
    | |- context [checkCandidates d targetDir rest ?cat1 c1] =>
        destruct (IH cat1 c1 Hc1) as [Hr Hc2];
        destruct (checkCandidates d targetDir rest cat1 c1) as [[ev2 r] c2]
    end.
    cbn [fst snd] in *. split; [|exact Hc2]. rewrite Hr.
    unfold addFinding, push. cbn [id title findings score].
    rewrite <- app_assoc. reflexivity.
Qed.

(** With caches that agree with the disk, a call appends to the category
    it finds the checks read off the disk, and scores all of them. *)
Lemma analyzeProjectStructure_on (cat : CategoryResult) (c : Caches) :
  faithful c ->
  snd (fst (analyzeProjectStructure d trees targetDir cat c))
  = scored {| id := id cat; title := title cat;
              findings := List.app (findings cat) (checks d trees targetDir);
              score := score cat |}
  /\ faithful (snd (analyzeProjectStructure d trees targetDir cat c)).
Proof.
  intros Hc. unfold analyzeProjectStructure.
  destruct (checkCandidates_on candidates cat c Hc) as [H1 Hc1].
  destruct (checkCandidates d targetDir candidates cat c) as [[ev1 cat1] c1].
  cbn [fst snd] in H1, Hc1.
  destruct (present_on lockfiles [] c1 Hc1) as [H2 Hc2].
  destruct (present d targetDir lockfiles [] c1) as [[ev2 presentLocks] c2].
  cbn [fst snd List.app] in H2, Hc2.
  destruct (countTestFiles_on testRoots 0%nat c2 Hc2) as [H3 Hc3].
  destruct (countTestFiles d trees targetDir testRoots 0 c2) as [[ev3 testFilesCount] c3].
  cbn [fst snd] in H3, Hc3.
  destruct (firstExisting_on prettierCandidates c3 Hc3) as [H4 Hc4].
  destruct (Structure.firstExisting d targetDir prettierCandidates c3)
    as [[ev4 prettierRes] c4].
  cbn [fst snd] in H4, Hc4.
  destruct (exists_faithful d (join d [targetDir; ".vscode"]) c4 Hc4) as [H5 Hc5].
  destruct (exists_ d (join d [targetDir; ".vscode"]) c4) as [[ev5 hasVscode] c5].
  cbn [fst snd] in H5, Hc5.
  destruct (exists_faithful d (join d [targetDir; ".github/workflows"]) c5 Hc5) as [H6 Hc6].
  destruct (exists_ d (join d [targetDir; ".github/workflows"]) c5)
    as [[ev6 hasWorkflows] c6].
  cbn [fst snd] in H6, Hc6.
  destruct (firstExisting_on [".nvmrc"; ".node-version"] c6 Hc6) as [H7 Hc7].
  destruct (Structure.firstExisting d targetDir [".nvmrc"; ".node-version"] c6)
    as [[ev7 nodeVersionRes] c7].
  cbn [fst snd] in H7, Hc7.
  destruct (present_on monorepoHints [] c7 Hc7) as [H8 Hc8].
  destruct (present d targetDir monorepoHints [] c7) as [[ev8 monoFound] c8].
  cbn [fst snd List.app] in H8, Hc8.
  cbn [fst snd]. split; [|exact Hc8].
  subst. unfold scored, addFinding, push, checks, testFilesOnDisk.
  cbn [id title findings score map].
  rewrite <- !app_assoc. cbn [List.app]. reflexivity.
Qed.

Lemma applyScore_closed (items : list Helpers.ScoreItem) :
  Helpers.applyScore items = Z.max 0 (100 - Spec.sumBy Spec.cost items).
Proof.
  unfold Helpers.applyScore. rewrite fold_applyStep.
  pose proof (sumBy_nonneg Spec.cost items cost_nonneg). lia.
Qed.

Lemma checks_length : List.length (checks d trees targetDir) = 26%nat.
Proof. unfold checks. rewrite length_app, !length_map. reflexivity. Qed.

(** The category of the analyzer belongs to the module, not to the call:
    with caches that agree with the disk, the first call in a process returns
    the 26 checks of the project, and a second call appends the same 26
    checks to them and scores all 52, so every failed check is deducted
    twice and the score of the second audit is at most that of the first. *)
Theorem structure_findings_accumulate_across_calls :
  forall (c : Caches),
    coherent d c -> Scan.coherentTexts d c ->
    let first := analyzeProjectStructure d trees targetDir moduleCat c in
    let second := analyzeProjectStructure d trees targetDir (snd (fst first)) (snd first) in
    findings (snd (fst first)) = checks d trees targetDir
    /\ List.length (findings (snd (fst first))) = 26%nat
    /\ findings (snd (fst second))
       = List.app (checks d trees targetDir) (checks d trees targetDir)
    /\ score (snd (fst first)) = Z.max 0 (100 - deductions (checks d trees targetDir))
    /\ score (snd (fst second)) = Z.max 0 (100 - 2 * deductions (checks d trees targetDir))
    /\ score (snd (fst second)) <= score (snd (fst first)).
Proof.
  intros c Hs Ht first second.
  destruct (analyzeProjectStructure_on moduleCat c (conj Hs Ht)) as [H1 Hc1].
  fold first in H1, Hc1.
  destruct (analyzeProjectStructure_on (snd (fst first)) (snd first) Hc1) as [H2 _].
  fold second in H2.
  assert (F1 : findings (snd (fst first)) = checks d trees targetDir).
  { rewrite H1. reflexivity. }
  assert (F2 : findings (snd (fst second))
               = List.app (checks d trees targetDir) (checks d trees targetDir)).
  { rewrite H2. cbn [scored findings]. rewrite F1. reflexivity. }
  assert (S1 : score (snd (fst first)) = Z.max 0 (100 - deductions (checks d trees targetDir))).
  { rewrite H1. cbn [scored score findings moduleCat createCategory List.app].
    apply applyScore_closed. }
  assert (S2 : score (snd (fst second))
               = Z.max 0 (100 - 2 * deductions (checks d trees targetDir))).
  { rewrite H2. cbn [scored score findings]. rewrite F1, applyScore_closed.
    rewrite map_app, sumBy_app. unfold deductions. f_equal. ring. }
  split; [exact F1|]. split; [rewrite F1; apply checks_length|].
  split; [exact F2|]. split; [exact S1|]. split; [exact S2|].
  rewrite S1, S2.
  assert (0 <= deductions (checks d trees targetDir))
    by (apply sumBy_nonneg, cost_nonneg).
  lia.
Qed.

Lemma ok_firstOnDisk (paths : list string) :
  ok (firstOnDisk d targetDir paths) = existsb (exists_on d targetDir) paths.
Proof.
  unfold firstOnDisk. induction paths as [|p rest IH]; [reflexivity|].
  cbn [find existsb]. destruct (exists_on d targetDir p); [reflexivity | exact IH].
Qed.

(** With caches that agree with the disk, the first 19 findings of a first
    call are those of the presence checks, in the order of the candidates:
    each has the label of its candidate as title, [makeId] of the label as id
    and the candidate's severity, and it passes exactly when the candidate's
    path or one of its alternatives exists under the target. *)
Theorem structure_check_passes_when_a_path_exists :
  forall (c : Caches),
    coherent d c -> Scan.coherentTexts d c ->
    map (fun f => (Finding.id f, Finding.title f, Finding.severity f, Finding.status f))
        (firstn 19 (findings (snd (fst (analyzeProjectStructure d trees targetDir
                                          moduleCat c)))))
    = map (fun x => (makeId (label x), label x, sev x,
                     if existsb (exists_on d targetDir) (pathsToCheck x)
                     then "pass" else "fail"))
          candidates.
Proof.
  intros c Hs Ht.
  destruct (analyzeProjectStructure_on moduleCat c (conj Hs Ht)) as [H1 _].
  rewrite H1. cbn [scored findings moduleCat createCategory List.app].
  unfold checks.
  assert (Hmap : forall (cs : list Candidate) (rest : list Finding.t),
             List.length cs = 19%nat ->
             map (fun f => (Finding.id f, Finding.title f, Finding.severity f,
                            Finding.status f))
                 (firstn 19
                    (List.app
                       (map (fun x => recorded (candidateFinding d targetDir x
                                                  (firstOnDisk d targetDir (pathsToCheck x))))
                            cs)
                       rest))
             = map (fun x => (makeId (label x), label x, sev x,
                              if existsb (exists_on d targetDir) (pathsToCheck x)
                              then "pass" else "fail"))
                   cs).
  { intros cs rest Hlen.
    rewrite firstn_app, length_map, Hlen, Nat.sub_diag, firstn_O, app_nil_r.
    rewrite firstn_all2 by (rewrite length_map, Hlen; apply Nat.le_refl).
    rewrite map_map. apply map_ext. intros x.
    cbn [recorded candidateFinding newId newTitle newSeverity newStatus Js.truthy
         Finding.id Finding.title Finding.severity Finding.status].
    rewrite ok_firstOnDisk. reflexivity. }
  apply Hmap. reflexivity.
Qed.

(** With caches that agree with the disk, the two lockfile checks read the
    same three paths: [Lockfile present] passes when at least one of
    [package-lock.json], [pnpm-lock.yaml] and [yarn.lock] exists, and
    [Single lockfile sanity] when exactly one does; the latter has severity
    medium when there is none and high when there are several, so a project
    with two lockfiles passes the first check and fails the second at a cost
    of 12. *)
Theorem structure_lockfile_checks_agree :
  forall (c : Caches),
    coherent d c -> Scan.coherentTexts d c ->
    exists lockPresent singleLock,
      nth_error (findings (snd (fst (analyzeProjectStructure d trees targetDir moduleCat c)))) 18
      = Some lockPresent
      /\ nth_error (findings (snd (fst (analyzeProjectStructure d trees targetDir
                                          moduleCat c)))) 19
         = Some singleLock
      /\ Finding.title lockPresent = "Lockfile present (npm/pnpm/yarn)"
      /\ Finding.title singleLock = "Single lockfile sanity"
      /\ Finding.status lockPresent
         = (if Nat.leb 1 (List.length (filter (exists_on d targetDir) lockfiles))
            then "pass" else "fail")
      /\ Finding.status singleLock
         = (if Nat.eqb (List.length (filter (exists_on d targetDir) lockfiles)) 1
            then "pass" else "fail")
      /\ Finding.severity singleLock
         = match List.length (filter (exists_on d targetDir) lockfiles) with
           | 0%nat => Helpers.medium
           | 1%nat => Helpers.info
           | _ => Helpers.high
           end
      /\ ((2 <= List.length (filter (exists_on d targetDir) lockfiles))%nat ->
          Finding.status lockPresent = "pass"
          /\ Spec.cost (scoreItem singleLock) = 12).
Proof.
  intros c Hs Ht.
  destruct (analyzeProjectStructure_on moduleCat c (conj Hs Ht)) as [H1 _].
  rewrite H1. cbn [scored findings moduleCat createCategory List.app].
  unfold checks, candidates, lockfiles.
  cbn [map List.app nth_error].
  eexists. eexists. split; [reflexivity|]. split; [reflexivity|].
  cbn [recorded candidateFinding lockFinding newId newTitle newSeverity newStatus Js.truthy
       Finding.id Finding.title Finding.severity Finding.status label sev pathsToCheck
       path alt scoreItem Spec.cost Helpers.status Helpers.severity].
  rewrite ok_firstOnDisk.
  cbn [existsb filter pathsToCheck path alt].
  destruct (exists_on d targetDir "package-lock.json"),
           (exists_on d targetDir "pnpm-lock.yaml"),
           (exists_on d targetDir "yarn.lock");
    cbn; repeat split; try reflexivity; intros; try lia.
Qed.

End StructureFacts.

Lemma structure_findings_accumulate_across_calls_witness :
  List.length
    (Findings.findings
       (snd (fst (Structure.analyzeProjectStructure StructureDemo.disk ScanDemo.trees "/proj"
                    (snd (fst (Structure.analyzeProjectStructure StructureDemo.disk
                                 ScanDemo.trees "/proj" Structure.moduleCat Files.noCaches)))
                    (snd (Structure.analyzeProjectStructure StructureDemo.disk
                            ScanDemo.trees "/proj" Structure.moduleCat Files.noCaches))))))
  = 52%nat
  /\ Findings.score
       (snd (fst (Structure.analyzeProjectStructure StructureDemo.disk ScanDemo.trees "/proj"
                    Structure.moduleCat Files.noCaches)))
     = 88
  /\ Findings.score
       (snd (fst (Structure.analyzeProjectStructure StructureDemo.disk ScanDemo.trees "/proj"
                    (snd (fst (Structure.analyzeProjectStructure StructureDemo.disk
                                 ScanDemo.trees "/proj" Structure.moduleCat Files.noCaches)))
                    (snd (Structure.analyzeProjectStructure StructureDemo.disk
                            ScanDemo.trees "/proj" Structure.moduleCat Files.noCaches)))))
     = 76.
Proof.
  destruct (structure_findings_accumulate_across_calls StructureDemo.disk ScanDemo.trees
              "/proj" Files.noCaches) as (_ & _ & F2 & S1 & S2 & _).
  - intros p b Hp. discriminate Hp.
  - intros p t Hp. discriminate Hp.
  - rewrite F2, S1, S2. vm_compute. repeat split.
Defined.

Lemma structure_check_passes_when_a_path_exists_witness :
  map (fun f => (Finding.id f, Finding.title f, Finding.severity f, Finding.status f))
      (firstn 19
         (Findings.findings
            (snd (fst (Structure.analyzeProjectStructure StructureDemo.disk ScanDemo.trees
                         "/proj" Structure.moduleCat Files.noCaches)))))
  = map (fun x => (Findings.makeId (Structure.label x), Structure.label x, Structure.sev x,
                   if existsb (Structure.exists_on StructureDemo.disk "/proj")
                              (Structure.pathsToCheck x)
                   then "pass" else "fail"))
        Structure.candidates.
Proof.
  apply (structure_check_passes_when_a_path_exists StructureDemo.disk ScanDemo.trees "/proj"
           Files.noCaches).
  - intros p b Hp. discriminate Hp.
  - intros p t Hp. discriminate Hp.
Defined.

Lemma structure_lockfile_checks_agree_witness :
  exists lockPresent singleLock,
    nth_error
      (Findings.findings
         (snd (fst (Structure.analyzeProjectStructure StructureDemo.disk ScanDemo.trees
                      "/proj" Structure.moduleCat Files.noCaches)))) 18
    = Some lockPresent
    /\ nth_error
         (Findings.findings
            (snd (fst (Structure.analyzeProjectStructure StructureDemo.disk ScanDemo.trees
                         "/proj" Structure.moduleCat Files.noCaches)))) 19
       = Some singleLock
    /\ Finding.status lockPresent = "pass"
    /\ Finding.status singleLock = "fail"
    /\ Finding.severity singleLock = Helpers.high.
Proof.
  destruct (structure_lockfile_checks_agree StructureDemo.disk ScanDemo.trees "/proj"
              Files.noCaches)
    as (lockPresent & singleLock & H1 & H2 & _ & _ & H3 & H4 & H5 & _).
  - intros p b Hp. discriminate Hp.
  - intros p t Hp. discriminate Hp.
  - exists lockPresent, singleLock.
    split; [exact H1|]. split; [exact H2|].
    split; [rewrite H3; vm_compute; reflexivity|].
    split; [rewrite H4; vm_compute; reflexivity|].
    rewrite H5. vm_compute. reflexivity.
Defined.


Section StructureTestFiles.
Import Eff Files Findings Structure.
Local Open Scope nat_scope.

Variable d : Disk.
Variable trees : Scan.Trees.
Variable targetDir : string.

Lemma walk_default (dir : string) (listing : option (list Dirent)) :
  walk (join d) dir listing 2000 [] = firstn 2000 (filesUnder (join d) dir listing).
Proof.
  unfold walk, filesUnder.
  rewrite walkLoop_files.
  - cbn [List.app List.length]. rewrite Nat.sub_0_r. reflexivity.
  - apply Forall_forall. intros e _ dir' out. apply walkEntry_files.
  - cbn [List.length]. apply Nat.ltb_lt. vm_compute. reflexivity.
Qed.

Lemma count_fold (f : string -> list string) (roots : list string) :
  forall n,
    fold_left (fun n r => if exists_on d targetDir r then n + List.length (f r) else n) roots n
    = n + List.length
            (flat_map (fun r => if exists_on d targetDir r then f r else []) roots).
Proof.
  induction roots as [|r rest IH]; intros n; cbn [fold_left flat_map].
  - cbn [List.length]. lia.
  - rewrite IH, length_app. destruct (exists_on d targetDir r); cbn [List.length]; lia.
Qed.

Lemma testFilesOnDisk_count :
  testFilesOnDisk d trees targetDir = List.length (testFiles d trees targetDir).
Proof.
  unfold testFilesOnDisk, testFiles.
  pose proof (count_fold
                (fun r => filter isTestFile
                            (walk (join d) (join d [targetDir; r])
                                  (trees (join d [targetDir; r])) 2000 []))
                testRoots 0) as H.
  cbn [Nat.add] in H. rewrite H. f_equal. apply flat_map_ext. intros r.
  unfold testFilesBelow. rewrite walk_default. reflexivity.
Qed.

(** With caches that agree with the disk, the check [Test files present]
    counts, over the roots [tests], [e2e], [test], [__tests__] and [src] that
    exist, the files among the first 2000 below each root whose path ends in
    [.spec] or [.test] followed by [.ts], [.tsx], [.js] or [.jsx]; it passes
    with severity info when there is one, naming their number, and fails
    with severity medium when there is none. *)
Theorem structure_test_files_are_counted :
  forall (c : Caches),
    coherent d c -> Scan.coherentTexts d c ->
    exists testsCheck,
      nth_error (findings (snd (fst (analyzeProjectStructure d trees targetDir moduleCat c)))) 20
      = Some testsCheck
      /\ Finding.title testsCheck = "Test files present"
      /\ (testFiles d trees targetDir = [] ->
          Finding.status testsCheck = "fail"
          /\ Finding.severity testsCheck = Helpers.medium
          /\ Finding.message testsCheck = "No test files detected.")
      /\ (testFiles d trees targetDir <> [] ->
          Finding.status testsCheck = "pass"
          /\ Finding.severity testsCheck = Helpers.info
          /\ Finding.message testsCheck
             = "Found "
               ++ Js.decimal (Z.of_nat (List.length (testFiles d trees targetDir)))
               ++ " test file(s).")
      /\ (forall f, In f (testFiles d trees targetDir) <->
                    exists r, In r testRoots /\ exists_on d targetDir r = true
                              /\ In f (testFilesBelow d trees targetDir r)).
Proof.
  intros c Hs Ht.
  destruct (analyzeProjectStructure_on d trees targetDir moduleCat c (conj Hs Ht)) as [H1 _].
  rewrite H1. cbn [scored findings moduleCat createCategory List.app].
  unfold checks, candidates. cbn [map List.app nth_error].
  eexists. split; [reflexivity|].
  cbn [recorded testsFinding newId newTitle newSeverity newStatus newMessage Js.truthy
       Finding.id Finding.title Finding.severity Finding.status Finding.message].
  rewrite testFilesOnDisk_count.
  split; [reflexivity|]. split; [|split].
  - intros ->. cbn. repeat split.
  - intros Hne. destruct (testFiles d trees targetDir) as [|f rest]; [contradiction|].
    cbn [List.length Nat.ltb Nat.leb]. repeat split.
  - intros f. unfold testFiles. rewrite in_flat_map. split.
    + intros (r & Hr & Hf). exists r. split; [exact Hr|].
      destruct (exists_on d targetDir r); [split; [reflexivity | exact Hf] | destruct Hf].
    + intros (r & Hr & He & Hf). exists r. split; [exact Hr|]. rewrite He. exact Hf.
Qed.

End StructureTestFiles.

Lemma structure_test_files_are_counted_witness :
  exists testsCheck,
    nth_error
      (Findings.findings
         (snd (fst (Structure.analyzeProjectStructure StructureDemo.disk ScanDemo.trees
                      "/proj" Structure.moduleCat Files.noCaches)))) 20
    = Some testsCheck
    /\ Finding.status testsCheck = "pass"
    /\ Finding.message testsCheck = "Found 2 test file(s).".
Proof.
  destruct (structure_test_files_are_counted StructureDemo.disk ScanDemo.trees "/proj"
              Files.noCaches) as (testsCheck & H1 & _ & _ & H2 & _).
  - intros p b Hp. discriminate Hp.
  - intros p t Hp. discriminate Hp.
  - exists testsCheck. split; [exact H1|].
    destruct H2 as (Hst & _ & Hmsg).
    + vm_compute. discriminate.
    + split; [exact Hst|]. rewrite Hmsg. vm_compute. reflexivity.
Defined.


(* ================================================================= *)
(** ** Further properties of running an analyzer and of the output step *)

Section RunnerMore.
Import Js Eff Runner.




End RunnerMore.


